(** * module-rtp-recv: RTP/SAP/SDP receiver of PulseAudio

    A shallow embedding of [src/modules/rtp/module-rtp-recv.c] together with
    the properties its specification states about it.

    Definitions:
    - [CInt]: the fixed-width C integer types the module computes with;
    - [Memblockq], [Smoother]: the two collaborators the I/O path drives;
    - [RtpRecv]: the I/O-thread callback [rtpoll_work_cb];
    - [Registry]: the main-thread session registry ([session_new],
      [session_free], [sap_event_cb], [check_death_event_cb]);
    - [Scenario]: concrete sessions, packets and announcements.

    Properties follow, in the order: integers, timestamp reconciliation,
    packet ingestion, rate control, jitter buffer, registry. *)

From Stdlib Require Import ZArith Lia Bool.
From stdpp Require Import gmap strings list fin_maps.

Local Open Scope Z_scope.

(* ===================================================================== *)
(** ** Fixed-width integers *)
(* ===================================================================== *)

Module CInt.

(** [uint32_t], [unsigned]: arithmetic modulo 2^32. *)
Definition uint32 (z : Z) : Z := z mod 2 ^ 32.

(** [uint64_t], [size_t], [pa_usec_t]: arithmetic modulo 2^64. *)
Definition uint64 (z : Z) : Z := z mod 2 ^ 64.

(** [int], [pa_atomic_t] payload: two's complement on 32 bits. *)
Definition sint32 (z : Z) : Z := (z + 2 ^ 31) mod 2 ^ 32 - 2 ^ 31.

(** [int64_t]: two's complement on 64 bits. *)
Definition sint64 (z : Z) : Z := (z + 2 ^ 63) mod 2 ^ 64 - 2 ^ 63.

End CInt.

Import CInt.

(** [struct timeval]. *)
Record timeval := { tv_sec : Z; tv_usec : Z }.

(** [pa_sample_spec]: [rate] is a [uint32_t]. *)
Record pa_sample_spec := { format : Z; rate : Z; channels : Z }.

Definition set_rate (r : Z) (ss : pa_sample_spec) : pa_sample_spec :=
  {| format := format ss; rate := r; channels := channels ss |}.

(** Modelled from the spec: the time-unit constants of [pulse/timeval.h],
    which is not among the sources (the rate interval is "5 seconds", the
    intended latency "500ms", both counted in microseconds). *)
Definition PA_USEC_PER_SEC : Z := 1000000.

(** Modelled from the spec: microseconds per millisecond, from the same
    missing header. *)
Definition PA_USEC_PER_MSEC : Z := 1000.

Definition SAP_PORT : Z := 9875.
Definition MEMBLOCKQ_MAXLENGTH : Z := 1024 * 1024 * 40.
Definition MAX_SESSIONS : Z := 16.
Definition DEATH_TIMEOUT : Z := 20.
Definition RATE_UPDATE_INTERVAL : Z := 5 * PA_USEC_PER_SEC.
Definition LATENCY_USEC : Z := 500 * PA_USEC_PER_MSEC.

(* ===================================================================== *)
(** ** The jitter buffer *)
(* ===================================================================== *)

Module Memblockq.

(** Modelled from the spec: [pa_memblockq] ([pulsecore/memblockq.c] is not
    among the sources).  The spec describes "an ordered byte queue with an
    absolute write cursor and read cursor, bounded by a maximum length,
    [...] supporting relative seeks of the write cursor".  The payload
    bytes the queue holds are kept under their absolute position;
    positions that hold nothing play as silence. *)
Record pa_memblockq := {
  read_index : Z;            (* int64_t *)
  write_index : Z;           (* int64_t *)
  maxlength : Z;             (* size_t *)
  prebuf : Z;                (* size_t *)
  blocks : gmap Z Byte.byte  (* held payload bytes by absolute position *)
}.

(** Modelled from the spec: the buffer occupancy, the number of payload
    bytes the queue holds. *)
Definition occupancy (bq : pa_memblockq) : Z := Z.of_nat (size (blocks bq)).

(** Modelled from the spec: storing a payload byte by byte from [pos] on,
    over whatever the queue held there. *)
Fixpoint write_bytes (pos : Z) (data : list Byte.byte) (m : gmap Z Byte.byte)
  : gmap Z Byte.byte :=
  match data with
  | [] => m
  | b :: rest => <[pos := b]> (write_bytes (pos + 1) rest m)
  end.

(** Modelled from the spec: [pa_memblockq_seek] with [PA_SEEK_RELATIVE],
    "relative seeks of the write cursor". *)
Definition pa_memblockq_seek (bq : pa_memblockq) (off : Z) : pa_memblockq :=
  {| read_index := read_index bq;
     write_index := sint64 (write_index bq + off);
     maxlength := maxlength bq;
     prebuf := prebuf bq;
     blocks := blocks bq |}.

(** Modelled from the spec: [pa_memblockq_push].  "Pushing a payload larger
    than remaining buffer capacity drops the payload" ([None], the C
    function returns -1); otherwise the payload is stored at the write
    cursor, which advances past it. *)
Definition pa_memblockq_push (bq : pa_memblockq) (data : list Byte.byte)
  : option pa_memblockq :=
  let l := Z.of_nat (length data) in
  if maxlength bq - occupancy bq <? l then None
  else Some {| read_index := read_index bq;
               write_index := sint64 (write_index bq + l);
               maxlength := maxlength bq;
               prebuf := prebuf bq;
               blocks := write_bytes (write_index bq) data (blocks bq) |}.

(** Modelled from the spec: [pa_memblockq_new], an empty queue with both
    cursors at [idx]. *)
Definition pa_memblockq_new (idx maxlength prebuf : Z) : pa_memblockq :=
  {| read_index := idx; write_index := idx; maxlength := maxlength;
     prebuf := prebuf; blocks := ∅ |}.

(** Modelled from the spec: the two cursors, as the queue reports them. *)
Definition pa_memblockq_get_write_index (bq : pa_memblockq) : Z := write_index bq.

(** Modelled from the spec: see [pa_memblockq_get_write_index]. *)
Definition pa_memblockq_get_read_index (bq : pa_memblockq) : Z := read_index bq.

End Memblockq.

Import Memblockq.

(* ===================================================================== *)
(** ** The write-position smoother *)
(* ===================================================================== *)

Module Smoother.

(** Modelled from the spec: [pa_smoother] ([pulsecore/time-smoother.c] is
    not among the sources), "a time-series smoothing estimator mapping
    wall-clock time to the buffer's write cursor position".  The model
    keeps the samples it was fed, newest first; the estimate read back
    from them is a parameter of the I/O path below. *)
Record pa_smoother := {
  time_offset : Z;
  samples : list (Z * Z)
}.

(** Modelled from the spec: [pa_smoother_put] records the sample
    "(now, playback-time-equivalent of the buffer's write cursor
    position)". *)
Definition pa_smoother_put (sm : pa_smoother) (x y : Z) : pa_smoother :=
  {| time_offset := time_offset sm; samples := (x, y) :: samples sm |}.

End Smoother.

Import Smoother.

(* ===================================================================== *)
(** ** Session data *)
(* ===================================================================== *)

(** [pa_rtp_context], as far as the receiver reads it. *)
Module rtp.
Record pa_rtp_context := {
  fd : Z;
  sequence : Z;      (* uint16_t *)
  timestamp : Z;     (* uint32_t *)
  ssrc : Z;          (* uint32_t *)
  payload : Z;       (* uint8_t *)
  frame_size : Z     (* size_t *)
}.
End rtp.

(** [pa_sdp_info], as far as the receiver reads it. *)
Module sdp.
Record pa_sdp_info := {
  origin : string;
  session_name : option string;
  sa_family : Z;
  sample_spec : pa_sample_spec;
  payload : Z        (* uint8_t *)
}.
End sdp.

Record pa_sink := { sink_sample_spec : pa_sample_spec }.

(** [pa_sink_input], as far as the receiver reads and writes it.
    [sample_spec] carries the session's current rate;
    [thread_info_resampler] is the input rate last handed to the resampler
    by [pa_resampler_set_input_rate];
    [thread_info_render_memblockq] is the length of the render queue. *)
Record pa_sink_input := {
  sample_spec : pa_sample_spec;
  thread_info_sample_spec : pa_sample_spec;
  thread_info_resampler : Z;
  thread_info_render_memblockq : Z;
  thread_info_underrun_for : Z;
  sink : pa_sink
}.

(** [struct session].  [userdata], the list links and [rtpoll_item] live in
    the registry and in the poll loop. *)
Record session := {
  sink_input : pa_sink_input;
  memblockq : pa_memblockq;
  first_packet : bool;
  ssrc : Z;                  (* uint32_t *)
  offset : Z;                (* uint32_t *)
  sdp_info : sdp.pa_sdp_info;
  rtp_context : rtp.pa_rtp_context;
  timestamp : Z;             (* pa_atomic_t, an int *)
  smoother : pa_smoother;
  intended_latency : Z;      (* pa_usec_t *)
  sink_latency : Z;          (* pa_usec_t *)
  last_rate_update : Z       (* pa_usec_t *)
}.

Definition set_sink_input (x : pa_sink_input) (s : session) : session :=
  {| sink_input := x; memblockq := memblockq s; first_packet := first_packet s;
     ssrc := ssrc s; offset := offset s; sdp_info := sdp_info s;
     rtp_context := rtp_context s; timestamp := timestamp s;
     smoother := smoother s; intended_latency := intended_latency s;
     sink_latency := sink_latency s; last_rate_update := last_rate_update s |}.

Definition set_memblockq (x : pa_memblockq) (s : session) : session :=
  {| sink_input := sink_input s; memblockq := x; first_packet := first_packet s;
     ssrc := ssrc s; offset := offset s; sdp_info := sdp_info s;
     rtp_context := rtp_context s; timestamp := timestamp s;
     smoother := smoother s; intended_latency := intended_latency s;
     sink_latency := sink_latency s; last_rate_update := last_rate_update s |}.

Definition set_first_packet (x : bool) (s : session) : session :=
  {| sink_input := sink_input s; memblockq := memblockq s; first_packet := x;
     ssrc := ssrc s; offset := offset s; sdp_info := sdp_info s;
     rtp_context := rtp_context s; timestamp := timestamp s;
     smoother := smoother s; intended_latency := intended_latency s;
     sink_latency := sink_latency s; last_rate_update := last_rate_update s |}.

Definition set_ssrc (x : Z) (s : session) : session :=
  {| sink_input := sink_input s; memblockq := memblockq s;
     first_packet := first_packet s; ssrc := x; offset := offset s;
     sdp_info := sdp_info s; rtp_context := rtp_context s;
     timestamp := timestamp s; smoother := smoother s;
     intended_latency := intended_latency s; sink_latency := sink_latency s;
     last_rate_update := last_rate_update s |}.

Definition set_offset (x : Z) (s : session) : session :=
  {| sink_input := sink_input s; memblockq := memblockq s;
     first_packet := first_packet s; ssrc := ssrc s; offset := x;
     sdp_info := sdp_info s; rtp_context := rtp_context s;
     timestamp := timestamp s; smoother := smoother s;
     intended_latency := intended_latency s; sink_latency := sink_latency s;
     last_rate_update := last_rate_update s |}.

Definition set_rtp_context (x : rtp.pa_rtp_context) (s : session) : session :=
  {| sink_input := sink_input s; memblockq := memblockq s;
     first_packet := first_packet s; ssrc := ssrc s; offset := offset s;
     sdp_info := sdp_info s; rtp_context := x; timestamp := timestamp s;
     smoother := smoother s; intended_latency := intended_latency s;
     sink_latency := sink_latency s; last_rate_update := last_rate_update s |}.

Definition set_timestamp (x : Z) (s : session) : session :=
  {| sink_input := sink_input s; memblockq := memblockq s;
     first_packet := first_packet s; ssrc := ssrc s; offset := offset s;
     sdp_info := sdp_info s; rtp_context := rtp_context s; timestamp := x;
     smoother := smoother s; intended_latency := intended_latency s;
     sink_latency := sink_latency s; last_rate_update := last_rate_update s |}.

Definition set_smoother (x : pa_smoother) (s : session) : session :=
  {| sink_input := sink_input s; memblockq := memblockq s;
     first_packet := first_packet s; ssrc := ssrc s; offset := offset s;
     sdp_info := sdp_info s; rtp_context := rtp_context s;
     timestamp := timestamp s; smoother := x;
     intended_latency := intended_latency s; sink_latency := sink_latency s;
     last_rate_update := last_rate_update s |}.

Definition set_last_rate_update (x : Z) (s : session) : session :=
  {| sink_input := sink_input s; memblockq := memblockq s;
     first_packet := first_packet s; ssrc := ssrc s; offset := offset s;
     sdp_info := sdp_info s; rtp_context := rtp_context s;
     timestamp := timestamp s; smoother := smoother s;
     intended_latency := intended_latency s; sink_latency := sink_latency s;
     last_rate_update := x |}.

(** [i->sample_spec.rate = r; pa_resampler_set_input_rate(resampler, r)]. *)
Definition set_input_rate (r : Z) (i : pa_sink_input) : pa_sink_input :=
  {| sample_spec := set_rate r (sample_spec i);
     thread_info_sample_spec := thread_info_sample_spec i;
     thread_info_resampler := r;
     thread_info_render_memblockq := thread_info_render_memblockq i;
     thread_info_underrun_for := thread_info_underrun_for i;
     sink := sink i |}.

(** What a callback does besides changing the state: log lines (level,
    format string, numeric arguments), requests to the sink input, and
    descriptors it closes. *)
Inductive level := pa_log | pa_log_warn | pa_log_info | pa_log_debug.

Inductive effect :=
| Log (lvl : level) (fmt : string) (args : list Z)
| RequestRewind
| Close (fd : Z).

(* ===================================================================== *)
(** ** The I/O-thread path: [rtpoll_work_cb] *)
(* ===================================================================== *)

Module RtpRecv.

(** [struct pollfd] of the session's rtpoll item, with the Linux values of
    the event bits. *)
Record pollfd := { pfd_fd : Z; events : Z; revents : Z }.

Definition POLLIN : Z := 0x001.
Definition POLLOUT : Z := 0x004.
Definition POLLERR : Z := 0x008.
Definition POLLHUP : Z := 0x010.
Definition POLLNVAL : Z := 0x020.

Definition set_revents (r : Z) (p : pollfd) : pollfd :=
  {| pfd_fd := pfd_fd p; events := events p; revents := r |}.

(** Modelled from the spec: what [pa_rtp_recv] ([rtp.c] is not among the
    sources) decodes, "{stream_id, timestamp (32-bit wrapping),
    payload_type, payload bytes} or failure". *)
Record packet := {
  pk_ssrc : Z;
  pk_timestamp : Z;
  pk_payload : Z;
  pk_sequence : Z;
  pk_data : list Byte.byte
}.

(** Modelled from the spec: a decoded packet leaves its header fields in
    the session's [rtp_context]. *)
Definition received (pk : packet) (c : rtp.pa_rtp_context) : rtp.pa_rtp_context :=
  {| rtp.fd := rtp.fd c;
     rtp.sequence := pk_sequence pk;
     rtp.timestamp := pk_timestamp pk;
     rtp.ssrc := pk_ssrc pk;
     rtp.payload := pk_payload pk;
     rtp.frame_size := rtp.frame_size c |}.

(** What the world hands to one run of the callback. *)
Record io_env := {
  env_recv : option packet;        (* pa_rtp_recv: a packet, or < 0 *)
  env_now : timeval;               (* pa_rtclock_get *)
  env_cookie : Z;                  (* core->cookie *)
  env_sink_latency : option Z      (* PA_SINK_MESSAGE_GET_LATENCY, or < 0 *)
}.

(** Return value, state after the call, and effects in order. *)
Record outcome := {
  ret : Z;
  pfd : pollfd;
  sess : session;
  trace : list effect
}.

(** Lines 217-230: bind the session to the first stream seen; [None] is
    the early [return 0] on a foreign stream. *)
Definition bind_stream (cookie : Z) (s : session) : option (session * list effect) :=
  if negb (first_packet s) then
    let s1 := set_first_packet true s in
    let s2 := set_ssrc (rtp.ssrc (rtp_context s1)) s1 in
    let s3 := set_offset (rtp.timestamp (rtp_context s2)) s2 in
    Some (s3, if ssrc s3 =? cookie
              then [Log pa_log_warn "Detected RTP packet loop!" []]
              else [])
  else if negb (ssrc s =? rtp.ssrc (rtp_context s)) then None
  else Some (s, []).

(** Lines 232-239: the two candidate deltas and the choice between them,
    all in [int64_t]. *)
Definition direct_difference (offset ts : Z) : Z :=
  sint64 (sint64 ts - sint64 offset).

Definition wraparound_difference (offset ts : Z) : Z :=
  sint64 (sint64 (sint64 0x100000000 - sint64 offset) + sint64 ts).

(** [k < 0 ? -k : k] *)
Definition int64_abs (k : Z) : Z := if k <? 0 then sint64 (- k) else k.

Definition timestamp_delta (offset ts : Z) : Z :=
  let k := direct_difference offset ts in
  let j := wraparound_difference offset ts in
  if int64_abs k <? int64_abs j then k else j.

(** Lines 288-291. *)
Definition rate_fix (latency intended : Z) : Z :=
  if latency <? intended then uint64 (intended - latency)
  else uint64 (latency - intended).

(** Line 294: the product and quotient are [pa_usec_t], the result is cut
    to [unsigned]. *)
Definition fix_samples_of (fix_ rate : Z) : Z :=
  uint32 (uint64 (fix_ * uint64 rate) / uint64 RATE_UPDATE_INTERVAL).

(** Rounding of a non-negative integer to the 53 significant bits of a
    [double]: to nearest, ties to even. *)
Definition round_to_double (n : Z) : Z :=
  let e := Z.log2 n - 52 in
  if e <=? 0 then n
  else
    let q := n / 2 ^ e in
    let r := n mod 2 ^ e in
    let up := (2 ^ (e - 1) <? r) || ((r =? 2 ^ (e - 1)) && Z.odd q) in
    (if up then q + 1 else q) * 2 ^ e.

(** Line 297: [fix_samples > rate*.20], a comparison of doubles.  The
    literal [.20] is the double [3602879701896397 * 2^-54]; the two
    unsigned operands convert exactly; the product is rounded.  Both sides
    are scaled by [2^54] here. *)
Definition fix_too_large (fix_samples rate : Z) : bool :=
  round_to_double (rate * 3602879701896397) <? fix_samples * 2 ^ 54.

(** Lines 241 and 247-250 as they act on the queue: seek by the delta in
    bytes, then push, or skip the payload's length when the push fails. *)
Definition jitter_write (bq : pa_memblockq) (expected ts frame_size : Z)
    (chunk : list Byte.byte) : pa_memblockq :=
  let q1 := pa_memblockq_seek bq
              (sint64 (timestamp_delta expected ts * sint64 frame_size)) in
  match pa_memblockq_push q1 chunk with
  | Some q => q
  | None => pa_memblockq_seek q1 (sint64 (Z.of_nat (length chunk)))
  end.

(** A packet of the session's stream and payload type that carries the
    timestamp [ts] and one sample frame. *)
Definition one_frame (s : session) (ts : Z) (pk : packet) : Prop :=
  pk_timestamp pk = ts /\ pk_ssrc pk = ssrc s /\
  pk_payload pk = sdp.payload (sdp_info s) /\
  Z.of_nat (length (pk_data pk)) = rtp.frame_size (rtp_context s).

(** Lines 199-205 let the callback through: poll reported input and no
    error. *)
Definition readable (p : pollfd) : Prop :=
  Z.land (revents p) (Z.lor POLLERR (Z.lor POLLNVAL (Z.lor POLLHUP POLLOUT))) = 0
  /\ Z.land (revents p) POLLIN <> 0.

Section IO.

(** Helpers of the core library that are not among the sources. *)
Variable pa_timeval_load : timeval -> Z.
Variable pa_bytes_to_usec : Z -> pa_sample_spec -> Z.
Variable pa_smoother_get : pa_smoother -> Z -> Z.
Variable pa_memblockq_is_readable : pa_memblockq -> bool.

(** Lines 241-259: seek by the delta, feed the smoother, push (or skip
    on overrun), set the next expected timestamp, stamp the session. *)
Definition enqueue (now : timeval) (chunk : list Byte.byte) (s : session)
  : session * list effect :=
  let c := rtp_context s in
  let delta := timestamp_delta (offset s) (rtp.timestamp c) in
  let q1 := pa_memblockq_seek (memblockq s)
              (sint64 (delta * sint64 (rtp.frame_size c))) in
  let sm := pa_smoother_put (smoother s) (pa_timeval_load now)
              (pa_bytes_to_usec (uint64 (pa_memblockq_get_write_index q1))
                 (sample_spec (sink_input s))) in
  let chunk_length := Z.of_nat (length chunk) in
  let '(q2, l) :=
    match pa_memblockq_push q1 chunk with
    | Some q => (q, [])
    | None => (pa_memblockq_seek q1 (sint64 chunk_length),
               [Log pa_log_warn "Queue overrun" []])
    end in
  let next := uint32 (rtp.timestamp c
                      + uint32 (chunk_length / rtp.frame_size c)) in
  (set_timestamp (sint32 (tv_sec now))
     (set_offset next (set_memblockq q2 (set_smoother sm s))), l).

(** Lines 267-283: the buffered latency as the controller measures it. *)
Definition measured_latency (now : timeval) (sink_reply : option Z) (s : session) : Z :=
  let i := sink_input s in
  let wi := uint64 (pa_smoother_get (smoother s) (pa_timeval_load now)) in
  let ri := uint64 (pa_bytes_to_usec
                      (uint64 (pa_memblockq_get_read_index (memblockq s)))
                      (sample_spec i)) in
  let sink_delay := match sink_reply with Some d => uint64 d | None => 0 end in
  let render_delay := uint64 (pa_bytes_to_usec (thread_info_render_memblockq i)
                                (sink_sample_spec (sink i))) in
  let ri := if uint64 (render_delay + sink_delay) <? ri
            then uint64 (ri - uint64 (render_delay + sink_delay))
            else 0 in
  if wi <? ri then 0 else uint64 (wi - ri).

(** Line 294 on the session's data. *)
Definition fix_samples (now : timeval) (sink_reply : option Z) (s : session) : Z :=
  fix_samples_of
    (rate_fix (measured_latency now sink_reply s) (intended_latency s))
    (rate (thread_info_sample_spec (sink_input s))).

(** Lines 261-311, the body of the [if]. *)
Definition update_rate (now : timeval) (sink_reply : option Z) (s : session)
  : session * list effect :=
  let i := sink_input s in
  let latency := measured_latency now sink_reply s in
  let fs := fix_samples now sink_reply s in
  let l1 := if fix_too_large fs (rate (sample_spec i))
            then [Log pa_log_debug
                    "Hmmm, rate fix is too large (%lu Hz), not applying." [fs]]
            else [] in
  let r := if latency <? intended_latency s
           then uint32 (rate (sample_spec i) - fs)
           else uint32 (rate (sample_spec i) + fs) in
  (set_last_rate_update (pa_timeval_load now)
     (set_sink_input (set_input_rate r i) s),
   [Log pa_log "Updating sample rate" [];
    Log pa_log_debug "Write index deviates by %0.2f ms, expected %0.2f ms"
      [latency; intended_latency s]]
   ++ l1
   ++ [Log pa_log_debug "Updated sampling rate to %lu Hz." [r]]).

Definition rate_update_due (now : timeval) (s : session) : bool :=
  uint64 (last_rate_update s + RATE_UPDATE_INTERVAL) <? uint64 (pa_timeval_load now).

(** Lines 313-317. *)
Definition end_of_underrun (s : session) : list effect :=
  if pa_memblockq_is_readable (memblockq s)
     && (0 <? thread_info_underrun_for (sink_input s))
  then [Log pa_log_debug "Requesting rewind due to end of underrun" [];
        RequestRewind]
  else [].

Definition rtpoll_work_cb (e : io_env) (p : pollfd) (s : session) : outcome :=
  if negb (Z.land (revents p)
             (Z.lor POLLERR (Z.lor POLLNVAL (Z.lor POLLHUP POLLOUT))) =? 0)
  then {| ret := -1; pfd := p; sess := s;
          trace := [Log pa_log "poll() signalled bad revents." []] |}
  else if Z.land (revents p) POLLIN =? 0
  then {| ret := 0; pfd := p; sess := s; trace := [] |}
  else
    let p := set_revents 0 p in
    match env_recv e with
    | None => {| ret := 0; pfd := p; sess := s; trace := [] |}
    | Some pk =>
      let s := set_rtp_context (received pk (rtp_context s)) s in
      if negb (sdp.payload (sdp_info s) =? rtp.payload (rtp_context s))
      then {| ret := 0; pfd := p; sess := s; trace := [] |}
      else
        match bind_stream (env_cookie e) s with
        | None => {| ret := 0; pfd := p; sess := s; trace := [] |}
        | Some (s, l1) =>
          let '(s, l2) := enqueue (env_now e) (pk_data pk) s in
          let '(s, l3) :=
            if rate_update_due (env_now e) s
            then update_rate (env_now e) (env_sink_latency e) s
            else (s, []) in
          {| ret := 1; pfd := p; sess := s;
             trace := l1 ++ l2 ++ l3 ++ end_of_underrun s |}
        end
    end.

(** The session after a packet that passed the payload and stream checks:
    lines 232-311 as a whole. *)
Definition ingested (e : io_env) (pk : packet) (s1 : session) : session :=
  let s2 := fst (enqueue (env_now e) (pk_data pk) s1) in
  if rate_update_due (env_now e) s2
  then fst (update_rate (env_now e) (env_sink_latency e) s2)
  else s2.

(** The poll loop reports [POLLIN] and runs the callback. *)
Definition deliver (e : io_env) (ps : pollfd * session) : pollfd * session :=
  let o := rtpoll_work_cb e (set_revents POLLIN (fst ps)) (snd ps) in
  (pfd o, sess o).

End IO.

End RtpRecv.

(* ===================================================================== *)
(** ** The main-thread path: the session registry *)
(* ===================================================================== *)

Module Registry.

(** Addresses of [struct session] records. *)
Definition ptr := nat.

(** [struct userdata] with the memory its pointers lead to: [sessions] is
    the intrusive list (head first), [by_origin] the hashmap from origin to
    session, [heap] the live session records by address, and
    [check_death_event] the time the sweep timer is armed for. *)
Record userdata := {
  sink_name : option string;
  sessions : list ptr;
  by_origin : gmap string ptr;
  n_sessions : Z;                  (* int *)
  check_death_event : timeval;
  heap : gmap ptr session
}.

Definition set_check_death_event (tv : timeval) (u : userdata) : userdata :=
  {| sink_name := sink_name u; sessions := sessions u;
     by_origin := by_origin u; n_sessions := n_sessions u;
     check_death_event := tv; heap := heap u |}.

Definition set_heap (h : gmap ptr session) (u : userdata) : userdata :=
  {| sink_name := sink_name u; sessions := sessions u;
     by_origin := by_origin u; n_sessions := n_sessions u;
     check_death_event := check_death_event u; heap := h |}.

(** [PA_LLIST_REMOVE]: unlink the node. *)
Fixpoint llist_remove (a : ptr) (l : list ptr) : list ptr :=
  match l with
  | [] => []
  | b :: rest => if decide (a = b) then rest else b :: llist_remove a rest
  end.

(** Modelled from the spec: [pa_hashmap_put] ([pulsecore/hashmap.c] is not
    among the sources); the mapping holds "at most one Session per
    origin", an entry that exists stays. *)
Definition pa_hashmap_put (h : gmap string ptr) (k : string) (v : ptr)
  : gmap string ptr :=
  match h !! k with
  | Some _ => h
  | None => <[k := v]> h
  end.

(** Results of the system calls [mcast_socket] makes. *)
Record sys_env := {
  sys_socket : Z;
  sys_reuseaddr : Z;
  sys_join : Z;
  sys_bind : Z
}.

(** Lines 353-400. *)
Definition mcast_socket (e : sys_env) : Z * list effect :=
  if sys_socket e <? 0 then
    (-1, [Log pa_log "Failed to create socket: %s" []])
  else if sys_reuseaddr e <? 0 then
    (-1, [Log pa_log "SO_REUSEADDR failed: %s" []; Close (sys_socket e)])
  else if sys_join e <? 0 then
    (-1, [Log pa_log_info "Joining mcast group failed: %s" []; Close (sys_socket e)])
  else if sys_bind e <? 0 then
    (-1, [Log pa_log "bind() failed: %s" []; Close (sys_socket e)])
  else (sys_socket e, []).

(** What the world hands to one run of [session_new]. *)
Record new_env := {
  ne_sink : option pa_sink;               (* pa_namereg_get *)
  ne_now : timeval;                       (* pa_rtclock_get *)
  ne_sys : sys_env;
  ne_sink_input : option pa_sink_input;   (* pa_sink_input_new *)
  ne_sink_latency : Z                     (* pa_sink_input_set_requested_latency *)
}.

(** What [pa_sap_recv] and [pa_sdp_parse] make of one datagram. *)
Inductive sap_input :=
| SapRecvFailed
| SdpParseFailed
| Announcement (goodbye : bool) (info : sdp.pa_sdp_info).

Section Main.

(** Helpers of the core library that are not among the sources. *)
Variable pa_timeval_load : timeval -> Z.
Variable pa_timeval_add : timeval -> Z -> timeval.
Variable pa_frame_size : pa_sample_spec -> Z.
Variable pa_usec_to_bytes : Z -> pa_sample_spec -> Z.

(** Lines 402-512.  The result is the new session's address, or [None] for
    the [NULL] of the failure path. *)
Definition session_new (e : new_env) (info : sdp.pa_sdp_info) (u : userdata)
  : option ptr * userdata * list effect :=
  if MAX_SESSIONS <=? n_sessions u then
    (None, u, [Log pa_log "Session limit reached." []])
  else
    match ne_sink e with
    | None => (None, u, [Log pa_log "Sink does not exist." []])
    | Some _ =>
      let now := ne_now e in
      let '(fd, l) := mcast_socket (ne_sys e) in
      if fd <? 0 then (None, u, l)
      else
        match ne_sink_input e with
        | None =>
          (None, u, l ++ [Log pa_log "Failed to create sink input." []; Close fd])
        | Some i =>
          let sink_latency := uint64 (ne_sink_latency e) in
          let intended_latency :=
            if LATENCY_USEC <? uint64 (sink_latency * 2)
            then uint64 (sink_latency * 2) else LATENCY_USEC in
          let s :=
            {| sink_input := i;
               memblockq :=
                 pa_memblockq_new 0 MEMBLOCKQ_MAXLENGTH
                   (pa_usec_to_bytes (uint64 (intended_latency - sink_latency))
                      (sample_spec i));
               first_packet := false;
               ssrc := 0;
               offset := 0;
               sdp_info := info;
               rtp_context :=
                 {| rtp.fd := fd; rtp.sequence := 0; rtp.timestamp := 0;
                    rtp.ssrc := 0; rtp.payload := 0;
                    rtp.frame_size := pa_frame_size (sdp.sample_spec info) |};
               timestamp := sint32 (tv_sec now);
               smoother := {| time_offset := pa_timeval_load now; samples := [] |};
               intended_latency := intended_latency;
               sink_latency := sink_latency;
               last_rate_update := pa_timeval_load now |} in
          let a := fresh (dom (heap u)) in
          (Some a,
           {| sink_name := sink_name u;
              sessions := a :: sessions u;
              by_origin := pa_hashmap_put (by_origin u) (sdp.origin info) a;
              n_sessions := sint32 (n_sessions u + 1);
              check_death_event := check_death_event u;
              heap := <[a := s]> (heap u) |},
           l ++ [Log pa_log_info "New session '%s'" []])
        end
    end.

(** Lines 514-534.  [None] stands for a run that does not return: the
    assertion on [n_sessions] fails, or [s] is not a live session. *)
Definition session_free (a : ptr) (u : userdata) : option (userdata * list effect) :=
  match heap u !! a with
  | None => None
  | Some s =>
    if n_sessions u <? 1 then None
    else
      Some ({| sink_name := sink_name u;
               sessions := llist_remove a (sessions u);
               by_origin := delete (sdp.origin (sdp_info s)) (by_origin u);
               n_sessions := sint32 (n_sessions u - 1);
               check_death_event := check_death_event u;
               heap := delete a (heap u) |},
            [Log pa_log_info "Freeing session '%s'" [];
             Close (rtp.fd (rtp_context s))])
  end.

(** Lines 536-574. *)
Definition sap_event_cb (i : sap_input) (e : new_env) (u : userdata)
  : option (userdata * list effect) :=
  match i with
  | SapRecvFailed => Some (u, [])
  | SdpParseFailed => Some (u, [])
  | Announcement goodbye info =>
    if goodbye then
      match by_origin u !! sdp.origin info with
      | Some a => session_free a u
      | None => Some (u, [])
      end
    else
      match by_origin u !! sdp.origin info with
      | None => let '(_, u', l) := session_new e info u in Some (u', l)
      | Some a =>
        match heap u !! a with
        | None => None
        | Some s =>
          Some (set_heap (<[a := set_timestamp (sint32 (tv_sec (ne_now e))) s]> (heap u)) u,
                [])
        end
      end
  end.

(** Line 597, [k + DEATH_TIMEOUT < now.tv_sec]: the sum is an [int], the
    comparison is made in [time_t]. *)
Definition expired (now : timeval) (s : session) : bool :=
  sint32 (timestamp s + DEATH_TIMEOUT) <? tv_sec now.

(** Lines 591-599.  The loop reads [s->next] before it frees [s], and
    freeing [s] unlinks [s] alone, so it visits the sessions that were in the
    list when it started, in order. *)
Fixpoint sweep (now : timeval) (l : list ptr) (u : userdata)
  : option (userdata * list effect) :=
  match l with
  | [] => Some (u, [])
  | a :: n =>
    match heap u !! a with
    | None => None
    | Some s =>
      let k := timestamp s in
      if sint32 (k + DEATH_TIMEOUT) <? tv_sec now then
        match session_free a u with
        | None => None
        | Some (u1, l1) =>
          match sweep now n u1 with
          | None => None
          | Some (u2, l2) => Some (u2, l1 ++ l2)
          end
        end
      else sweep now n u
    end
  end.

(** Lines 576-605: [now] is the [pa_rtclock_get] reading, [tv] the
    [pa_gettimeofday] one. *)
Definition check_death_event_cb (now tv : timeval) (u : userdata)
  : option (userdata * list effect) :=
  match sweep now (sessions u) u with
  | None => None
  | Some (u', l) =>
    Some (set_check_death_event
            (pa_timeval_add tv (DEATH_TIMEOUT * PA_USEC_PER_SEC)) u',
          Log pa_log_debug "Checking for dead streams ..." [] :: l)
  end.

(** Lines 179-185: the engine kills the sink input of a live session. *)
Definition sink_input_kill (a : ptr) (u : userdata) : option (userdata * list effect) :=
  session_free a u.

(** Lines 645-659 of [pa__init]: the registry a loaded module starts with. *)
Definition pa__init (sink : option string) (tv : timeval) : userdata :=
  {| sink_name := sink;
     sessions := [];
     by_origin := ∅;
     n_sessions := 0;
     check_death_event := pa_timeval_add tv (DEATH_TIMEOUT * PA_USEC_PER_SEC);
     heap := ∅ |}.

(** The events of the main loop that reach the registry. *)
Inductive event :=
| SapEvent (i : sap_input) (e : new_env)
| DeathTimer (now tv : timeval)
| SinkInputKill (a : ptr).

Definition handle (ev : event) (u : userdata) : option (userdata * list effect) :=
  match ev with
  | SapEvent i e => sap_event_cb i e u
  | DeathTimer now tv => check_death_event_cb now tv u
  | SinkInputKill a =>
    match heap u !! a with
    | Some _ => sink_input_kill a u
    | None => Some (u, [])
    end
  end.

Fixpoint run (evs : list event) (u : userdata) : option (userdata * list effect) :=
  match evs with
  | [] => Some (u, [])
  | ev :: rest =>
    match handle ev u with
    | None => None
    | Some (u1, l1) =>
      match run rest u1 with
      | None => None
      | Some (u2, l2) => Some (u2, l1 ++ l2)
      end
    end
  end.

(** The registry invariant: list, hashmap, counter and heap describe the
    same set of sessions, one per origin, at most [MAX_SESSIONS] of them. *)
Record registry_ok (u : userdata) : Prop := {
  ok_nodup : NoDup (sessions u);
  ok_heap : forall a, a ∈ sessions u <-> is_Some (heap u !! a);
  ok_origin : forall o a,
      by_origin u !! o = Some a <->
      exists s, heap u !! a = Some s /\ sdp.origin (sdp_info s) = o;
  ok_size : size (by_origin u) = length (sessions u);
  ok_count : n_sessions u = Z.of_nat (length (sessions u));
  ok_max : n_sessions u <= MAX_SESSIONS
}.

End Main.

End Registry.

Import RtpRecv Registry.

(* ===================================================================== *)
(** ** Concrete data to run the model on *)
(* ===================================================================== *)

Module Scenario.

(** Stand-ins for the helpers of the core library: 16-bit samples, and a
    smoother that answers with the newest sample it was fed. *)
Definition timeval_load (tv : timeval) : Z :=
  uint64 (tv_sec tv * PA_USEC_PER_SEC + tv_usec tv).

Definition timeval_add (tv : timeval) (v : Z) : timeval :=
  {| tv_sec := tv_sec tv + (tv_usec tv + v) / PA_USEC_PER_SEC;
     tv_usec := (tv_usec tv + v) mod PA_USEC_PER_SEC |}.

Definition s16_frame_size (ss : pa_sample_spec) : Z := 2 * channels ss.

Definition bytes_to_usec (n : Z) (ss : pa_sample_spec) : Z :=
  n / s16_frame_size ss * PA_USEC_PER_SEC / rate ss.

Definition usec_to_bytes (t : Z) (ss : pa_sample_spec) : Z :=
  t * rate ss / PA_USEC_PER_SEC * s16_frame_size ss.

Definition newest_sample (sm : pa_smoother) (t : Z) : Z :=
  match samples sm with
  | (_, y) :: _ => y
  | [] => 0
  end.

Definition holds_data (bq : pa_memblockq) : bool := 0 <? occupancy bq.

Definition stereo : pa_sample_spec :=
  {| format := 3; rate := 44100; channels := 2 |}.

Definition announced (who : string) : sdp.pa_sdp_info :=
  {| sdp.origin := who; sdp.session_name := Some "radio"%string;
     sdp.sa_family := 2; sdp.sample_spec := stereo; sdp.payload := 10 |}.

Definition input : pa_sink_input :=
  {| sample_spec := stereo; thread_info_sample_spec := stereo;
     thread_info_resampler := 44100; thread_info_render_memblockq := 0;
     thread_info_underrun_for := 0;
     sink := {| sink_sample_spec := stereo |} |}.

Definition at_second (t : Z) : timeval := {| tv_sec := t; tv_usec := 0 |}.

(** A session as [session_new] leaves it, at second 100, with a queue of
    [maxlength] bytes before any packet arrived. *)
Definition unbound (maxlength : Z) : session :=
  {| sink_input := input;
     memblockq := pa_memblockq_new 0 maxlength 70560;
     first_packet := false;
     ssrc := 0;
     offset := 0;
     sdp_info := announced "alice";
     rtp_context :=
       {| rtp.fd := 7; rtp.sequence := 0; rtp.timestamp := 0; rtp.ssrc := 0;
          rtp.payload := 0; rtp.frame_size := 4 |};
     timestamp := 100;
     smoother := {| time_offset := 100000000; samples := [] |};
     intended_latency := LATENCY_USEC;
     sink_latency := 100000;
     last_rate_update := 100000000 |}.

(** The same session once it follows stream [0xCAFE] and expects
    timestamp [expected]. *)
Definition bound (maxlength expected : Z) : session :=
  set_offset expected (set_ssrc 0xCAFE (set_first_packet true (unbound maxlength))).

(** The smoother reports the write position [wi] (in microseconds). *)
Definition writing_at (wi : Z) (s : session) : session :=
  set_smoother (pa_smoother_put (smoother s) 100000000 wi) s.

Definition frame (a b c d : Byte.byte) : list Byte.byte := [a; b; c; d].

Definition pkt (ts : Z) (data : list Byte.byte) : packet :=
  {| pk_ssrc := 0xCAFE; pk_timestamp := ts; pk_payload := 10;
     pk_sequence := 0; pk_data := data |}.

Definition arrival (sec : Z) (pk : packet) : io_env :=
  {| env_recv := Some pk; env_now := at_second sec; env_cookie := 1;
     env_sink_latency := Some 0 |}.

Definition pollin : pollfd := {| pfd_fd := 7; events := POLLIN; revents := POLLIN |}.

Definition p1000 : packet := pkt 1000 (frame Byte.x10 Byte.x11 Byte.x12 Byte.x13).
Definition p1001 : packet := pkt 1001 (frame Byte.x20 Byte.x21 Byte.x22 Byte.x23).
Definition p1002 : packet := pkt 1002 (frame Byte.x30 Byte.x31 Byte.x32 Byte.x33).

(** A packet of another payload type, one of another stream. *)
Definition wrong_type : packet :=
  {| pk_ssrc := 0xCAFE; pk_timestamp := 1000; pk_payload := 11;
     pk_sequence := 0; pk_data := frame Byte.x40 Byte.x41 Byte.x42 Byte.x43 |}.

Definition foreign : packet :=
  {| pk_ssrc := 0xBEEF; pk_timestamp := 1000; pk_payload := 10;
     pk_sequence := 0; pk_data := frame Byte.x50 Byte.x51 Byte.x52 Byte.x53 |}.

(** A packet two seconds (88200 frames) ahead of timestamp 1000. *)
Definition jump : packet := pkt 89200 (frame Byte.x60 Byte.x61 Byte.x62 Byte.x63).

Definition rtpoll_work_cb :=
  RtpRecv.rtpoll_work_cb timeval_load bytes_to_usec newest_sample holds_data.

Definition update_rate :=
  RtpRecv.update_rate timeval_load bytes_to_usec newest_sample.

Definition feed (pks : list packet) (s : session) : session :=
  snd (foldl (fun ps pk =>
                deliver timeval_load bytes_to_usec newest_sample holds_data
                  (arrival 101 pk) ps)
         (pollin, s) pks).

(** A queue of six bytes that holds the frame of packet 1000, with the
    header of packet 1001 decoded into the context. *)
Definition nearly_full : session :=
  let s := feed [p1000] (unbound 6) in
  set_rtp_context (received p1001 (rtp_context s)) s.

Definition world_at (sec : Z) : new_env :=
  {| ne_sink := Some {| sink_sample_spec := stereo |};
     ne_now := at_second sec;
     ne_sys := {| sys_socket := 7; sys_reuseaddr := 0; sys_join := 0; sys_bind := 0 |};
     ne_sink_input := Some input;
     ne_sink_latency := 100000 |}.

Definition run :=
  Registry.run timeval_load timeval_add s16_frame_size usec_to_bytes.

Definition loaded : userdata :=
  pa__init timeval_add (Some "output"%string) (at_second 90).

Definition announce (sec : Z) (who : string) : event :=
  SapEvent (Announcement false (announced who)) (world_at sec).

Definition after (evs : list event) : userdata :=
  match run evs loaded with
  | Some (u, _) => u
  | None => loaded
  end.

(** Seventeen senders announce themselves at second 100. *)
Definition crowd : list event :=
  map (announce 100)
    ["s01"; "s02"; "s03"; "s04"; "s05"; "s06"; "s07"; "s08"; "s09"; "s10";
     "s11"; "s12"; "s13"; "s14"; "s15"; "s16"; "s17"]%string.

(** Alice announces herself at second 100, Bob at second 115. *)
Definition duo : list event := [announce 100 "alice"; announce 115 "bob"]%string.

End Scenario.

(* ===================================================================== *)
(** ** Attaching to the poll loop, loading and unloading the module *)
(* ===================================================================== *)

Module Lifecycle.

(** Lines 323-340.  [item] is [s->rtpoll_item]; the result is the item
    after the call, [None] at the top stands for the failed assertion. *)
Definition sink_input_attach (item : option pollfd) (s : session)
  : option (option pollfd) :=
  match item with
  | Some _ => None
  | None =>
    Some (Some {| pfd_fd := rtp.fd (rtp_context s); events := POLLIN;
                  revents := 0 |})
  end.

(** Lines 343-351. *)
Definition sink_input_detach (item : option pollfd) : option (option pollfd) :=
  match item with
  | Some _ => Some None
  | None => None
  end.

Definition DEFAULT_SAP_ADDRESS : string := "224.0.0.56".

(** What the world hands to [pa__init]: the parsed module arguments
    ([sink], [sap_address]; [None] when [pa_modargs_new] fails), the results
    of the two [inet_pton] calls for an address, the system calls of
    [mcast_socket] and the [pa_gettimeofday] reading. *)
Record init_env := {
  ie_modargs : option (option string * option string);
  ie_inet_pton6 : string -> Z;
  ie_inet_pton4 : string -> Z;
  ie_sys : sys_env;
  ie_tv : timeval
}.

Section Entry.

Variable pa_timeval_add : timeval -> Z -> timeval.

(** Lines 642-663: the socket is opened and the registry set up. *)
Definition load (e : init_env) (sink : option string)
  : Z * option userdata * list effect :=
  let '(fd, l) := mcast_socket (ie_sys e) in
  if fd <? 0 then (-1, None, l)
  else (0, Some (Registry.pa__init pa_timeval_add sink (ie_tv e)), l).

(** Lines 607-673.  The result is the return value, [m->userdata] and the
    effects. *)
Definition pa__init (e : init_env) : Z * option userdata * list effect :=
  match ie_modargs e with
  | None => (-1, None, [Log pa_log "failed to parse module arguments" []])
  | Some (sink, sap) =>
    let sap_address :=
      match sap with Some a => a | None => DEFAULT_SAP_ADDRESS end in
    if 0 <? ie_inet_pton6 e sap_address then load e sink
    else if 0 <? ie_inet_pton4 e sap_address then load e sink
    else (-1, None, [Log pa_log "Invalid SAP address '%s'" []])
  end.

(** [pa_hashmap_first] is not among the sources: some session of the map,
    or [NULL] when the map is empty. *)
Variable pa_hashmap_first : gmap string ptr -> option ptr.

(** Lines 692-695, [while ((s = pa_hashmap_first(u->by_origin)))
    session_free(s);].  [fuel] bounds the number of rounds; [None] is a run
    that does not end within it, or one that [session_free] aborts. *)
Fixpoint free_sessions (fuel : nat) (u : userdata)
  : option (userdata * list effect) :=
  match pa_hashmap_first (by_origin u) with
  | None => Some (u, [])
  | Some a =>
    match fuel with
    | O => None
    | S fuel' =>
      match session_free a u with
      | None => None
      | Some (u1, l1) =>
        match free_sessions fuel' u1 with
        | None => None
        | Some (u2, l2) => Some (u2, l1 ++ l2)
        end
      end
    end
  end.

(** Lines 675-701.  [m] is [m->userdata]; the registry in the result is the
    one [pa_xfree(u)] releases.  The event sources and the SAP context of
    lines 684-690 are not part of the registry. *)
Definition pa__done (fuel : nat) (m : option userdata)
  : option (option userdata * list effect) :=
  match m with
  | None => Some (None, [])
  | Some u =>
    match free_sessions fuel u with
    | None => None
    | Some (u', l) => Some (Some u', l)
    end
  end.

End Entry.

(** The descriptors a run closes, in order. *)
Definition closed (l : list effect) : list Z :=
  omap (fun x => match x with Close fd => Some fd | _ => None end) l.

(** The text of the log lines of a run, in order. *)
Definition logged (l : list effect) : list string :=
  omap (fun x => match x with Log _ fmt _ => Some fmt | _ => None end) l.

End Lifecycle.

(* ===================================================================== *)
(** ** More concrete data *)
(* ===================================================================== *)

Module Cases.

(** A [pa_hashmap_first]: the first entry of the map's listing. *)
Definition first_entry (h : gmap string ptr) : option ptr :=
  match map_to_list h with
  | [] => None
  | (_, a) :: _ => Some a
  end.

(** System calls of which [bind] fails. *)
Definition bind_fails : sys_env :=
  {| sys_socket := 9; sys_reuseaddr := 0; sys_join := 0; sys_bind := -1 |}.

Definition all_fine : sys_env :=
  {| sys_socket := 9; sys_reuseaddr := 0; sys_join := 0; sys_bind := 0 |}.

(** [inet_pton] of a resolver that knows dotted quads only. *)
Definition quad_only : Lifecycle.init_env :=
  {| Lifecycle.ie_modargs := Some (Some "output"%string, None);
     Lifecycle.ie_inet_pton6 := fun _ => 0;
     Lifecycle.ie_inet_pton4 :=
       fun a => if String.eqb a "224.0.0.56" then 1 else 0;
     Lifecycle.ie_sys := all_fine;
     Lifecycle.ie_tv := Scenario.at_second 90 |}.

(** The engine refuses the sink input. *)
Definition no_input : new_env :=
  {| ne_sink := Some {| sink_sample_spec := Scenario.stereo |};
     ne_now := Scenario.at_second 100;
     ne_sys := all_fine;
     ne_sink_input := None;
     ne_sink_latency := 100000 |}.

(** The engine grants a latency of 400 ms. *)
Definition slow_sink : new_env :=
  {| ne_sink := Some {| sink_sample_spec := Scenario.stereo |};
     ne_now := Scenario.at_second 100;
     ne_sys := all_fine;
     ne_sink_input := Some Scenario.input;
     ne_sink_latency := 400000 |}.

(** A packet whose stream identifier is the local cookie. *)
Definition echo : packet :=
  {| pk_ssrc := 1; pk_timestamp := 1000; pk_payload := 10; pk_sequence := 0;
     pk_data := Scenario.frame Byte.x70 Byte.x71 Byte.x72 Byte.x73 |}.

End Cases.

(* ===================================================================== *)
(** * Properties *)
(* ===================================================================== *)


(** ** Fixed-width integers *)

Lemma uint32_range z : 0 <= uint32 z < 2 ^ 32.
Proof. unfold uint32. apply Z.mod_pos_bound. lia. Qed.

Lemma uint64_range z : 0 <= uint64 z < 2 ^ 64.
Proof. unfold uint64. apply Z.mod_pos_bound. lia. Qed.

Lemma uint32_small z : 0 <= z < 2 ^ 32 -> uint32 z = z.
Proof. intros H. unfold uint32. apply Z.mod_small. lia. Qed.

Lemma uint64_small z : 0 <= z < 2 ^ 64 -> uint64 z = z.
Proof. intros H. unfold uint64. apply Z.mod_small. lia. Qed.

Lemma sint32_small z : - 2 ^ 31 <= z < 2 ^ 31 -> sint32 z = z.
Proof. intros H. unfold sint32. rewrite Z.mod_small; lia. Qed.

Lemma sint64_small z : - 2 ^ 63 <= z < 2 ^ 63 -> sint64 z = z.
Proof. intros H. unfold sint64. rewrite Z.mod_small; lia. Qed.

Lemma sint64_range z : - 2 ^ 63 <= sint64 z < 2 ^ 63.
Proof.
unfold sint64.
pose proof (Z.mod_pos_bound (z + 2 ^ 63) (2 ^ 64) ltac:(lia)). lia.
Qed.

Lemma uint32_add_idemp_r a b : uint32 (a + uint32 b) = uint32 (a + b).
Proof. unfold uint32. apply Zplus_mod_idemp_r. Qed.

Lemma sint64_add_idemp_r a b : sint64 (a + sint64 b) = sint64 (a + b).
Proof.
  unfold sint64. f_equal.
  replace (a + ((b + 2 ^ 63) mod 2 ^ 64 - 2 ^ 63) + 2 ^ 63)
    with (a + (b + 2 ^ 63) mod 2 ^ 64) by lia.
  rewrite Zplus_mod_idemp_r. f_equal. lia.
Qed.

(** ** Timestamp reconciliation *)

Lemma direct_difference_exact expected received :
  0 <= expected < 2 ^ 32 -> 0 <= received < 2 ^ 32 ->
  direct_difference expected received = received - expected.
Proof.
  intros He Hr. unfold direct_difference.
  rewrite (sint64_small expected) by lia.
  rewrite (sint64_small received) by lia.
  apply sint64_small; lia.
Qed.

Lemma wraparound_difference_exact expected received :
  0 <= expected < 2 ^ 32 -> 0 <= received < 2 ^ 32 ->
  wraparound_difference expected received = 2 ^ 32 - expected + received.
Proof.
  intros He Hr. unfold wraparound_difference.
  rewrite (sint64_small expected) by lia.
  rewrite (sint64_small received) by lia.
  rewrite (sint64_small 0x100000000) by lia.
  rewrite (sint64_small (0x100000000 - expected)) by lia.
  apply sint64_small; lia.
Qed.

Lemma int64_abs_exact k : - 2 ^ 63 < k < 2 ^ 63 -> int64_abs k = Z.abs k.
Proof.
  intros Hk. unfold int64_abs.
  destruct (Z.ltb_spec k 0); [rewrite sint64_small|]; lia.
Qed.

(** C3: for 32-bit [expected_timestamp] and packet timestamp, the
    reconciliation computes the direct signed difference and the difference
    across one 32-bit wraparound, and takes the one of smaller absolute
    magnitude; for [0xFFFFFFF0] and [0x00000010] the delta is [+32]. *)
Theorem timestamp_delta_smaller_magnitude (expected received : Z) :
  0 <= expected < 2 ^ 32 -> 0 <= received < 2 ^ 32 ->
  let k := direct_difference expected received in
  let j := wraparound_difference expected received in
  let delta := timestamp_delta expected received in
  k = received - expected /\
  j = received - expected + 2 ^ 32 /\
  (delta = k \/ delta = j) /\
  Z.abs delta = Z.min (Z.abs k) (Z.abs j) /\
  timestamp_delta 0xFFFFFFF0 0x00000010 = 32.
Proof.
  intros He Hr k j delta. subst k j delta. unfold timestamp_delta.
  rewrite (direct_difference_exact expected received He Hr).
  rewrite (wraparound_difference_exact expected received He Hr).
  rewrite !int64_abs_exact by lia.
  split; [reflexivity|]. split; [lia|].
  destruct (Z.ltb_spec (Z.abs (received - expected))
              (Z.abs (2 ^ 32 - expected + received))).
  - split; [now left|]. split; [lia|reflexivity].
  - split; [now right|]. split; [lia|reflexivity].
Qed.

Lemma timestamp_delta_smaller_magnitude_witness :
  timestamp_delta 0xFFFFFFF0 0x00000010 = 32.
Proof.
  apply (timestamp_delta_smaller_magnitude 0xFFFFFFF0 0x00000010); lia.
Defined.

(** ** The sanity bound of the rate controller *)

(** On 32-bit rates the double comparison decides exactly whether the
    correction exceeds a fifth of the rate. *)
Lemma fix_too_large_fifth (fix_samples rate : Z) :
  0 <= rate < 2 ^ 32 -> 0 <= fix_samples ->
  fix_too_large fix_samples rate = (rate <? 5 * fix_samples).
Proof.
  intros Hr Hf. unfold fix_too_large, round_to_double.
  set (P := rate * 3602879701896397).
  assert (HP : 0 <= P < 2 ^ 84) by (subst P; lia).
  assert (H5 : 5 * P = rate * 2 ^ 54 + rate) by (subst P; lia).
  destruct (Z.leb_spec (Z.log2 P - 52) 0) as [He|He].
  - destruct (Z.ltb_spec P (fix_samples * 2 ^ 54));
      destruct (Z.ltb_spec rate (5 * fix_samples)); try reflexivity; lia.
  - set (e := Z.log2 P - 52) in *.
    assert (Hpos : 0 < P).
    { destruct (Z.eq_dec P 0) as [E0|]; [|lia].
      subst e. rewrite E0 in He. cbn in He. lia. }
    assert (He' : e <= 31).
    { assert (Z.log2 P < 84) by (apply Z.log2_lt_pow2; lia). lia. }
    set (E := 2 ^ e).
    set (half := 2 ^ (e - 1)).
    assert (HE : E = 2 * half).
    { subst E half. replace e with (1 + (e - 1)) at 1 by lia.
      rewrite Z.pow_add_r by lia. reflexivity. }
    assert (Hhalf : 1 <= half <= 2 ^ 30).
    { subst half. split.
      - pose proof (Z.pow_pos_nonneg 2 (e - 1) ltac:(lia) ltac:(lia)). lia.
      - apply Z.pow_le_mono_r; lia. }
    set (K := 2 ^ (54 - e)).
    assert (HK : 2 ^ 54 = K * E).
    { subst K E. rewrite <- Z.pow_add_r by lia. f_equal. lia. }
    assert (HKpos : 0 < K).
    { subst K. apply Z.pow_pos_nonneg; lia. }
    pose proof (Z.div_mod P E ltac:(lia)) as Hdm.
    pose proof (Z.mod_pos_bound P E ltac:(lia)) as Hmod.
    set (q := P / E) in *. set (r := P mod E) in *.
    assert (Hq : 0 <= q) by (subst q; apply Z.div_pos; lia).
    set (up := (half <? r) || ((r =? half) && Z.odd q)).
    assert (Hup : up = true -> half <= r).
    { subst up. intros H. apply orb_true_iff in H. destruct H as [H|H].
      - apply Z.ltb_lt in H. lia.
      - apply andb_true_iff in H. destruct H as [H _]. apply Z.eqb_eq in H. lia. }
    set (R := (if up then q + 1 else q) * E).
    assert (HRlo : q * E <= R).
    { subst R. destruct up; nia. }
    assert (HRhi : R <= P + half).
    { subst R. destruct up.
      - specialize (Hup eq_refl). nia.
      - nia. }
    destruct (Z.ltb_spec rate (5 * fix_samples)) as [Hlt|Hge].
    + apply Z.ltb_lt. lia.
    + apply Z.ltb_ge.
      assert (Hlow : fix_samples * K <= q).
      { subst q. apply Z.div_le_lower_bound; [lia|]. nia. }
      nia.
Qed.

(** ** The adaptive latency controller *)

Section RateControl.

Variable pa_timeval_load : timeval -> Z.
Variable pa_bytes_to_usec : Z -> pa_sample_spec -> Z.
Variable pa_smoother_get : pa_smoother -> Z -> Z.

Local Abbreviation measured_latency :=
  (measured_latency pa_timeval_load pa_bytes_to_usec pa_smoother_get).
Local Abbreviation fix_samples :=
  (fix_samples pa_timeval_load pa_bytes_to_usec pa_smoother_get).
Local Abbreviation update_rate :=
  (update_rate pa_timeval_load pa_bytes_to_usec pa_smoother_get).

Lemma fix_samples_range now reply s : 0 <= fix_samples now reply s < 2 ^ 32.
Proof. unfold RtpRecv.fix_samples, fix_samples_of. apply uint32_range. Qed.

Lemma fix_samples_on_target now reply s :
  measured_latency now reply s = intended_latency s ->
  fix_samples now reply s = 0.
Proof.
  intros H. unfold RtpRecv.fix_samples, fix_samples_of, rate_fix.
  rewrite H, Z.ltb_irrefl, Z.sub_diag. reflexivity.
Qed.

(** The rate the update leaves, whatever the size of the fix. *)
Lemma update_rate_rate now reply s :
  rate (sample_spec (sink_input (fst (update_rate now reply s)))) =
  if measured_latency now reply s <? intended_latency s
  then uint32 (rate (sample_spec (sink_input s)) - fix_samples now reply s)
  else uint32 (rate (sample_spec (sink_input s)) + fix_samples now reply s).
Proof. reflexivity. Qed.

(** C2, as the code has it: when the correction is within bounds, a
    measured latency below [intended_latency] lowers [current_rate] by the
    correction and a measured latency above it raises [current_rate] by the
    correction (modulo 2^32); the new rate is handed to the resampler. *)
Theorem rate_follows_latency (now : timeval) (reply : option Z) (s : session) :
  let latency := measured_latency now reply s in
  let fs := fix_samples now reply s in
  let r := rate (sample_spec (sink_input s)) in
  let i' := sink_input (fst (update_rate now reply s)) in
  fix_too_large fs r = false ->
  0 <= r < 2 ^ 32 ->
  (latency < intended_latency s -> rate (sample_spec i') = r - fs) /\
  (intended_latency s < latency -> rate (sample_spec i') = uint32 (r + fs)) /\
  (latency = intended_latency s -> rate (sample_spec i') = r) /\
  thread_info_resampler i' = rate (sample_spec i') /\
  last_rate_update (fst (update_rate now reply s)) = pa_timeval_load now.
Proof.
  intros latency fs r i' Hb Hr. subst i'.
  rewrite update_rate_rate. fold latency fs r.
  pose proof (fix_samples_range now reply s) as Hfs. fold fs in Hfs.
  rewrite fix_too_large_fifth in Hb by lia. apply Z.ltb_ge in Hb.
  repeat split.
  - intros Hlt. apply Z.ltb_lt in Hlt. rewrite Hlt.
    apply uint32_small. lia.
  - intros Hgt.
    destruct (Z.ltb_spec latency (intended_latency s)); [lia|reflexivity].
  - intros Heq. rewrite Heq, Z.ltb_irrefl.
    subst fs. rewrite (fix_samples_on_target now reply s Heq), Z.add_0_r.
    apply uint32_small. exact Hr.
Qed.

End RateControl.

(** The scenario of the counterexample: the write position is estimated at
    400 ms, nothing is pending downstream, so the latency is 100 ms short
    of the intended 500 ms and the correction is 882 Hz, within bounds. *)
Lemma rate_follows_latency_witness :
  let s := Scenario.writing_at 400000 (Scenario.unbound 1000) in
  rate (sample_spec (sink_input (fst (Scenario.update_rate (Scenario.at_second 106) (Some 0) s))))
  = 44100 - 882.
Proof.
  intros s.
  apply (rate_follows_latency Scenario.timeval_load Scenario.bytes_to_usec
           Scenario.newest_sample (Scenario.at_second 106) (Some 0) s);
    vm_compute; try reflexivity; split; congruence.
Defined.

(** C2 as the spec words it fails: with the latency below the intended one
    and the correction within bounds, the rate goes down, not up. *)
Lemma rate_not_raised_when_latency_low :
  let s := Scenario.writing_at 400000 (Scenario.unbound 1000) in
  let now := Scenario.at_second 106 in
  let latency := measured_latency Scenario.timeval_load Scenario.bytes_to_usec
                   Scenario.newest_sample now (Some 0) s in
  let fs := fix_samples Scenario.timeval_load Scenario.bytes_to_usec
              Scenario.newest_sample now (Some 0) s in
  let r := rate (sample_spec (sink_input s)) in
  let r' := rate (sample_spec (sink_input (fst (Scenario.update_rate now (Some 0) s)))) in
  latency < intended_latency s /\
  fix_too_large fs r = false /\
  r' <> uint32 (r + fs) /\
  r' < r.
Proof. vm_compute. repeat split; congruence. Qed.

(** C1 on the code: a correction of 13230 Hz, above the fifth of 44100 Hz,
    is logged as "not applying" and applied all the same: by the controller
    when the smoother reports a write position of two seconds, and by the
    whole callback when a packet two seconds ahead arrives at second 106. *)
Theorem rate_fix_beyond_bound_is_applied :
  let s := Scenario.writing_at 2000000 (Scenario.unbound 1000) in
  let now := Scenario.at_second 106 in
  let fs := fix_samples Scenario.timeval_load Scenario.bytes_to_usec
              Scenario.newest_sample now (Some 0) s in
  let out := Scenario.update_rate now (Some 0) s in
  let o := Scenario.rtpoll_work_cb (Scenario.arrival 106 Scenario.jump)
             Scenario.pollin (Scenario.bound 1000 1000) in
  let not_applying :=
    Log pa_log_debug "Hmmm, rate fix is too large (%lu Hz), not applying." [13230] in
  (fs = 13230 /\
   fix_too_large fs (rate (sample_spec (sink_input s))) = true /\
   In not_applying (snd out) /\
   rate (sample_spec (sink_input s)) = 44100 /\
   rate (sample_spec (sink_input (fst out))) = 57330 /\
   thread_info_resampler (sink_input (fst out)) = 57330) /\
  (ret o = 1 /\
   In not_applying (trace o) /\
   rate (sample_spec (sink_input (Scenario.bound 1000 1000))) = 44100 /\
   rate (sample_spec (sink_input (sess o))) = 57330 /\
   thread_info_resampler (sink_input (sess o)) = 57330).
Proof. vm_compute. repeat split; auto. Qed.

(** ** The jitter buffer under ingestion *)

Lemma lookup_write_bytes (data : list Byte.byte) (pos k : Z) (m : gmap Z Byte.byte) :
  write_bytes pos data m !! k =
  if decide (pos <= k < pos + Z.of_nat (length data))
  then data !! Z.to_nat (k - pos)
  else m !! k.
Proof.
  revert pos. induction data as [|b rest IH]; intros pos; cbn [write_bytes length].
  - case_decide; [lia|reflexivity].
  - destruct (decide (pos = k)) as [->|Hne].
    + rewrite lookup_insert_eq. case_decide; [|lia].
      rewrite Z.sub_diag. reflexivity.
    + rewrite lookup_insert_ne by assumption. rewrite IH.
      repeat case_decide; try lia; [|reflexivity].
      replace (Z.to_nat (k - pos)) with (S (Z.to_nat (k - (pos + 1)))) by lia.
      reflexivity.
Qed.

Lemma size_write_bytes (data : list Byte.byte) (pos : Z) (m : gmap Z Byte.byte) :
  (size (write_bytes pos data m) <= size m + length data)%nat.
Proof.
  revert pos. induction data as [|b rest IH]; intros pos; cbn [write_bytes length].
  - lia.
  - rewrite map_size_insert. specialize (IH (pos + 1)).
    destruct (write_bytes (pos + 1) rest m !! pos); cbn; lia.
Qed.

Lemma write_bytes_comm (a b : list Byte.byte) (p q : Z) (m : gmap Z Byte.byte) :
  p + Z.of_nat (length a) <= q \/ q + Z.of_nat (length b) <= p ->
  write_bytes p a (write_bytes q b m) = write_bytes q b (write_bytes p a m).
Proof.
  intros Hd. apply map_eq. intros k.
  rewrite !lookup_write_bytes.
  repeat case_decide; try reflexivity; lia.
Qed.

Lemma push_overrun bq chunk :
  maxlength bq - occupancy bq < Z.of_nat (length chunk) ->
  pa_memblockq_push bq chunk = None.
Proof.
  intros H. unfold pa_memblockq_push.
  destruct (Z.ltb_spec (maxlength bq - occupancy bq) (Z.of_nat (length chunk)));
    [reflexivity|lia].
Qed.

Lemma push_bounded bq chunk q :
  pa_memblockq_push bq chunk = Some q ->
  maxlength q = maxlength bq /\ occupancy q <= maxlength q.
Proof.
  unfold pa_memblockq_push.
  destruct (Z.ltb_spec (maxlength bq - occupancy bq) (Z.of_nat (length chunk)));
    [discriminate|].
  intros [= <-]. cbn [maxlength]. split; [reflexivity|].
  unfold occupancy in *. cbn [blocks].
  pose proof (size_write_bytes chunk (write_index bq) (blocks bq)). lia.
Qed.

Lemma jitter_write_bounded bq expected ts fs chunk :
  occupancy bq <= maxlength bq ->
  maxlength (jitter_write bq expected ts fs chunk) = maxlength bq /\
  occupancy (jitter_write bq expected ts fs chunk)
  <= maxlength (jitter_write bq expected ts fs chunk).
Proof.
  intros H. unfold jitter_write.
  destruct (pa_memblockq_push _ chunk) as [q|] eqn:Hp.
  - apply push_bounded in Hp. cbn [pa_memblockq_seek maxlength] in Hp.
    destruct Hp as [-> ?]. split; [reflexivity|assumption].
  - cbn. split; [reflexivity|exact H].
Qed.

(** Where a payload lands when it fits and no cursor wraps. *)
Lemma jitter_write_stored bq expected ts fs chunk :
  let len := Z.of_nat (length chunk) in
  let pos := write_index bq + (ts - expected) * fs in
  0 <= expected < 2 ^ 32 -> 0 <= ts < 2 ^ 32 ->
  - 2 ^ 31 < ts - expected ->
  0 <= fs < 2 ^ 31 ->
  - 2 ^ 63 <= pos -> pos + len < 2 ^ 63 ->
  occupancy bq + len <= maxlength bq ->
  jitter_write bq expected ts fs chunk =
  {| read_index := read_index bq;
     write_index := pos + len;
     maxlength := maxlength bq;
     prebuf := prebuf bq;
     blocks := write_bytes pos chunk (blocks bq) |}.
Proof.
  intros len pos He Hts Hk Hfs Hlo Hhi Hcap.
  assert (Hd : timestamp_delta expected ts = ts - expected).
  { unfold timestamp_delta.
    rewrite (direct_difference_exact expected ts He Hts).
    rewrite (wraparound_difference_exact expected ts He Hts).
    rewrite !int64_abs_exact by lia.
    destruct (Z.ltb_spec (Z.abs (ts - expected)) (Z.abs (2 ^ 32 - expected + ts)));
      [reflexivity|lia]. }
  unfold jitter_write. rewrite Hd.
  rewrite (sint64_small fs) by lia.
  assert (Hprod : - 2 ^ 63 <= (ts - expected) * fs < 2 ^ 63) by nia.
  rewrite (sint64_small ((ts - expected) * fs)) by exact Hprod.
  unfold pa_memblockq_push, pa_memblockq_seek, occupancy.
  cbn [maxlength blocks write_index read_index prebuf].
  fold pos. rewrite (sint64_small pos) by lia.
  unfold occupancy in Hcap. fold len.
  destruct (Z.ltb_spec (maxlength bq - Z.of_nat (size (blocks bq))) len); [lia|].
  rewrite (sint64_small (pos + len)) by lia.
  reflexivity.
Qed.

(** ** Packet ingestion *)

Section Ingestion.

Variable pa_timeval_load : timeval -> Z.
Variable pa_bytes_to_usec : Z -> pa_sample_spec -> Z.
Variable pa_smoother_get : pa_smoother -> Z -> Z.
Variable pa_memblockq_is_readable : pa_memblockq -> bool.

Local Abbreviation rtpoll_work_cb :=
  (rtpoll_work_cb pa_timeval_load pa_bytes_to_usec pa_smoother_get
     pa_memblockq_is_readable).
Local Abbreviation enqueue := (enqueue pa_timeval_load pa_bytes_to_usec).
Local Abbreviation update_rate :=
  (update_rate pa_timeval_load pa_bytes_to_usec pa_smoother_get).
Local Abbreviation rate_update_due := (rate_update_due pa_timeval_load).
Local Abbreviation ingested :=
  (ingested pa_timeval_load pa_bytes_to_usec pa_smoother_get).
Local Abbreviation deliver :=
  (deliver pa_timeval_load pa_bytes_to_usec pa_smoother_get
     pa_memblockq_is_readable).

Lemma rtpoll_work_cb_bad_revents e p s :
  Z.land (revents p) (Z.lor POLLERR (Z.lor POLLNVAL (Z.lor POLLHUP POLLOUT))) <> 0 ->
  rtpoll_work_cb e p s =
  {| ret := -1; pfd := p; sess := s;
     trace := [Log pa_log "poll() signalled bad revents." []] |}.
Proof.
  intros H. unfold RtpRecv.rtpoll_work_cb.
  destruct (Z.eqb_spec (Z.land (revents p)
    (Z.lor POLLERR (Z.lor POLLNVAL (Z.lor POLLHUP POLLOUT)))) 0); [lia|reflexivity].
Qed.

Lemma rtpoll_work_cb_not_readable e p s :
  Z.land (revents p) (Z.lor POLLERR (Z.lor POLLNVAL (Z.lor POLLHUP POLLOUT))) = 0 ->
  Z.land (revents p) POLLIN = 0 ->
  rtpoll_work_cb e p s = {| ret := 0; pfd := p; sess := s; trace := [] |}.
Proof.
  intros H1 H2. unfold RtpRecv.rtpoll_work_cb. rewrite H1, H2. reflexivity.
Qed.

Lemma rtpoll_work_cb_readable e p s :
  readable p ->
  rtpoll_work_cb e p s =
  match env_recv e with
  | None => {| ret := 0; pfd := set_revents 0 p; sess := s; trace := [] |}
  | Some pk =>
    let s0 := set_rtp_context (received pk (rtp_context s)) s in
    if negb (sdp.payload (sdp_info s) =? pk_payload pk)
    then {| ret := 0; pfd := set_revents 0 p; sess := s0; trace := [] |}
    else
      match bind_stream (env_cookie e) s0 with
      | None => {| ret := 0; pfd := set_revents 0 p; sess := s0; trace := [] |}
      | Some (s1, l1) =>
        {| ret := 1; pfd := set_revents 0 p; sess := ingested e pk s1;
           trace := ((l1 ++ snd (enqueue (env_now e) (pk_data pk) s1))
                     ++ (if rate_update_due (env_now e)
                              (fst (enqueue (env_now e) (pk_data pk) s1))
                         then snd (update_rate (env_now e) (env_sink_latency e)
                                     (fst (enqueue (env_now e) (pk_data pk) s1)))
                         else []))
                    ++ end_of_underrun pa_memblockq_is_readable (ingested e pk s1) |}
      end
  end.
Proof.
  intros [H1 H2]. unfold RtpRecv.rtpoll_work_cb. rewrite H1.
  destruct (Z.eqb_spec (Z.land (revents p) POLLIN) 0) as [E|_]; [contradiction|].
  cbn [negb Z.eqb].
  destruct (env_recv e) as [pk|]; [|reflexivity].
  cbn [rtp_context set_rtp_context sdp_info received rtp.payload].
  destruct (negb (sdp.payload (sdp_info s) =? pk_payload pk)); [reflexivity|].
  destruct (bind_stream _ _) as [[s1 l1]|]; [|reflexivity].
  unfold RtpRecv.ingested.
  destruct (enqueue (env_now e) (pk_data pk) s1) as [s2 l2]. cbn [fst snd].
  destruct (rate_update_due (env_now e) s2).
  - destruct (update_rate _ _ s2) as [s3 l3]. cbn [fst snd].
    rewrite <- !app_assoc. reflexivity.
  - rewrite <- !app_assoc. reflexivity.
Qed.

(** The three ways the callback can be entered. *)
Lemma revents_cases (p : pollfd) :
  Z.land (revents p) (Z.lor POLLERR (Z.lor POLLNVAL (Z.lor POLLHUP POLLOUT))) <> 0
  \/ (Z.land (revents p) (Z.lor POLLERR (Z.lor POLLNVAL (Z.lor POLLHUP POLLOUT))) = 0
      /\ Z.land (revents p) POLLIN = 0)
  \/ readable p.
Proof. unfold readable. lia. Qed.

(** Case split on how poll left [revents]; the two early returns are
    rewritten away. *)
Ltac callback_cases p :=
  let Hbad := fresh "Hbad" in
  let H1 := fresh "Hquiet" in
  let H2 := fresh "Hnoin" in
  let Hr := fresh "Hr" in
  destruct (revents_cases p) as [Hbad|[[H1 H2]|Hr]];
  [ rewrite rtpoll_work_cb_bad_revents by assumption
  | rewrite rtpoll_work_cb_not_readable by assumption
  | rewrite rtpoll_work_cb_readable by assumption ].

(** C5: a packet whose payload type differs from the session's configured
    one leaves the jitter buffer (its occupancy and its write cursor),
    [expected_timestamp], the smoother and [last_seen] as they were. *)
Theorem payload_mismatch_leaves_session (e : io_env) (p : pollfd) (s : session)
    (pk : packet) :
  env_recv e = Some pk ->
  pk_payload pk <> sdp.payload (sdp_info s) ->
  let s' := sess (rtpoll_work_cb e p s) in
  occupancy (memblockq s') = occupancy (memblockq s) /\
  write_index (memblockq s') = write_index (memblockq s) /\
  memblockq s' = memblockq s /\
  offset s' = offset s /\
  smoother s' = smoother s /\
  timestamp s' = timestamp s.
Proof.
  intros Hrecv Hne s'. subst s'.
  callback_cases p.
  - cbn. tauto.
  - cbn. tauto.
  - rewrite Hrecv. cbn zeta.
    destruct (Z.eqb_spec (sdp.payload (sdp_info s)) (pk_payload pk)) as [E|_];
      [congruence|].
    cbn. tauto.
Qed.

(** *** Stream binding *)

Lemma bind_stream_unbound c s :
  first_packet s = false ->
  exists l,
    bind_stream c s =
    Some (set_offset (rtp.timestamp (rtp_context s))
            (set_ssrc (rtp.ssrc (rtp_context s)) (set_first_packet true s)), l).
Proof. intros H. unfold bind_stream. rewrite H. cbn. eauto. Qed.

Lemma bind_stream_bound c s :
  first_packet s = true ->
  bind_stream c s =
  if ssrc s =? rtp.ssrc (rtp_context s) then Some (s, []) else None.
Proof.
  intros H. unfold bind_stream. rewrite H. cbn.
  destruct (ssrc s =? rtp.ssrc (rtp_context s)); reflexivity.
Qed.

Lemma bind_stream_Some c s s1 l1 :
  bind_stream c s = Some (s1, l1) ->
  first_packet s1 = true /\ ssrc s1 = rtp.ssrc (rtp_context s) /\
  (first_packet s = true -> s1 = s) /\
  (first_packet s = false -> offset s1 = rtp.timestamp (rtp_context s)) /\
  rtp_context s1 = rtp_context s.
Proof.
  unfold bind_stream. destruct (first_packet s) eqn:Hf; cbn.
  - destruct (Z.eqb_spec (ssrc s) (rtp.ssrc (rtp_context s))); cbn; [|discriminate].
    intros [= <- <-]. repeat split; auto; congruence.
  - intros [= <- <-]. cbn. repeat split; auto; congruence.
Qed.

Lemma enqueue_keeps_binding now chunk s :
  first_packet (fst (enqueue now chunk s)) = first_packet s /\
  ssrc (fst (enqueue now chunk s)) = ssrc s.
Proof.
  unfold RtpRecv.enqueue.
  destruct (pa_memblockq_push _ _); cbn; auto.
Qed.

Lemma update_rate_keeps_binding now r s :
  first_packet (fst (update_rate now r s)) = first_packet s /\
  ssrc (fst (update_rate now r s)) = ssrc s /\
  offset (fst (update_rate now r s)) = offset s /\
  memblockq (fst (update_rate now r s)) = memblockq s.
Proof. unfold RtpRecv.update_rate. cbn. auto. Qed.

Lemma ingested_keeps_binding e pk s :
  first_packet (ingested e pk s) = first_packet s /\
  ssrc (ingested e pk s) = ssrc s.
Proof.
  unfold RtpRecv.ingested.
  destruct (enqueue_keeps_binding (env_now e) (pk_data pk) s) as [H1 H2].
  destruct (rate_update_due _ _).
  - destruct (update_rate_keeps_binding (env_now e) (env_sink_latency e)
                (fst (enqueue (env_now e) (pk_data pk) s))) as (G1 & G2 & _).
    rewrite G1, G2. auto.
  - auto.
Qed.

(** Once bound, no run of the callback rebinds the session. *)
Lemma rtpoll_work_cb_keeps_binding e p s :
  first_packet s = true ->
  first_packet (sess (rtpoll_work_cb e p s)) = true /\
  ssrc (sess (rtpoll_work_cb e p s)) = ssrc s.
Proof.
  intros Hb.
  callback_cases p; [auto|auto|].
  - destruct (env_recv e) as [pk|]; [|auto]. cbn zeta.
    destruct (negb _); [auto|].
    destruct (bind_stream _ _) as [[s1 l1]|] eqn:Hbs; [|auto].
    apply bind_stream_Some in Hbs. destruct Hbs as (F1 & F2 & F3 & _).
    cbn [sess]. destruct (ingested_keeps_binding e pk s1) as [G1 G2].
    rewrite G1, G2. split; [assumption|].
    rewrite (F3 Hb). reflexivity.
Qed.

Lemma deliver_keeps_binding (es : list io_env) (ps : pollfd * session) :
  first_packet (snd ps) = true ->
  first_packet (snd (foldl (fun ps e => deliver e ps) ps es)) = true /\
  ssrc (snd (foldl (fun ps e => deliver e ps) ps es)) = ssrc (snd ps).
Proof.
  revert ps. induction es as [|e es IH]; intros ps Hb; [cbn; auto|].
  cbn [foldl].
  destruct (rtpoll_work_cb_keeps_binding e (set_revents POLLIN (fst ps)) (snd ps) Hb)
    as [H1 H2].
  destruct (IH (deliver e ps)) as [G1 G2]; [exact H1|].
  split; [exact G1|]. rewrite G2. exact H2.
Qed.

(** C7: the first accepted packet binds [stream_id] to the packet's
    identifier and initialises [expected_timestamp] to the packet's
    timestamp; from then on [stream_id] never changes, and a packet with
    another identifier is discarded with the buffer and the timing state
    untouched. *)
Theorem stream_id_bound_once (e : io_env) (p : pollfd) (s : session)
    (pk : packet) (es : list io_env) :
  readable p ->
  env_recv e = Some pk ->
  pk_payload pk = sdp.payload (sdp_info s) ->
  let s0 := set_rtp_context (received pk (rtp_context s)) s in
  let o := rtpoll_work_cb e p s in
  (first_packet s = false ->
     (exists s1 l1,
        bind_stream (env_cookie e) s0 = Some (s1, l1) /\
        first_packet s1 = true /\ ssrc s1 = pk_ssrc pk /\
        offset s1 = pk_timestamp pk /\
        sess o = ingested e pk s1) /\
     ret o = 1 /\ first_packet (sess o) = true /\ ssrc (sess o) = pk_ssrc pk) /\
  (first_packet s = true ->
     first_packet (sess o) = true /\ ssrc (sess o) = ssrc s /\
     first_packet (snd (foldl (fun ps e => deliver e ps) (p, s) es)) = true /\
     ssrc (snd (foldl (fun ps e => deliver e ps) (p, s) es)) = ssrc s /\
     (pk_ssrc pk <> ssrc s ->
        ret o = 0 /\ trace o = [] /\
        memblockq (sess o) = memblockq s /\
        offset (sess o) = offset s /\
        smoother (sess o) = smoother s /\
        timestamp (sess o) = timestamp s /\
        last_rate_update (sess o) = last_rate_update s /\
        sink_input (sess o) = sink_input s)).
Proof.
  intros Hr Hrecv Hpay s0 o. subst o.
  rewrite rtpoll_work_cb_readable by assumption. rewrite Hrecv. cbn zeta.
  fold s0.
  destruct (Z.eqb_spec (sdp.payload (sdp_info s)) (pk_payload pk)) as [_|N];
    [|congruence].
  cbn [negb]. split.
  - intros Hu.
    destruct (bind_stream_unbound (env_cookie e) s0 Hu) as [l1 Hbs].
    rewrite Hbs. cbn [ret sess].
    match type of Hbs with _ = Some (?x, _) => set (s1 := x) in * end.
    destruct (ingested_keeps_binding e pk s1) as [G1 G2].
    split; [|split; [reflexivity|split]].
    + exists s1, l1. repeat split; try reflexivity.
    + rewrite G1. reflexivity.
    + rewrite G2. reflexivity.
  - intros Hb.
    assert (Hb0 : first_packet s0 = true) by exact Hb.
    rewrite (bind_stream_bound (env_cookie e) s0 Hb0).
    change (ssrc s0) with (ssrc s).
    change (rtp.ssrc (rtp_context s0)) with (pk_ssrc pk).
    destruct (deliver_keeps_binding es (p, s) Hb) as [D1 D2].
    destruct (Z.eqb_spec (ssrc s) (pk_ssrc pk)) as [E|N].
    + cbn [sess ret trace].
      destruct (ingested_keeps_binding e pk s0) as [G1 G2].
      rewrite G1, G2. repeat split; auto; intros; congruence.
    + cbn [sess ret trace]. repeat split; auto.
Qed.

(** *** The next expected timestamp *)

Lemma enqueue_offset now chunk s :
  offset (fst (enqueue now chunk s)) =
  uint32 (rtp.timestamp (rtp_context s)
          + Z.of_nat (length chunk) / rtp.frame_size (rtp_context s)).
Proof.
  unfold RtpRecv.enqueue.
  destruct (pa_memblockq_push _ _); cbn; apply uint32_add_idemp_r.
Qed.

Lemma ingested_offset e pk s :
  offset (ingested e pk s) =
  uint32 (rtp.timestamp (rtp_context s)
          + Z.of_nat (length (pk_data pk)) / rtp.frame_size (rtp_context s)).
Proof.
  unfold RtpRecv.ingested. destruct (rate_update_due _ _).
  - destruct (update_rate_keeps_binding (env_now e) (env_sink_latency e)
                (fst (enqueue (env_now e) (pk_data pk) s))) as (_ & _ & G & _).
    rewrite G. apply enqueue_offset.
  - apply enqueue_offset.
Qed.

(** A packet that passes the payload and the stream check. *)
Lemma rtpoll_work_cb_accepted e p s pk :
  readable p ->
  env_recv e = Some pk ->
  pk_payload pk = sdp.payload (sdp_info s) ->
  first_packet s = false \/ pk_ssrc pk = ssrc s ->
  exists s1 l1,
    bind_stream (env_cookie e) (set_rtp_context (received pk (rtp_context s)) s)
    = Some (s1, l1) /\
    ret (rtpoll_work_cb e p s) = 1 /\
    sess (rtpoll_work_cb e p s) = ingested e pk s1.
Proof.
  intros Hr Hrecv Hpay Hacc.
  rewrite rtpoll_work_cb_readable by assumption. rewrite Hrecv. cbn zeta.
  destruct (Z.eqb_spec (sdp.payload (sdp_info s)) (pk_payload pk)) as [_|N];
    [|congruence].
  cbn [negb].
  set (s0 := set_rtp_context (received pk (rtp_context s)) s).
  destruct (first_packet s) eqn:Hf.
  - destruct Hacc as [?|Hs]; [discriminate|].
    rewrite (bind_stream_bound (env_cookie e) s0 Hf).
    change (ssrc s0) with (ssrc s).
    change (rtp.ssrc (rtp_context s0)) with (pk_ssrc pk).
    rewrite Hs, Z.eqb_refl. eauto.
  - destruct (bind_stream_unbound (env_cookie e) s0 Hf) as [l1 Hbs].
    rewrite Hbs. eauto.
Qed.

(** C9, as the code has it: after each accepted packet
    [expected_timestamp] is the packet's timestamp plus the number of sample
    frames of the payload, modulo 2^32; that is the previous
    [expected_timestamp] advanced by the payload exactly when the packet
    carries the timestamp that was expected. *)
Theorem expected_timestamp_follows_packet (e : io_env) (p : pollfd)
    (s : session) (pk : packet) :
  readable p ->
  env_recv e = Some pk ->
  pk_payload pk = sdp.payload (sdp_info s) ->
  first_packet s = false \/ pk_ssrc pk = ssrc s ->
  0 <= pk_timestamp pk < 2 ^ 32 ->
  0 <= offset s < 2 ^ 32 ->
  let frames := Z.of_nat (length (pk_data pk)) / rtp.frame_size (rtp_context s) in
  let o := rtpoll_work_cb e p s in
  ret o = 1 /\
  offset (sess o) = uint32 (pk_timestamp pk + frames) /\
  (offset (sess o) = uint32 (offset s + frames) <-> pk_timestamp pk = offset s).
Proof.
  intros Hr Hrecv Hpay Hacc Hts Hoff frames o. subst o.
  destruct (rtpoll_work_cb_accepted e p s pk Hr Hrecv Hpay Hacc)
    as (s1 & l1 & Hbs & Hret & Hsess).
  rewrite Hret, Hsess, ingested_offset.
  apply bind_stream_Some in Hbs. destruct Hbs as (_ & _ & _ & _ & Hctx).
  rewrite Hctx. cbn [rtp_context set_rtp_context received rtp.timestamp rtp.frame_size].
  fold frames.
  split; [reflexivity|]. split; [reflexivity|].
  unfold uint32. split.
  - intros H.
    assert (Hd : (pk_timestamp pk - offset s) mod 2 ^ 32 = 0).
    { rewrite Zminus_mod.
      replace (pk_timestamp pk) with ((pk_timestamp pk + frames) - frames) at 1 by lia.
      replace (offset s) with ((offset s + frames) - frames) at 1 by lia.
      rewrite (Zminus_mod (pk_timestamp pk + frames)).
      rewrite (Zminus_mod (offset s + frames)).
      rewrite H. rewrite <- Zminus_mod.
      rewrite Z.sub_diag. reflexivity. }
    apply Z.mod_divide in Hd; [|lia].
    destruct Hd as [q Hq]. lia.
  - intros ->. reflexivity.
Qed.

(** *** The queue under the callback *)

Lemma enqueue_memblockq now chunk s :
  memblockq (fst (enqueue now chunk s)) =
  jitter_write (memblockq s) (offset s) (rtp.timestamp (rtp_context s))
    (rtp.frame_size (rtp_context s)) chunk.
Proof.
  unfold RtpRecv.enqueue, jitter_write.
  destruct (pa_memblockq_push _ _); reflexivity.
Qed.

Lemma enqueue_frame now chunk s :
  sdp_info (fst (enqueue now chunk s)) = sdp_info s /\
  rtp_context (fst (enqueue now chunk s)) = rtp_context s.
Proof.
  unfold RtpRecv.enqueue. destruct (pa_memblockq_push _ _); cbn; auto.
Qed.

Lemma ingested_memblockq e pk s :
  memblockq (ingested e pk s) =
  jitter_write (memblockq s) (offset s) (rtp.timestamp (rtp_context s))
    (rtp.frame_size (rtp_context s)) (pk_data pk).
Proof.
  unfold RtpRecv.ingested. destruct (rate_update_due _ _).
  - cbn [fst RtpRecv.update_rate memblockq set_last_rate_update set_sink_input].
    apply enqueue_memblockq.
  - apply enqueue_memblockq.
Qed.

Lemma ingested_frame e pk s :
  sdp_info (ingested e pk s) = sdp_info s /\
  rtp_context (ingested e pk s) = rtp_context s.
Proof.
  unfold RtpRecv.ingested. destruct (rate_update_due _ _).
  - cbn [fst RtpRecv.update_rate sdp_info rtp_context set_last_rate_update
           set_sink_input].
    apply enqueue_frame.
  - apply enqueue_frame.
Qed.

Lemma bind_stream_memblockq c s s1 l1 :
  bind_stream c s = Some (s1, l1) ->
  memblockq s1 = memblockq s /\ sdp_info s1 = sdp_info s.
Proof.
  unfold bind_stream. destruct (first_packet s); cbn.
  - destruct (ssrc s =? rtp.ssrc (rtp_context s)); cbn; [|discriminate].
    intros [= <- <-]. auto.
  - intros [= <- <-]. auto.
Qed.

(** Whatever arrives, the queue stays within its maximum length. *)
Lemma rtpoll_work_cb_bounded e p s :
  occupancy (memblockq s) <= maxlength (memblockq s) ->
  maxlength (memblockq (sess (rtpoll_work_cb e p s))) = maxlength (memblockq s) /\
  occupancy (memblockq (sess (rtpoll_work_cb e p s)))
  <= maxlength (memblockq (sess (rtpoll_work_cb e p s))).
Proof.
  intros Hb.
  callback_cases p; [auto|auto|].
  - destruct (env_recv e) as [pk|]; [|auto]. cbn zeta.
    destruct (negb _); [auto|].
    destruct (bind_stream _ _) as [[s1 l1]|] eqn:Hbs; [|auto].
    apply bind_stream_memblockq in Hbs. destruct Hbs as [Hq _].
    cbn [sess]. rewrite ingested_memblockq, Hq.
    apply jitter_write_bounded. exact Hb.
Qed.

Lemma deliver_bounded (es : list io_env) (ps : pollfd * session) :
  occupancy (memblockq (snd ps)) <= maxlength (memblockq (snd ps)) ->
  maxlength (memblockq (snd (foldl (fun ps e => deliver e ps) ps es)))
  = maxlength (memblockq (snd ps)) /\
  occupancy (memblockq (snd (foldl (fun ps e => deliver e ps) ps es)))
  <= maxlength (memblockq (snd ps)).
Proof.
  revert ps. induction es as [|e es IH]; intros ps Hb; [cbn; auto|].
  cbn [foldl].
  destruct (rtpoll_work_cb_bounded e (set_revents POLLIN (fst ps)) (snd ps) Hb)
    as [H1 H2].
  destruct (IH (deliver e ps)) as [G1 G2].
  { unfold RtpRecv.deliver. cbn [snd]. exact H2. }
  unfold RtpRecv.deliver in G1, G2. cbn [snd] in G1, G2.
  rewrite H1 in G1, G2. auto.
Qed.

(** C6: when the payload is larger than what the jitter buffer can still
    take, the payload is dropped, the write cursor (already moved by the
    timestamp seek) advances by exactly the payload's length, the overrun is
    logged; and the buffer occupancy never exceeds the maximum length. *)
Theorem queue_overrun_skips_payload (now : timeval) (chunk : list Byte.byte)
    (s : session) (p : pollfd) (es : list io_env) :
  let c := rtp_context s in
  let q1 := pa_memblockq_seek (memblockq s)
              (sint64 (timestamp_delta (offset s) (rtp.timestamp c)
                       * sint64 (rtp.frame_size c))) in
  let q' := memblockq (fst (enqueue now chunk s)) in
  let len := Z.of_nat (length chunk) in
  occupancy (memblockq s) <= maxlength (memblockq s) ->
  (maxlength (memblockq s) - occupancy (memblockq s) < len ->
     blocks q' = blocks (memblockq s) /\
     occupancy q' = occupancy (memblockq s) /\
     write_index q' = sint64 (write_index q1 + len) /\
     (write_index q1 + len < 2 ^ 63 -> write_index q' = write_index q1 + len) /\
     snd (enqueue now chunk s) = [Log pa_log_warn "Queue overrun" []]) /\
  occupancy q' <= maxlength (memblockq s) /\
  occupancy (memblockq (snd (foldl (fun ps e => deliver e ps) (p, s) es)))
  <= maxlength (memblockq s).
Proof.
  intros c q1 q' len Hb. split; [|split].
  - intros Hfull.
    assert (Hp : pa_memblockq_push q1 chunk = None).
    { apply push_overrun. exact Hfull. }
    assert (Hw : write_index q' = sint64 (write_index q1 + len)).
    { subst q'. unfold RtpRecv.enqueue. fold c. fold q1. rewrite Hp.
      cbn [fst memblockq set_timestamp set_offset set_memblockq
             pa_memblockq_seek write_index].
      apply sint64_add_idemp_r. }
    split; [|split; [|split; [exact Hw|split]]].
    + subst q'. unfold RtpRecv.enqueue. fold c. fold q1. rewrite Hp. reflexivity.
    + subst q'. unfold RtpRecv.enqueue. fold c. fold q1. rewrite Hp. reflexivity.
    + intros Hhi. rewrite Hw. apply sint64_small.
      pose proof (sint64_range (write_index (memblockq s)
        + sint64 (timestamp_delta (offset s) (rtp.timestamp c)
                  * sint64 (rtp.frame_size c)))) as Hq1.
      change (- 2 ^ 63 <= write_index q1 < 2 ^ 63) in Hq1.
      subst len. lia.
    + unfold RtpRecv.enqueue. fold c. fold q1. rewrite Hp. reflexivity.
  - subst q'. rewrite enqueue_memblockq.
    destruct (jitter_write_bounded (memblockq s) (offset s) (rtp.timestamp c)
                (rtp.frame_size c) chunk Hb) as [G1 G2].
    fold c in G1, G2 |- *. rewrite G1 in G2. exact G2.
  - apply (deliver_bounded es (p, s)). exact Hb.
Qed.

(** *** Arrival order *)

Lemma memblockq_ext (a b : pa_memblockq) :
  read_index a = read_index b -> write_index a = write_index b ->
  maxlength a = maxlength b -> prebuf a = prebuf b -> blocks a = blocks b ->
  a = b.
Proof. destruct a, b; cbn; intros; subst; reflexivity. Qed.

Lemma readable_pollin p : readable (set_revents POLLIN p).
Proof. unfold readable. cbn. split; [reflexivity|discriminate]. Qed.

(** One packet of the bound stream, delivered to a bound session. *)
Lemma deliver_bound e (ps : pollfd * session) pk :
  env_recv e = Some pk ->
  pk_payload pk = sdp.payload (sdp_info (snd ps)) ->
  first_packet (snd ps) = true ->
  pk_ssrc pk = ssrc (snd ps) ->
  let s := snd ps in
  let s' := snd (deliver e ps) in
  first_packet s' = true /\ ssrc s' = ssrc s /\ sdp_info s' = sdp_info s /\
  rtp.frame_size (rtp_context s') = rtp.frame_size (rtp_context s) /\
  offset s' = uint32 (pk_timestamp pk
                      + Z.of_nat (length (pk_data pk)) / rtp.frame_size (rtp_context s)) /\
  memblockq s' = jitter_write (memblockq s) (offset s) (pk_timestamp pk)
                   (rtp.frame_size (rtp_context s)) (pk_data pk).
Proof.
  intros Hrecv Hpay Hb Hs s s'. subst s'. unfold RtpRecv.deliver. cbn [snd].
  fold s.
  destruct (rtpoll_work_cb_accepted e
              (set_revents POLLIN (fst ps)) s pk (readable_pollin _) Hrecv Hpay
              (or_intror Hs)) as (s1 & l1 & Hbs & _ & Hsess).
  rewrite Hsess.
  pose proof (bind_stream_Some _ _ _ _ Hbs) as (_ & _ & F3 & _ & _).
  assert (E : s1 = set_rtp_context (received pk (rtp_context s)) s).
  { apply F3. exact Hb. }
  destruct (ingested_keeps_binding e pk s1) as [G1 G2].
  destruct (ingested_frame e pk s1) as [G3 G4].
  rewrite G1, G2, G3, G4, ingested_memblockq.
  rewrite ingested_offset.
  rewrite E. cbn. repeat split; auto.
Qed.

(** The same packet when it is one frame long, fits, and lies within
    2^31 frames of the expected timestamp. *)
Lemma deliver_frame e (ps : pollfd * session) pk :
  let s := snd ps in
  let s' := snd (deliver e ps) in
  let fs := rtp.frame_size (rtp_context s) in
  let pos := write_index (memblockq s) + (pk_timestamp pk - offset s) * fs in
  env_recv e = Some pk ->
  pk_payload pk = sdp.payload (sdp_info s) ->
  first_packet s = true ->
  pk_ssrc pk = ssrc s ->
  Z.of_nat (length (pk_data pk)) = fs ->
  0 < fs < 2 ^ 31 ->
  0 <= offset s < 2 ^ 32 -> 0 <= pk_timestamp pk < 2 ^ 32 - 1 ->
  - 2 ^ 31 < pk_timestamp pk - offset s ->
  - 2 ^ 63 <= pos -> pos + fs < 2 ^ 63 ->
  occupancy (memblockq s) + fs <= maxlength (memblockq s) ->
  (first_packet s' = true /\ ssrc s' = ssrc s /\ sdp_info s' = sdp_info s /\
   rtp.frame_size (rtp_context s') = fs /\
   offset s' = pk_timestamp pk + 1) /\
  (read_index (memblockq s') = read_index (memblockq s) /\
   maxlength (memblockq s') = maxlength (memblockq s) /\
   prebuf (memblockq s') = prebuf (memblockq s) /\
   occupancy (memblockq s') <= occupancy (memblockq s) + fs) /\
  write_index (memblockq s') = pos + fs /\
  blocks (memblockq s') = write_bytes pos (pk_data pk) (blocks (memblockq s)).
Proof.
  intros s s' fs pos Hrecv Hpay Hb Hs Hlen Hfs Hoff Hts Hk Hlo Hhi Hcap.
  destruct (deliver_bound e ps pk Hrecv Hpay Hb Hs)
    as (F1 & F2 & F3 & F4 & F5 & F6).
  fold s s' fs in F1, F2, F3, F4, F5, F6.
  rewrite Hlen, Z_div_same_full in F5 by lia.
  rewrite uint32_small in F5 by lia.
  rewrite (jitter_write_stored (memblockq s) (offset s) (pk_timestamp pk) fs
             (pk_data pk)) in F6; rewrite ?Hlen; try lia.
  rewrite Hlen in F6. fold pos in F6.
  rewrite F6. cbn [read_index maxlength prebuf write_index blocks].
  repeat split; auto.
  unfold occupancy. cbn [blocks].
  pose proof (size_write_bytes (pk_data pk) pos (blocks (memblockq s))). lia.
Qed.

(** C8, as the code has it: once the session is bound to the stream,
    one-frame packets with timestamps 1000, 1001, 1002 leave the same jitter
    buffer (content and cursors) and the same [expected_timestamp] whether
    they arrive in that order or as 1001, 1000, 1002. *)
Theorem arrival_order_irrelevant_once_bound (s : session) (p : pollfd)
    (pk0 pk1 pk2 : packet) (a0 a1 a2 b0 b1 b2 : io_env) :
  let fs := rtp.frame_size (rtp_context s) in
  first_packet s = true ->
  0 <= offset s <= 2 ^ 31 ->
  0 < fs <= 2 ^ 20 ->
  - 2 ^ 62 <= write_index (memblockq s) <= 2 ^ 62 ->
  occupancy (memblockq s) + 3 * fs <= maxlength (memblockq s) ->
  one_frame s 1000 pk0 -> one_frame s 1001 pk1 -> one_frame s 1002 pk2 ->
  env_recv a0 = Some pk0 -> env_recv a1 = Some pk1 -> env_recv a2 = Some pk2 ->
  env_recv b0 = Some pk1 -> env_recv b1 = Some pk0 -> env_recv b2 = Some pk2 ->
  let sa := snd (foldl (fun ps e => deliver e ps) (p, s) [a0; a1; a2]) in
  let sb := snd (foldl (fun ps e => deliver e ps) (p, s) [b0; b1; b2]) in
  memblockq sa = memblockq sb /\ offset sa = offset sb.
Proof.
  intros fs Hb Hoff Hfs Hw Hcap
    (T0 & S0 & P0 & L0) (T1 & S1 & P1 & L1) (T2 & S2 & P2 & L2)
    Ha0 Ha1 Ha2 Hb0 Hb1 Hb2 sa sb.
  fold fs in L0, L1, L2.
  set (w := write_index (memblockq s)) in *.
  set (D := (1000 - offset s) * fs).
  assert (HD : - 2 ^ 51 <= D <= 1000 * 2 ^ 20) by (subst D; nia).
  assert (E1 : (1001 - offset s) * fs = D + fs) by (subst D; ring).
  subst sa sb. cbn [foldl].
  (* order 1000, 1001, 1002 *)
  set (x1 := deliver a0 (p, s)).
  destruct (deliver_frame a0 (p, s) pk0) as
    ((A1 & A2 & A3 & A4 & A5) & (A6 & A7 & A8 & A9) & A10 & A11);
    [solve [cbn [snd]; rewrite ?T0; fold fs w D; first [assumption|lia]] ..|].
  fold x1 in A1, A2, A3, A4, A5, A6, A7, A8, A9, A10, A11.
  cbn [snd] in A2, A3, A4, A6, A7, A8, A9, A10, A11.
  rewrite T0 in A5, A10, A11. fold fs w D in A4, A9, A10, A11.
  set (x2 := deliver a1 x1).
  destruct (deliver_frame a1 x1 pk1) as
    ((B1 & B2 & B3 & B4 & B5) & (B6 & B7 & B8 & B9) & B10 & B11);
    [solve [rewrite ?A2, ?A3, ?A4, ?A5, ?A7, ?A10, ?T1;
            first [assumption|lia]] ..|].
  fold x2 in B1, B2, B3, B4, B5, B6, B7, B8, B9, B10, B11.
  rewrite A4 in B4, B9, B10, B11. rewrite A5, A10, T1 in B10, B11.
  rewrite T1 in B5.
  set (x3 := deliver a2 x2).
  destruct (deliver_frame a2 x2 pk2) as
    ((C1 & C2 & C3 & C4 & C5) & (C6 & C7 & C8 & C9) & C10 & C11);
    [solve [rewrite ?B2, ?B3, ?B4, ?B5, ?B7, ?B10, ?A2, ?A3, ?A7, ?T2;
            first [assumption|lia]] ..|].
  fold x3 in C1, C2, C3, C4, C5, C6, C7, C8, C9, C10, C11.
  rewrite B4 in C4, C9, C10, C11. rewrite B5, B10, T2 in C10, C11.
  (* order 1001, 1000, 1002 *)
  set (y1 := deliver b0 (p, s)).
  destruct (deliver_frame b0 (p, s) pk1) as
    ((A1' & A2' & A3' & A4' & A5') & (A6' & A7' & A8' & A9') & A10' & A11');
    [solve [cbn [snd]; rewrite ?T1, ?E1; fold fs w; first [assumption|lia]] ..|].
  fold y1 in A1', A2', A3', A4', A5', A6', A7', A8', A9', A10', A11'.
  cbn [snd] in A2', A3', A4', A6', A7', A8', A9', A10', A11'.
  rewrite T1 in A5', A10', A11'. fold fs w in A4', A9', A10', A11'.
  rewrite E1 in A10', A11'.
  set (y2 := deliver b1 y1).
  destruct (deliver_frame b1 y1 pk0) as
    ((B1' & B2' & B3' & B4' & B5') & (B6' & B7' & B8' & B9') & B10' & B11');
    [solve [rewrite ?A2', ?A3', ?A4', ?A5', ?A7', ?A10', ?T0;
            first [assumption|lia]] ..|].
  fold y2 in B1', B2', B3', B4', B5', B6', B7', B8', B9', B10', B11'.
  rewrite A4' in B4', B9', B10', B11'. rewrite A5', A10', T0 in B10', B11'.
  rewrite T0 in B5'.
  set (y3 := deliver b2 y2).
  destruct (deliver_frame b2 y2 pk2) as
    ((C1' & C2' & C3' & C4' & C5') & (C6' & C7' & C8' & C9') & C10' & C11');
    [solve [rewrite ?B2', ?B3', ?B4', ?B5', ?B7', ?B10', ?A2', ?A3', ?A7', ?T2;
            first [assumption|lia]] ..|].
  fold y3 in C1', C2', C3', C4', C5', C6', C7', C8', C9', C10', C11'.
  rewrite B4' in C4', C9', C10', C11'. rewrite B5', B10', T2 in C10', C11'.
  split; [|congruence].
  apply memblockq_ext; try congruence.
  - rewrite C10, C10'. lia.
  - rewrite C11, C11', B11, B11', A11, A11'.
    replace (w + D + fs + (1001 - (1000 + 1)) * fs) with (w + D + fs) by lia.
    replace (w + D + fs + fs + (1002 - (1001 + 1)) * fs) with (w + D + fs + fs) by lia.
    replace (w + (D + fs) + fs + (1000 - (1001 + 1)) * fs) with (w + D) by lia.
    replace (w + D + fs + (1002 - (1000 + 1)) * fs) with (w + D + fs + fs) by lia.
    replace (w + (D + fs)) with (w + D + fs) by lia.
    f_equal. apply write_bytes_comm. lia.
Qed.

End Ingestion.

(** ** The theorems on concrete runs *)

Lemma payload_mismatch_leaves_session_witness :
  let s := Scenario.unbound 1000 in
  let o := Scenario.rtpoll_work_cb (Scenario.arrival 101 Scenario.wrong_type)
             Scenario.pollin s in
  memblockq (sess o) = memblockq s /\ offset (sess o) = offset s.
Proof.
  intros s o.
  destruct (payload_mismatch_leaves_session Scenario.timeval_load
              Scenario.bytes_to_usec Scenario.newest_sample Scenario.holds_data
              (Scenario.arrival 101 Scenario.wrong_type) Scenario.pollin s
              Scenario.wrong_type eq_refl ltac:(discriminate))
    as (_ & _ & H3 & H4 & _).
  split; assumption.
Defined.

Lemma stream_id_bound_once_witness :
  ssrc (sess (Scenario.rtpoll_work_cb (Scenario.arrival 101 Scenario.p1000)
                Scenario.pollin (Scenario.unbound 1000))) = 0xCAFE /\
  memblockq (sess (Scenario.rtpoll_work_cb (Scenario.arrival 102 Scenario.foreign)
                     Scenario.pollin (Scenario.bound 1000 1000)))
  = memblockq (Scenario.bound 1000 1000).
Proof.
  assert (Hr : readable Scenario.pollin) by (split; [reflexivity|discriminate]).
  split.
  - destruct (stream_id_bound_once Scenario.timeval_load Scenario.bytes_to_usec
                Scenario.newest_sample Scenario.holds_data
                (Scenario.arrival 101 Scenario.p1000) Scenario.pollin
                (Scenario.unbound 1000) Scenario.p1000
                [Scenario.arrival 101 Scenario.p1001] Hr eq_refl eq_refl)
      as [H _].
    apply H. reflexivity.
  - destruct (stream_id_bound_once Scenario.timeval_load Scenario.bytes_to_usec
                Scenario.newest_sample Scenario.holds_data
                (Scenario.arrival 102 Scenario.foreign) Scenario.pollin
                (Scenario.bound 1000 1000) Scenario.foreign
                [Scenario.arrival 101 Scenario.p1001] Hr eq_refl eq_refl)
      as [_ H].
    apply H; [reflexivity|discriminate].
Defined.

Lemma expected_timestamp_follows_packet_witness :
  offset (sess (Scenario.rtpoll_work_cb (Scenario.arrival 101 Scenario.p1000)
                  Scenario.pollin (Scenario.bound 1000 1002))) = 1001.
Proof.
  assert (Hr : readable Scenario.pollin) by (split; [reflexivity|discriminate]).
  destruct (expected_timestamp_follows_packet Scenario.timeval_load
              Scenario.bytes_to_usec Scenario.newest_sample Scenario.holds_data
              (Scenario.arrival 101 Scenario.p1000) Scenario.pollin
              (Scenario.bound 1000 1002) Scenario.p1000 Hr eq_refl eq_refl
              (or_intror eq_refl))
    as (_ & H & _).
  - vm_compute. split; [discriminate|reflexivity].
  - vm_compute. split; [discriminate|reflexivity].
  - exact H.
Defined.

(** C9 as the spec words it fails: the session expects timestamp 1002, a
    late one-frame packet with timestamp 1000 is accepted and stored, and the
    next expected timestamp is 1001, not 1002 + 1. *)
Lemma expected_timestamp_not_advanced_from_previous :
  let s := Scenario.bound 1000 1002 in
  let o := Scenario.rtpoll_work_cb (Scenario.arrival 101 Scenario.p1000)
             Scenario.pollin s in
  let frames := Z.of_nat (length (pk_data Scenario.p1000))
                / rtp.frame_size (rtp_context s) in
  ret o = 1 /\
  occupancy (memblockq (sess o)) = occupancy (memblockq s) + 4 /\
  offset s = 1002 /\ frames = 1 /\
  offset (sess o) = 1001 /\
  offset (sess o) <> uint32 (offset s + frames).
Proof. vm_compute. repeat split; congruence. Qed.

Lemma queue_overrun_skips_payload_witness :
  let s := Scenario.nearly_full in
  let q' := memblockq (fst (enqueue Scenario.timeval_load Scenario.bytes_to_usec
                              (Scenario.at_second 101)
                              (pk_data Scenario.p1001) s)) in
  blocks q' = blocks (memblockq s) /\ write_index q' = 4 + 4.
Proof.
  intros s q'.
  destruct (queue_overrun_skips_payload Scenario.timeval_load
              Scenario.bytes_to_usec Scenario.newest_sample Scenario.holds_data
              (Scenario.at_second 101) (pk_data Scenario.p1001) s Scenario.pollin
              [Scenario.arrival 101 Scenario.p1002])
    as [H _].
  - vm_compute. discriminate.
  - destruct H as (H1 & _ & _ & H4 & _).
    + vm_compute. reflexivity.
    + split; [exact H1|]. apply H4. vm_compute. reflexivity.
Defined.

Lemma arrival_order_irrelevant_once_bound_witness :
  memblockq (Scenario.feed [Scenario.p1000; Scenario.p1001; Scenario.p1002]
               (Scenario.bound 1000 1000))
  = memblockq (Scenario.feed [Scenario.p1001; Scenario.p1000; Scenario.p1002]
                 (Scenario.bound 1000 1000)).
Proof.
  apply (arrival_order_irrelevant_once_bound Scenario.timeval_load
           Scenario.bytes_to_usec Scenario.newest_sample Scenario.holds_data
           (Scenario.bound 1000 1000) Scenario.pollin
           Scenario.p1000 Scenario.p1001 Scenario.p1002
           (Scenario.arrival 101 Scenario.p1000)
           (Scenario.arrival 101 Scenario.p1001)
           (Scenario.arrival 101 Scenario.p1002)
           (Scenario.arrival 101 Scenario.p1001)
           (Scenario.arrival 101 Scenario.p1000)
           (Scenario.arrival 101 Scenario.p1002));
    try reflexivity;
    try (vm_compute; split; (reflexivity || discriminate));
    try (vm_compute; discriminate);
    try (repeat split; reflexivity).
Defined.

(** C8 as the spec words it fails: on a session that has not seen the stream
    yet, the first packet to arrive takes the write cursor, so the order
    1001, 1000, 1002 leaves every payload one frame earlier than the order
    1000, 1001, 1002, and the two buffers differ. *)
Lemma arrival_order_shifts_unbound_session :
  let qa := memblockq (Scenario.feed
                         [Scenario.p1000; Scenario.p1001; Scenario.p1002]
                         (Scenario.unbound 1000)) in
  let qb := memblockq (Scenario.feed
                         [Scenario.p1001; Scenario.p1000; Scenario.p1002]
                         (Scenario.unbound 1000)) in
  blocks qa <> blocks qb /\
  blocks qa !! 0 = Some Byte.x10 /\ blocks qb !! (-4) = Some Byte.x10 /\
  blocks qa !! 4 = Some Byte.x20 /\ blocks qb !! 0 = Some Byte.x20 /\
  blocks qa !! 8 = Some Byte.x30 /\ blocks qb !! 4 = Some Byte.x30 /\
  write_index qa = 12 /\ write_index qb = 8.
Proof.
  intros qa qb. split.
  - intros H. assert (E : blocks qa !! 0 = blocks qb !! 0) by (rewrite H; reflexivity).
    vm_compute in E. discriminate E.
  - vm_compute. repeat split; reflexivity.
Qed.

(** ** The session registry *)

Lemma llist_remove_elem (a b : ptr) (l : list ptr) :
  NoDup l -> (b ∈ llist_remove a l <-> b ∈ l /\ b <> a).
Proof.
  induction l as [|c rest IH]; intros Hnd; cbn [llist_remove].
  - split; [intros H; inversion H|intros [H _]; inversion H].
  - apply NoDup_cons in Hnd. destruct Hnd as [Hc Hnd].
    destruct (decide (a = c)) as [->|Hne].
    + rewrite elem_of_cons. split.
      * intros Hb. split; [now right|]. intros ->. contradiction.
      * intros [[->|Hb] Hn]; [contradiction|assumption].
    + rewrite !elem_of_cons, (IH Hnd). split.
      * intros [->|[Hb Hn]]; [split; [now left|congruence]|split; [now right|assumption]].
      * intros [[->|Hb] Hn]; [now left|right; split; assumption].
Qed.

Lemma llist_remove_NoDup (a : ptr) (l : list ptr) :
  NoDup l -> NoDup (llist_remove a l).
Proof.
  induction l as [|c rest IH]; intros Hnd; cbn [llist_remove]; [assumption|].
  pose proof Hnd as Hnd'.
  apply NoDup_cons in Hnd. destruct Hnd as [Hc Hnd].
  destruct (decide (a = c)) as [->|Hne]; [assumption|].
  apply NoDup_cons. split; [|apply IH; assumption].
  rewrite (llist_remove_elem a c rest Hnd). tauto.
Qed.

Lemma llist_remove_length (a : ptr) (l : list ptr) :
  a ∈ l -> S (length (llist_remove a l)) = length l.
Proof.
  induction l as [|c rest IH]; intros Hin; cbn [llist_remove length].
  - inversion Hin.
  - destruct (decide (a = c)) as [->|Hne]; [reflexivity|].
    apply elem_of_cons in Hin. destruct Hin as [->|Hin]; [contradiction|].
    cbn [length]. rewrite (IH Hin). reflexivity.
Qed.

Lemma MAX_SESSIONS_eq : MAX_SESSIONS = 16.
Proof. reflexivity. Qed.

(** Freeing a live session keeps the registry consistent. *)
Lemma session_free_ok (a : ptr) (s : session) (u : userdata) :
  registry_ok u ->
  heap u !! a = Some s ->
  exists u' l,
    session_free a u = Some (u', l) /\
    registry_ok u' /\
    heap u' = delete a (heap u) /\
    check_death_event u' = check_death_event u.
Proof.
  intros [Hnd Hheap Horg Hsize Hcount Hmax] Ha.
  assert (Hin : a ∈ sessions u) by (apply Hheap; eauto).
  pose proof (llist_remove_length a (sessions u) Hin) as Hlen.
  assert (Hbo : by_origin u !! sdp.origin (sdp_info s) = Some a).
  { apply Horg. eauto. }
  unfold session_free. rewrite Ha.
  destruct (Z.ltb_spec (n_sessions u) 1) as [Hlt|Hge]; [lia|].
  eexists _, _. split; [reflexivity|]. split; [|split; reflexivity].
  rewrite MAX_SESSIONS_eq in Hmax.
  constructor; cbn [sessions heap by_origin n_sessions].
  - apply llist_remove_NoDup. assumption.
  - intros b. rewrite (llist_remove_elem a b (sessions u) Hnd), Hheap.
    destruct (decide (b = a)) as [->|Hne].
    + rewrite lookup_delete_eq. split; [tauto|]. intros [x Hx]. discriminate.
    + rewrite lookup_delete_ne by congruence. tauto.
  - intros o b. split.
    + intros Hl. apply lookup_delete_Some in Hl. destruct Hl as [Hne Hl].
      apply Horg in Hl. destruct Hl as (s' & Hs' & Ho).
      exists s'. split; [|assumption].
      rewrite lookup_delete_ne; [assumption|].
      intros <-. rewrite Ha in Hs'. congruence.
    + intros (s' & Hs' & Ho). apply lookup_delete_Some in Hs'.
      destruct Hs' as [Hne Hs']. apply lookup_delete_Some. split.
      * intros Heq. assert (by_origin u !! o = Some b) as Hb by (apply Horg; eauto).
        rewrite <- Heq in Hb. congruence.
      * apply Horg. eauto.
  - rewrite map_size_delete_Some by eauto. lia.
  - rewrite sint32_small by lia. lia.
  - rewrite sint32_small by lia. rewrite MAX_SESSIONS_eq. lia.
Qed.

Section RegistryFacts.

Variable pa_timeval_load : timeval -> Z.
Variable pa_timeval_add : timeval -> Z -> timeval.
Variable pa_frame_size : pa_sample_spec -> Z.
Variable pa_usec_to_bytes : Z -> pa_sample_spec -> Z.

Local Abbreviation session_new :=
  (session_new pa_timeval_load pa_frame_size pa_usec_to_bytes).
Local Abbreviation sap_event_cb :=
  (sap_event_cb pa_timeval_load pa_frame_size pa_usec_to_bytes).
Local Abbreviation check_death_event_cb := (check_death_event_cb pa_timeval_add).
Local Abbreviation pa__init := (pa__init pa_timeval_add).
Local Abbreviation handle :=
  (handle pa_timeval_load pa_timeval_add pa_frame_size pa_usec_to_bytes).
Local Abbreviation run :=
  (run pa_timeval_load pa_timeval_add pa_frame_size pa_usec_to_bytes).

Lemma pa__init_ok sink tv : registry_ok (pa__init sink tv).
Proof.
  constructor; cbn.
  - apply NoDup_nil. exact I.
  - intros a. rewrite lookup_empty. split; [intros H; inversion H|intros [x Hx]; discriminate].
  - intros o a. rewrite lookup_empty. split; [discriminate|].
    intros (s & Hs & _). rewrite lookup_empty in Hs. discriminate.
  - reflexivity.
  - reflexivity.
  - discriminate.
Qed.

(** At the session limit nothing is created and nothing changes. *)
Lemma session_new_full e info u :
  MAX_SESSIONS <= n_sessions u ->
  session_new e info u = (None, u, [Log pa_log "Session limit reached." []]).
Proof.
  intros H. unfold Registry.session_new.
  destruct (Z.leb_spec MAX_SESSIONS (n_sessions u)); [reflexivity|lia].
Qed.

(** A failed creation leaves the registry as it was; a successful one
    registers one more session and keeps the registry consistent. *)
Lemma session_new_ok e info u :
  registry_ok u ->
  by_origin u !! sdp.origin info = None ->
  (fst (fst (session_new e info u)) = None /\ snd (fst (session_new e info u)) = u) \/
  (exists a, fst (fst (session_new e info u)) = Some a /\
             heap u !! a = None /\
             by_origin (snd (fst (session_new e info u))) !! sdp.origin info = Some a /\
             registry_ok (snd (fst (session_new e info u)))).
Proof.
  intros [Hnd Hheap Horg Hsize Hcount Hmax] Hnew.
  unfold Registry.session_new.
  destruct (Z.leb_spec MAX_SESSIONS (n_sessions u)) as [Hfull|Hroom];
    [left; split; reflexivity|].
  destruct (ne_sink e); [|left; split; reflexivity].
  destruct (mcast_socket (ne_sys e)) as [fd l].
  destruct (fd <? 0); [left; split; reflexivity|].
  destruct (ne_sink_input e) as [i|]; [|left; split; reflexivity].
  right. cbn [fst snd].
  set (a := fresh (dom (heap u))).
  assert (Ha : heap u !! a = None).
  { apply (not_elem_of_dom (D := gset ptr)). apply is_fresh. }
  assert (Hnin : a ∉ sessions u).
  { intros Hin. apply Hheap in Hin. destruct Hin as [x Hx]. congruence. }
  exists a. split; [reflexivity|]. split; [exact Ha|].
  unfold pa_hashmap_put. rewrite Hnew. cbn [by_origin].
  split; [apply lookup_insert_eq|].
  rewrite MAX_SESSIONS_eq in *.
  assert (Hn : 0 <= n_sessions u) by lia.
  constructor; cbn [sessions heap by_origin n_sessions].
  - apply NoDup_cons. split; assumption.
  - intros b. rewrite elem_of_cons, Hheap.
    destruct (decide (b = a)) as [->|Hne].
    + rewrite lookup_insert_eq. split; eauto.
    + rewrite lookup_insert_ne by congruence. split; [intros [?|?]; [contradiction|assumption]|tauto].
  - intros o b. split.
    + intros Hl. apply lookup_insert_Some in Hl.
      destruct Hl as [[<- <-]|[Hne Hl]].
      * eexists. split; [apply lookup_insert_eq|reflexivity].
      * apply Horg in Hl. destruct Hl as (s' & Hs' & Ho).
        exists s'. split; [|assumption].
        rewrite lookup_insert_ne; [assumption|]. intros <-. congruence.
    + intros (s' & Hs' & Ho). apply lookup_insert_Some in Hs'.
      destruct Hs' as [[<- <-]|[Hne Hs']].
      * cbn [sdp_info] in Ho. subst o. apply lookup_insert_eq.
      * assert (Hb : by_origin u !! o = Some b) by (apply Horg; eauto).
        rewrite lookup_insert_ne; [assumption|]. intros <-. congruence.
  - rewrite map_size_insert_None by assumption. cbn [length]. lia.
  - rewrite sint32_small by lia. cbn [length]. lia.
  - rewrite sint32_small by lia. rewrite MAX_SESSIONS_eq. lia.
Qed.

(** A keep-alive stamps the session and touches nothing else. *)
Lemma keep_alive_ok (a : ptr) (s : session) (t : Z) (u : userdata) :
  registry_ok u ->
  heap u !! a = Some s ->
  registry_ok (set_heap (<[a := set_timestamp t s]> (heap u)) u).
Proof.
  intros [Hnd Hheap Horg Hsize Hcount Hmax] Ha.
  constructor; cbn [set_heap sessions heap by_origin n_sessions]; try assumption.
  - intros b. rewrite Hheap. destruct (decide (b = a)) as [->|Hne].
    + rewrite lookup_insert_eq, Ha. split; eauto.
    + rewrite lookup_insert_ne by congruence. tauto.
  - intros o b. rewrite Horg. destruct (decide (b = a)) as [->|Hne].
    + rewrite lookup_insert_eq, Ha. split.
      * intros (s' & [= <-] & Ho). eexists. split; [reflexivity|exact Ho].
      * intros (s' & [= <-] & Ho). eexists. split; [reflexivity|exact Ho].
    + rewrite lookup_insert_ne by congruence. tauto.
Qed.

Lemma sap_event_cb_ok i e u :
  registry_ok u ->
  exists u' l, sap_event_cb i e u = Some (u', l) /\ registry_ok u'.
Proof.
  intros Hok. destruct i as [| |goodbye info]; cbn [Registry.sap_event_cb]; eauto.
  destruct goodbye.
  - destruct (by_origin u !! sdp.origin info) as [a|] eqn:Hl; eauto.
    apply (ok_origin u Hok) in Hl. destruct Hl as (s & Hs & _).
    destruct (session_free_ok a s u Hok Hs) as (u' & l & Hf & Hok' & _). eauto.
  - destruct (by_origin u !! sdp.origin info) as [a|] eqn:Hl.
    + apply (ok_origin u Hok) in Hl. destruct Hl as (s & Hs & _).
      rewrite Hs. eexists _, _. split; [reflexivity|].
      apply keep_alive_ok; assumption.
    + destruct (session_new e info u) as [[r u'] l] eqn:Hn.
      eexists _, _. split; [reflexivity|].
      destruct (session_new_ok e info u Hok Hl) as [[_ Hu]|(a & _ & _ & _ & Hu)];
        rewrite Hn in Hu; cbn [fst snd] in Hu; [subst u'|]; assumption.
Qed.

(** The sweep, by the heap it leaves: of the sessions it visits, those past
    the deadline are gone and the others are untouched. *)
Lemma sweep_spec now (l : list ptr) (u : userdata) :
  registry_ok u ->
  NoDup l ->
  (forall a, a ∈ l -> a ∈ sessions u) ->
  exists u' lg,
    sweep now l u = Some (u', lg) /\
    registry_ok u' /\
    check_death_event u' = check_death_event u /\
    (forall a, heap u' !! a =
               if decide (a ∈ l)
               then match heap u !! a with
                    | Some s => if expired now s then None else Some s
                    | None => None
                    end
               else heap u !! a).
Proof.
  revert u. induction l as [|a n IH]; intros u Hok Hnd Hsub; cbn [sweep].
  - eexists _, _. split; [reflexivity|]. split; [assumption|].
    split; [reflexivity|]. intros a. case_decide as H; [inversion H|reflexivity].
  - apply NoDup_cons in Hnd. destruct Hnd as [Han Hnd].
    assert (Hin : a ∈ sessions u) by (apply Hsub; left).
    apply (ok_heap u Hok) in Hin. destruct Hin as [s Hs]. rewrite Hs.
    fold (expired now s). destruct (expired now s) eqn:He.
    + destruct (session_free_ok a s u Hok Hs) as (u1 & l1 & Hf & Hok1 & Hh1 & Ht1).
      rewrite Hf.
      destruct (IH u1 Hok1 Hnd) as (u2 & l2 & Hsw & Hok2 & Ht2 & Hh2).
      { intros b Hb. apply (ok_heap u1 Hok1). rewrite Hh1.
        rewrite lookup_delete_ne by (intros <-; contradiction).
        apply (ok_heap u Hok). apply Hsub. now right. }
      rewrite Hsw. eexists _, _. split; [reflexivity|]. split; [assumption|].
      split; [congruence|].
      intros b. rewrite Hh2, Hh1. destruct (decide (b = a)) as [->|Hne].
      * rewrite lookup_delete_eq.
        rewrite (decide_True (P := a ∈ a :: n)) by (left).
        rewrite Hs, He. case_decide; reflexivity.
      * rewrite lookup_delete_ne by congruence.
        repeat case_decide; try reflexivity.
        -- exfalso. apply H0. now right.
        -- exfalso. apply elem_of_cons in H0. destruct H0; [congruence|contradiction].
    + destruct (IH u Hok Hnd) as (u2 & l2 & Hsw & Hok2 & Ht2 & Hh2).
      { intros b Hb. apply Hsub. now right. }
      rewrite Hsw. eexists _, _. split; [reflexivity|]. split; [assumption|].
      split; [assumption|].
      intros b. rewrite Hh2. destruct (decide (b = a)) as [->|Hne].
      * rewrite (decide_False (P := a ∈ n)) by assumption.
        rewrite (decide_True (P := a ∈ a :: n)) by (left).
        rewrite Hs, He. reflexivity.
      * repeat case_decide; try reflexivity.
        -- exfalso. apply H0. now right.
        -- exfalso. apply elem_of_cons in H0. destruct H0; [congruence|contradiction].
Qed.

Lemma check_death_event_cb_ok now tv u :
  registry_ok u ->
  exists u' l,
    check_death_event_cb now tv u = Some (u', l) /\
    registry_ok u' /\
    check_death_event u' = pa_timeval_add tv (DEATH_TIMEOUT * PA_USEC_PER_SEC) /\
    (forall a, heap u' !! a =
               match heap u !! a with
               | Some s => if expired now s then None else Some s
               | None => None
               end).
Proof.
  intros Hok.
  destruct (sweep_spec now (sessions u) u Hok (ok_nodup u Hok))
    as (u1 & l1 & Hsw & [Hnd Hheap Horg Hsize Hcount Hmax] & Ht & Hh); [auto|].
  unfold Registry.check_death_event_cb. rewrite Hsw.
  eexists _, _. split; [reflexivity|]. split; [|split; [reflexivity|]].
  - constructor; cbn [set_check_death_event sessions heap by_origin n_sessions];
      assumption.
  - intros a. cbn [set_check_death_event heap]. rewrite Hh.
    case_decide as Hin; [reflexivity|].
    destruct (heap u !! a) as [s|] eqn:Hs; [|reflexivity].
    exfalso. apply Hin. apply (ok_heap u Hok). eauto.
Qed.

Lemma handle_ok ev u :
  registry_ok u ->
  exists u' l, handle ev u = Some (u', l) /\ registry_ok u'.
Proof.
  intros Hok. destruct ev as [i e|now tv|a]; cbn [Registry.handle].
  - apply sap_event_cb_ok. assumption.
  - destruct (check_death_event_cb_ok now tv u Hok) as (u' & l & H & Hok' & _).
    eauto.
  - destruct (heap u !! a) as [s|] eqn:Hs; [|eauto].
    destruct (session_free_ok a s u Hok Hs) as (u' & l & Hf & Hok' & _). eauto.
Qed.

Lemma run_ok evs u :
  registry_ok u ->
  exists u' l, run evs u = Some (u', l) /\ registry_ok u'.
Proof.
  revert u. induction evs as [|ev rest IH]; intros u Hok; cbn [Registry.run].
  - eauto.
  - destruct (handle_ok ev u Hok) as (u1 & l1 & H1 & Hok1). rewrite H1.
    destruct (IH u1 Hok1) as (u2 & l2 & H2 & Hok2). rewrite H2. eauto.
Qed.

(** C4: whatever events reach a freshly loaded module, the registry never
    holds more than [MAX_SESSIONS] = 16 sessions; at the limit a creation
    is refused ("Session limit reached.", no session returned) and leaves
    the registry as it was; a goodbye for an origin that is not registered
    changes nothing. *)
Theorem registry_within_capacity (evs : list event) (sink : option string)
    (tv : timeval) (u : userdata) (e : new_env) (info : sdp.pa_sdp_info) :
  (exists u' l,
     run evs (pa__init sink tv) = Some (u', l) /\
     registry_ok u' /\
     n_sessions u' <= 16 /\
     (length (sessions u') <= 16)%nat /\
     (size (by_origin u') <= 16)%nat /\
     (size (heap u') <= 16)%nat) /\
  (MAX_SESSIONS <= n_sessions u ->
     session_new e info u = (None, u, [Log pa_log "Session limit reached." []]) /\
     (by_origin u !! sdp.origin info = None ->
      sap_event_cb (Announcement false info) e u =
      Some (u, [Log pa_log "Session limit reached." []]))) /\
  (by_origin u !! sdp.origin info = None ->
     sap_event_cb (Announcement true info) e u = Some (u, [])).
Proof.
  split; [|split].
  - destruct (run_ok evs (pa__init sink tv) (pa__init_ok sink tv))
      as (u' & l & Hrun & Hok).
    exists u', l. split; [assumption|]. split; [assumption|].
    destruct Hok as [Hnd Hheap Horg Hsize Hcount Hmax].
    rewrite MAX_SESSIONS_eq in Hmax.
    assert (Hsz : size (heap u') = length (sessions u')).
    { rewrite <- (size_dom (D := gset ptr)).
      rewrite <- (size_list_to_set (C := gset ptr) (sessions u')) by assumption.
      f_equal. apply set_eq. intros a.
      rewrite elem_of_dom, elem_of_list_to_set. symmetry. apply Hheap. }
    repeat split; lia.
  - intros Hfull. split; [apply session_new_full; assumption|].
    intros Hnew. cbn [Registry.sap_event_cb]. rewrite Hnew.
    rewrite session_new_full by assumption. reflexivity.
  - intros Hnew. cbn [Registry.sap_event_cb]. rewrite Hnew. reflexivity.
Qed.

(** C10: a sweep destroys a session exactly when [now] minus its
    [last_seen] exceeds [DEATH_TIMEOUT]; the others survive unchanged; and
    the timer is rearmed [DEATH_TIMEOUT] seconds ahead whatever was
    reaped. *)
Theorem death_sweep_reaps_expired (now tv : timeval) (u : userdata) :
  registry_ok u ->
  (forall a s, heap u !! a = Some s ->
               - 2 ^ 31 <= timestamp s /\ timestamp s + DEATH_TIMEOUT < 2 ^ 31) ->
  exists u' l,
    check_death_event_cb now tv u = Some (u', l) /\
    registry_ok u' /\
    (forall a s, heap u !! a = Some s ->
       (a ∉ sessions u' <-> tv_sec now - timestamp s > DEATH_TIMEOUT) /\
       (tv_sec now - timestamp s > DEATH_TIMEOUT ->
        heap u' !! a = None /\
        by_origin u' !! sdp.origin (sdp_info s) = None) /\
       (tv_sec now - timestamp s <= DEATH_TIMEOUT ->
        a ∈ sessions u' /\ heap u' !! a = Some s /\
        by_origin u' !! sdp.origin (sdp_info s) = Some a)) /\
    (forall a, a ∈ sessions u' -> a ∈ sessions u) /\
    check_death_event u' = pa_timeval_add tv (DEATH_TIMEOUT * PA_USEC_PER_SEC).
Proof.
  clear pa_timeval_load pa_frame_size pa_usec_to_bytes.
  intros Hok Hrange.
  destruct (check_death_event_cb_ok now tv u Hok) as (u' & l & Hcb & Hok' & Ht & Hh).
  exists u', l. split; [assumption|]. split; [assumption|].
  assert (Hexp : forall a s, heap u !! a = Some s ->
            (expired now s = true <-> tv_sec now - timestamp s > DEATH_TIMEOUT)).
  { intros a s Hs. destruct (Hrange a s Hs) as [Hlo Hhi].
    unfold expired. unfold DEATH_TIMEOUT in *.
    rewrite sint32_small by lia. rewrite Z.ltb_lt. lia. }
  split; [|split; [|assumption]].
  - intros a s Hs. specialize (Hexp a s Hs).
    pose proof (Hh a) as Ha. rewrite Hs in Ha.
    assert (Hbo : by_origin u !! sdp.origin (sdp_info s) = Some a).
    { apply (ok_origin u Hok). eauto. }
    destruct (expired now s) eqn:He.
    + assert (Hgt : tv_sec now - timestamp s > DEATH_TIMEOUT) by (apply Hexp; reflexivity).
      assert (Hnin : a ∉ sessions u').
      { intros Hin. apply (ok_heap u' Hok') in Hin. destruct Hin as [x Hx]. congruence. }
      split; [tauto|]. split; [|lia].
      intros _. split; [assumption|].
      destruct (by_origin u' !! sdp.origin (sdp_info s)) as [b|] eqn:Hb; [|reflexivity].
      exfalso. apply (ok_origin u' Hok') in Hb. destruct Hb as (s' & Hs' & Ho).
      pose proof (Hh b) as Hb'. rewrite Hs' in Hb'.
      destruct (heap u !! b) as [sb|] eqn:Hsb; [|discriminate].
      destruct (expired now sb); [discriminate|]. injection Hb' as ->.
      assert (by_origin u !! sdp.origin (sdp_info s) = Some b) as Hbo'.
      { apply (ok_origin u Hok). eauto. }
      rewrite Hbo in Hbo'. injection Hbo' as <-. congruence.
    + assert (Hle : ~ tv_sec now - timestamp s > DEATH_TIMEOUT).
      { intros Hgt. apply Hexp in Hgt. discriminate. }
      assert (Hin : a ∈ sessions u') by (apply (ok_heap u' Hok'); eauto).
      split; [tauto|]. split; [tauto|].
      intros _. split; [assumption|]. split; [assumption|].
      apply (ok_origin u' Hok'). eauto.
  - intros a Hin. apply (ok_heap u' Hok') in Hin. destruct Hin as [x Hx].
    apply (ok_heap u Hok). rewrite Hh in Hx.
    destruct (heap u !! a); [eauto|discriminate].
Qed.

End RegistryFacts.

(** ** The registry theorems on concrete runs *)

Lemma after_ok (evs : list event) : registry_ok (Scenario.after evs).
Proof.
  unfold Scenario.after, Scenario.run, Scenario.loaded.
  destruct (run_ok Scenario.timeval_load Scenario.timeval_add
              Scenario.s16_frame_size Scenario.usec_to_bytes evs
              (pa__init Scenario.timeval_add (Some "output"%string)
                 (Scenario.at_second 90))
              (pa__init_ok Scenario.timeval_add _ _))
    as (u & l & Hrun & Hok).
  rewrite Hrun. exact Hok.
Qed.

Lemma registry_within_capacity_witness :
  let u := Scenario.after Scenario.crowd in
  let e := Scenario.world_at 101 in
  n_sessions u = 16 /\
  session_new Scenario.timeval_load Scenario.s16_frame_size
    Scenario.usec_to_bytes e (Scenario.announced "s17") u
  = (None, u, [Log pa_log "Session limit reached." []]) /\
  sap_event_cb Scenario.timeval_load Scenario.s16_frame_size
    Scenario.usec_to_bytes (Announcement true (Scenario.announced "s17")) e u
  = Some (u, []).
Proof.
  intros u e.
  destruct (registry_within_capacity Scenario.timeval_load Scenario.timeval_add
              Scenario.s16_frame_size Scenario.usec_to_bytes
              Scenario.crowd (Some "output"%string) (Scenario.at_second 90)
              u e (Scenario.announced "s17"))
    as (_ & Hfull & Hbye).
  split; [vm_compute; reflexivity|]. split.
  - apply Hfull. vm_compute. discriminate.
  - apply Hbye. vm_compute. reflexivity.
Defined.

Lemma death_sweep_reaps_expired_witness :
  exists u' l,
    check_death_event_cb Scenario.timeval_add (Scenario.at_second 125)
      (Scenario.at_second 1000) (Scenario.after Scenario.duo) = Some (u', l) /\
    sessions u' = [1%nat] /\
    check_death_event u' = Scenario.at_second 1020.
Proof.
  destruct (death_sweep_reaps_expired Scenario.timeval_add
              (Scenario.at_second 125) (Scenario.at_second 1000)
              (Scenario.after Scenario.duo) (after_ok Scenario.duo))
    as (u' & l & Hcb & _ & _ & _ & Ht).
  - intros a s H.
    apply (elem_of_map_to_list (heap (Scenario.after Scenario.duo))) in H.
    remember (map_to_list (heap (Scenario.after Scenario.duo))) as live eqn:E.
    vm_compute in E. subst live.
    repeat (apply elem_of_cons in H; destruct H as [H|H];
            [injection H as -> ->; vm_compute; split; [discriminate|reflexivity]|]).
    inversion H.
  - exists u', l. split; [exact Hcb|].
    vm_compute in Hcb. injection Hcb as <- <-.
    split; reflexivity.
Defined.

(* ===================================================================== *)
(** * Further properties of the code *)
(* ===================================================================== *)

(** ** Gaps and late packets across the 32-bit wraparound *)

Lemma uint32_wrap_once x : 2 ^ 32 <= x < 2 ^ 33 -> uint32 x = x - 2 ^ 32.
Proof.
  intros H. unfold uint32. symmetry.
  apply (Z.mod_unique x (2 ^ 32) 1); lia.
Qed.

Lemma uint32_borrow_once x : - 2 ^ 32 <= x < 0 -> uint32 x = x + 2 ^ 32.
Proof.
  intros H. unfold uint32. symmetry.
  apply (Z.mod_unique x (2 ^ 32) (-1)); lia.
Qed.

(** The delta in closed form: the direct difference unless it is at or
    below [-2^31], in which case one wraparound is added. *)
Lemma timestamp_delta_cases expected ts :
  0 <= expected < 2 ^ 32 -> 0 <= ts < 2 ^ 32 ->
  timestamp_delta expected ts =
  if ts - expected <=? - 2 ^ 31 then ts - expected + 2 ^ 32 else ts - expected.
Proof.
  intros He Hts. unfold timestamp_delta.
  rewrite (direct_difference_exact expected ts He Hts).
  rewrite (wraparound_difference_exact expected ts He Hts).
  rewrite !int64_abs_exact by lia.
  destruct (Z.ltb_spec (Z.abs (ts - expected)) (Z.abs (2 ^ 32 - expected + ts)));
    destruct (Z.leb_spec (ts - expected) (- 2 ^ 31)); lia.
Qed.

(** X1: a packet that is [g] frames ahead of the expected timestamp, with
    [g] up to [2^31], yields the delta [g], also when its timestamp has
    wrapped around 2^32. *)
Theorem forward_gap_recovered (expected g : Z) :
  0 <= expected < 2 ^ 32 -> 0 <= g <= 2 ^ 31 ->
  timestamp_delta expected (uint32 (expected + g)) = g.
Proof.
  intros He Hg.
  pose proof (uint32_range (expected + g)) as Hr.
  rewrite timestamp_delta_cases by assumption.
  destruct (Z.lt_ge_cases (expected + g) (2 ^ 32)) as [Hs|Hw].
  - rewrite uint32_small by lia.
    destruct (Z.leb_spec (expected + g - expected) (- 2 ^ 31)); lia.
  - rewrite uint32_wrap_once by lia.
    destruct (Z.leb_spec (expected + g - 2 ^ 32 - expected) (- 2 ^ 31)); lia.
Qed.

Lemma forward_gap_recovered_witness :
  timestamp_delta 0xFFFFFFF0 (uint32 (0xFFFFFFF0 + 2 ^ 31)) = 2 ^ 31.
Proof. apply (forward_gap_recovered 0xFFFFFFF0 (2 ^ 31)); lia. Defined.

(** X2: a packet that is [b] frames late, [b] below [2^31], yields the delta
    [-b] as long as the expected timestamp has not wrapped since the packet
    was sent ([b <= expected]); when it has, the packet is taken for a jump
    ahead by [2^32 - b] frames. *)
Theorem late_packet_delta (expected b : Z) :
  0 <= expected < 2 ^ 32 -> 0 < b < 2 ^ 31 ->
  timestamp_delta expected (uint32 (expected - b)) =
  if b <=? expected then - b else 2 ^ 32 - b.
Proof.
  intros He Hb.
  pose proof (uint32_range (expected - b)) as Hr.
  rewrite timestamp_delta_cases by assumption.
  destruct (Z.leb_spec b expected) as [Hs|Hw].
  - rewrite uint32_small by lia.
    destruct (Z.leb_spec (expected - b - expected) (- 2 ^ 31)); lia.
  - rewrite uint32_borrow_once by lia.
    destruct (Z.leb_spec (expected - b + 2 ^ 32 - expected) (- 2 ^ 31)); lia.
Qed.

Lemma late_packet_delta_witness :
  timestamp_delta 1002 (uint32 (1002 - 2)) = - 2 /\
  timestamp_delta 0x10 (uint32 (0x10 - 32)) = 2 ^ 32 - 32.
Proof.
  split.
  - apply (late_packet_delta 1002 2); lia.
  - apply (late_packet_delta 0x10 32); lia.
Defined.

(** ** The controller's arithmetic *)

Section ControllerArithmetic.

Variable pa_timeval_load : timeval -> Z.
Variable pa_bytes_to_usec : Z -> pa_sample_spec -> Z.
Variable pa_smoother_get : pa_smoother -> Z -> Z.

Local Abbreviation measured_latency :=
  (measured_latency pa_timeval_load pa_bytes_to_usec pa_smoother_get).
Local Abbreviation fix_samples :=
  (fix_samples pa_timeval_load pa_bytes_to_usec pa_smoother_get).
Local Abbreviation update_rate :=
  (update_rate pa_timeval_load pa_bytes_to_usec pa_smoother_get).

(** X3: the measured latency is the smoothed write position minus the read
    position, the read position being first reduced by what is pending
    downstream (render queue plus sink latency, a failed latency query
    counting as zero); both subtractions stop at zero instead of wrapping,
    so the result lies between zero and the write position. *)
Theorem measured_latency_clamped (now : timeval) (reply : option Z) (s : session) :
  let i := sink_input s in
  let wi := uint64 (pa_smoother_get (smoother s) (pa_timeval_load now)) in
  let ri := uint64 (pa_bytes_to_usec (uint64 (read_index (memblockq s)))
                      (sample_spec i)) in
  let pending :=
    uint64 (pa_bytes_to_usec (thread_info_render_memblockq i)
              (sink_sample_spec (sink i)))
    + match reply with Some d => uint64 d | None => 0 end in
  pending < 2 ^ 64 ->
  measured_latency now reply s = Z.max 0 (wi - Z.max 0 (ri - pending)) /\
  0 <= measured_latency now reply s <= wi.
Proof.
  intros i wi ri pending Hp.
  unfold RtpRecv.measured_latency, pa_memblockq_get_read_index.
  fold i. fold wi. fold ri.
  set (sd := match reply with Some d => uint64 d | None => 0 end) in *.
  set (rd := uint64 (pa_bytes_to_usec (thread_info_render_memblockq i)
                       (sink_sample_spec (sink i)))) in *.
  pose proof (uint64_range (pa_smoother_get (smoother s) (pa_timeval_load now))) as Hwi.
  fold wi in Hwi.
  pose proof (uint64_range (pa_bytes_to_usec (uint64 (read_index (memblockq s)))
                              (sample_spec i))) as Hri.
  fold ri in Hri.
  assert (Hrd : 0 <= rd) by (subst rd; apply uint64_range).
  assert (Hsd : 0 <= sd).
  { subst sd. destruct reply; [apply uint64_range|lia]. }
  subst pending. rewrite (uint64_small (rd + sd)) by lia.
  destruct (Z.ltb_spec (rd + sd) ri) as [H1|H1].
  - rewrite (uint64_small (ri - (rd + sd))) by lia.
    destruct (Z.ltb_spec wi (ri - (rd + sd))) as [H2|H2].
    + lia.
    + rewrite uint64_small by lia. lia.
  - destruct (Z.ltb_spec wi 0) as [H2|H2]; [lia|].
    rewrite uint64_small by lia. lia.
Qed.

Lemma measured_latency_range now reply s :
  0 <= measured_latency now reply s < 2 ^ 64.
Proof.
  unfold RtpRecv.measured_latency.
  match goal with |- context [if ?c then 0 else uint64 ?x] =>
    destruct c; [lia|apply uint64_range] end.
Qed.

Lemma rate_fix_abs latency intended :
  0 <= latency < 2 ^ 64 -> 0 <= intended < 2 ^ 64 ->
  rate_fix latency intended = Z.abs (latency - intended).
Proof.
  intros Hl Hi. unfold rate_fix.
  destruct (Z.ltb_spec latency intended); rewrite uint64_small; lia.
Qed.

(** A deviation of at most one second asks for at most a fifth of the
    rate. *)
Lemma fix_samples_of_second fix_ r :
  0 <= fix_ <= PA_USEC_PER_SEC -> 0 <= r < 2 ^ 32 ->
  0 <= fix_samples_of fix_ r /\ 5 * fix_samples_of fix_ r <= r.
Proof.
  unfold PA_USEC_PER_SEC. intros Hf Hr. unfold fix_samples_of.
  rewrite (uint64_small r) by lia.
  assert (HP : 0 <= fix_ * r <= 1000000 * r) by nia.
  rewrite (uint64_small (fix_ * r)) by lia.
  rewrite (uint64_small RATE_UPDATE_INTERVAL) by (vm_compute; split; congruence).
  change RATE_UPDATE_INTERVAL with 5000000.
  pose proof (Z.div_mod (fix_ * r) 5000000 ltac:(lia)) as Hdm.
  pose proof (Z.mod_pos_bound (fix_ * r) 5000000 ltac:(lia)) as Hmod.
  rewrite uint32_small by lia. lia.
Qed.

(** X4: when the session runs at its nominal rate and the measured latency
    is within one second of the intended one, the correction is at most a
    fifth of the rate, the update logs no "too large" line, and the rate
    moves by exactly the correction. *)
Theorem deviation_within_a_second_in_bounds (now : timeval) (reply : option Z)
    (s : session) :
  let i := sink_input s in
  let r := rate (sample_spec i) in
  let latency := measured_latency now reply s in
  let fs := fix_samples now reply s in
  let out := update_rate now reply s in
  let r' := rate (sample_spec (sink_input (fst out))) in
  rate (thread_info_sample_spec i) = r ->
  0 <= r <= 2 ^ 31 ->
  0 <= intended_latency s < 2 ^ 64 ->
  Z.abs (latency - intended_latency s) <= PA_USEC_PER_SEC ->
  5 * fs <= r /\
  Lifecycle.logged (snd out) =
    ["Updating sample rate";
     "Write index deviates by %0.2f ms, expected %0.2f ms";
     "Updated sampling rate to %lu Hz."]%string /\
  Z.abs (r' - r) = fs.
Proof.
  intros i r latency fs out r' Hnom Hr Hint Hdev.
  pose proof (measured_latency_range now reply s) as Hlat. fold latency in Hlat.
  assert (Hfs : 0 <= fs /\ 5 * fs <= r).
  { subst fs. unfold RtpRecv.fix_samples. fold i. rewrite Hnom. fold latency.
    apply fix_samples_of_second; [|lia].
    rewrite rate_fix_abs by assumption. lia. }
  split; [apply Hfs|].
  subst out r'. unfold RtpRecv.update_rate. fold i. fold fs. fold latency. fold r.
  rewrite fix_too_large_fifth by lia.
  destruct (Z.ltb_spec r (5 * fs)) as [?|_]; [lia|].
  split; [reflexivity|].
  cbn [fst set_last_rate_update set_sink_input sink_input set_input_rate
         sample_spec set_rate rate].
  destruct (latency <? intended_latency s); rewrite uint32_small; lia.
Qed.

(** X5: an update stamps [last_rate_update] with the current time, after
    which no update is due until more than [RATE_UPDATE_INTERVAL] has
    passed. *)
Theorem rate_update_not_due_again (now now' : timeval) (reply : option Z)
    (s : session) :
  0 <= pa_timeval_load now ->
  pa_timeval_load now + RATE_UPDATE_INTERVAL < 2 ^ 64 ->
  0 <= pa_timeval_load now' <= pa_timeval_load now + RATE_UPDATE_INTERVAL ->
  last_rate_update (fst (update_rate now reply s)) = pa_timeval_load now /\
  rate_update_due pa_timeval_load now' (fst (update_rate now reply s)) = false.
Proof.
  intros H0 Hhi Hwin. split; [reflexivity|].
  unfold rate_update_due. cbn [fst RtpRecv.update_rate last_rate_update
                                 set_last_rate_update].
  assert (0 < RATE_UPDATE_INTERVAL) by reflexivity.
  rewrite !uint64_small by lia. apply Z.ltb_ge. lia.
Qed.

End ControllerArithmetic.

Lemma measured_latency_clamped_witness :
  measured_latency Scenario.timeval_load Scenario.bytes_to_usec
    Scenario.newest_sample (Scenario.at_second 106) None
    (Scenario.writing_at 400000 (Scenario.unbound 1000)) = 400000.
Proof.
  apply (measured_latency_clamped Scenario.timeval_load Scenario.bytes_to_usec
           Scenario.newest_sample (Scenario.at_second 106) None
           (Scenario.writing_at 400000 (Scenario.unbound 1000))).
  vm_compute. reflexivity.
Defined.

Lemma deviation_within_a_second_in_bounds_witness :
  let s := Scenario.writing_at 400000 (Scenario.unbound 1000) in
  5 * fix_samples Scenario.timeval_load Scenario.bytes_to_usec
        Scenario.newest_sample (Scenario.at_second 106) (Some 0) s
  <= rate (sample_spec (sink_input s)).
Proof.
  intros s.
  apply (deviation_within_a_second_in_bounds Scenario.timeval_load
           Scenario.bytes_to_usec Scenario.newest_sample
           (Scenario.at_second 106) (Some 0) s).
  - reflexivity.
  - vm_compute. split; congruence.
  - vm_compute. split; congruence.
  - vm_compute. congruence.
Defined.

Lemma rate_update_not_due_again_witness :
  let s := Scenario.writing_at 400000 (Scenario.unbound 1000) in
  rate_update_due Scenario.timeval_load (Scenario.at_second 111)
    (fst (Scenario.update_rate (Scenario.at_second 106) (Some 0) s)) = false.
Proof.
  intros s.
  apply (rate_update_not_due_again Scenario.timeval_load Scenario.bytes_to_usec
           Scenario.newest_sample (Scenario.at_second 106)
           (Scenario.at_second 111) (Some 0) s).
  - vm_compute. congruence.
  - vm_compute. reflexivity.
  - vm_compute. split; congruence.
Defined.

(** ** What a run of the callback does and does not touch *)

Lemma bind_stream_frame c s s1 l1 :
  bind_stream c s = Some (s1, l1) ->
  sink_input s1 = sink_input s /\ last_rate_update s1 = last_rate_update s /\
  smoother s1 = smoother s /\ timestamp s1 = timestamp s /\
  intended_latency s1 = intended_latency s /\ sink_latency s1 = sink_latency s /\
  offset s1 = (if first_packet s then offset s else rtp.timestamp (rtp_context s)) /\
  l1 = (if first_packet s then []
        else if rtp.ssrc (rtp_context s) =? c
             then [Log pa_log_warn "Detected RTP packet loop!" []] else []).
Proof.
  unfold bind_stream. destruct (first_packet s); cbn.
  - destruct (ssrc s =? rtp.ssrc (rtp_context s)); cbn; [|discriminate].
    intros [= <- <-]. repeat split; reflexivity.
  - intros [= <- <-]. cbn. repeat split; reflexivity.
Qed.

Lemma jitter_write_frame bq expected ts fs chunk :
  read_index (jitter_write bq expected ts fs chunk) = read_index bq /\
  prebuf (jitter_write bq expected ts fs chunk) = prebuf bq.
Proof.
  unfold jitter_write, pa_memblockq_push.
  destruct (_ <? _); cbn; auto.
Qed.

Section CallbackFrame.

Variable pa_timeval_load : timeval -> Z.
Variable pa_bytes_to_usec : Z -> pa_sample_spec -> Z.
Variable pa_smoother_get : pa_smoother -> Z -> Z.
Variable pa_memblockq_is_readable : pa_memblockq -> bool.

Local Abbreviation rtpoll_work_cb :=
  (rtpoll_work_cb pa_timeval_load pa_bytes_to_usec pa_smoother_get
     pa_memblockq_is_readable).
Local Abbreviation enqueue := (enqueue pa_timeval_load pa_bytes_to_usec).
Local Abbreviation update_rate :=
  (update_rate pa_timeval_load pa_bytes_to_usec pa_smoother_get).
Local Abbreviation rate_update_due := (rate_update_due pa_timeval_load).
Local Abbreviation ingested :=
  (ingested pa_timeval_load pa_bytes_to_usec pa_smoother_get).

(** The condition under which lines 199-230 let a packet through. *)
Lemma accepted_dec e p s :
  (readable p /\ exists pk, env_recv e = Some pk /\
                            pk_payload pk = sdp.payload (sdp_info s) /\
                            (first_packet s = false \/ pk_ssrc pk = ssrc s))
  \/ (ret (rtpoll_work_cb e p s) <> 1 /\
      (ret (rtpoll_work_cb e p s) = -1 <->
       Z.land (revents p)
         (Z.lor POLLERR (Z.lor POLLNVAL (Z.lor POLLHUP POLLOUT))) <> 0) /\
      (sess (rtpoll_work_cb e p s) = s \/
       exists pk, env_recv e = Some pk /\
         sess (rtpoll_work_cb e p s)
         = set_rtp_context (received pk (rtp_context s)) s) /\
      (trace (rtpoll_work_cb e p s) = [] \/ ret (rtpoll_work_cb e p s) = -1) /\
      ~ (readable p /\ exists pk, env_recv e = Some pk /\
                            pk_payload pk = sdp.payload (sdp_info s) /\
                            (first_packet s = false \/ pk_ssrc pk = ssrc s))).
Proof.
  destruct (revents_cases p) as [Hbad|[[H1 H2]|Hr]].
  - right. rewrite rtpoll_work_cb_bad_revents by assumption. cbn.
    repeat split; try tauto; try discriminate; auto.
    intros [[Hq _] _]. contradiction.
  - right. rewrite rtpoll_work_cb_not_readable by assumption. cbn.
    repeat split; try tauto; try discriminate; auto.
    intros [[_ Hq] _]. contradiction.
  - pose proof Hr as [Hq _].
    destruct (env_recv e) as [pk|] eqn:Hrecv.
    2:{ right. rewrite rtpoll_work_cb_readable by assumption. rewrite Hrecv. cbn.
        repeat split; try tauto; try discriminate; auto.
        intros [_ (pk & Hpk & _)]. discriminate. }
    destruct (Z.eqb_spec (sdp.payload (sdp_info s)) (pk_payload pk)) as [Hpay|Hpay].
    2:{ right. rewrite rtpoll_work_cb_readable by assumption. rewrite Hrecv.
        cbn zeta.
        destruct (Z.eqb_spec (sdp.payload (sdp_info s)) (pk_payload pk)); [contradiction|].
        cbn. repeat split; try tauto; try discriminate; eauto.
        intros [_ (pk' & Hpk & Hp & _)]. congruence. }
    destruct (first_packet s) eqn:Hf.
    + destruct (Z.eqb_spec (ssrc s) (pk_ssrc pk)) as [Hs|Hs].
      * left. split; [assumption|]. exists pk. auto.
      * right. rewrite rtpoll_work_cb_readable by assumption. rewrite Hrecv.
        cbn zeta.
        destruct (Z.eqb_spec (sdp.payload (sdp_info s)) (pk_payload pk)); [|contradiction].
        cbn [negb].
        rewrite bind_stream_bound by exact Hf.
        cbn [ssrc set_rtp_context rtp_context received rtp.ssrc].
        destruct (Z.eqb_spec (ssrc s) (pk_ssrc pk)); [contradiction|].
        cbn. repeat split; try tauto; try discriminate; eauto.
        intros [_ (pk' & Hpk & _ & [?|?])]; congruence.
    + left. split; [assumption|]. exists pk. auto.
Qed.

(** X6: the callback returns 1 exactly when a packet passed the poll, the
    decoder, the payload check and the stream check, and -1 exactly when
    poll reported an error; whenever it does not return 1, the jitter
    buffer, the expected timestamp, the smoother, [last_seen], the rate and
    the binding are as before and nothing is requested from the sink
    input. *)
Theorem work_done_iff_packet_ingested (e : io_env) (p : pollfd) (s : session) :
  let o := rtpoll_work_cb e p s in
  (ret o = 1 <->
   readable p /\
   exists pk, env_recv e = Some pk /\
              pk_payload pk = sdp.payload (sdp_info s) /\
              (first_packet s = false \/ pk_ssrc pk = ssrc s)) /\
  (ret o = -1 <->
   Z.land (revents p) (Z.lor POLLERR (Z.lor POLLNVAL (Z.lor POLLHUP POLLOUT))) <> 0) /\
  (ret o = -1 \/ ret o = 0 \/ ret o = 1) /\
  (ret o <> 1 ->
   memblockq (sess o) = memblockq s /\ offset (sess o) = offset s /\
   smoother (sess o) = smoother s /\ timestamp (sess o) = timestamp s /\
   sink_input (sess o) = sink_input s /\
   last_rate_update (sess o) = last_rate_update s /\
   first_packet (sess o) = first_packet s /\ ssrc (sess o) = ssrc s /\
   ~ In RequestRewind (trace o)).
Proof.
  intros o. subst o.
  destruct (accepted_dec e p s) as [Hacc|(Hn1 & Hm1 & Hsess & Htr & Hnacc)].
  - destruct Hacc as [Hr (pk & Hrecv & Hpay & Hb)].
    destruct (rtpoll_work_cb_accepted pa_timeval_load pa_bytes_to_usec
                pa_smoother_get pa_memblockq_is_readable e p s pk Hr Hrecv Hpay Hb)
      as (s1 & l1 & _ & Hret & _).
    rewrite Hret. destruct Hr as [Hq Hin].
    repeat split; try tauto; try discriminate; eauto.
  - repeat split; try tauto.
    + destruct (revents_cases p) as [Hbad|[[H1 H2]|Hr]].
      * left. apply Hm1. assumption.
      * rewrite rtpoll_work_cb_not_readable by assumption. cbn. auto.
      * destruct (Z.eq_dec (ret (rtpoll_work_cb e p s)) 0) as [E0|N0]; [auto|].
        exfalso.
        rewrite rtpoll_work_cb_readable in N0, Hn1 by assumption.
        destruct (env_recv e); [|cbn in N0; lia]. cbn zeta in N0, Hn1.
        destruct (negb _); [cbn in N0; lia|].
        destruct (bind_stream _ _) as [[? ?]|]; cbn in N0, Hn1; lia.
    + destruct Hsess as [->|(pk & _ & ->)]; reflexivity.
    + destruct Hsess as [->|(pk & _ & ->)]; reflexivity.
    + destruct Hsess as [->|(pk & _ & ->)]; reflexivity.
    + destruct Hsess as [->|(pk & _ & ->)]; reflexivity.
    + destruct Hsess as [->|(pk & _ & ->)]; reflexivity.
    + destruct Hsess as [->|(pk & _ & ->)]; reflexivity.
    + destruct Hsess as [->|(pk & _ & ->)]; reflexivity.
    + destruct Hsess as [->|(pk & _ & ->)]; reflexivity.
    + intros Hin. destruct Htr as [Htr|Htr].
      * rewrite Htr in Hin. inversion Hin.
      * apply Hm1 in Htr.
        rewrite rtpoll_work_cb_bad_revents in Hin by assumption.
        cbn in Hin. destruct Hin as [?|[]]. discriminate.
Qed.

Lemma enqueue_stamp now chunk s :
  timestamp (fst (enqueue now chunk s)) = sint32 (tv_sec now) /\
  smoother (fst (enqueue now chunk s)) =
  pa_smoother_put (smoother s) (pa_timeval_load now)
    (pa_bytes_to_usec
       (uint64 (write_index
                  (pa_memblockq_seek (memblockq s)
                     (sint64 (timestamp_delta (offset s)
                                (rtp.timestamp (rtp_context s))
                              * sint64 (rtp.frame_size (rtp_context s)))))))
       (sample_spec (sink_input s))) /\
  sink_input (fst (enqueue now chunk s)) = sink_input s /\
  last_rate_update (fst (enqueue now chunk s)) = last_rate_update s /\
  intended_latency (fst (enqueue now chunk s)) = intended_latency s /\
  sink_latency (fst (enqueue now chunk s)) = sink_latency s.
Proof.
  unfold RtpRecv.enqueue. destruct (pa_memblockq_push _ _); cbn; auto 10.
Qed.

Lemma ingested_stamp e pk s :
  timestamp (ingested e pk s) = timestamp (fst (enqueue (env_now e) (pk_data pk) s)) /\
  smoother (ingested e pk s) = smoother (fst (enqueue (env_now e) (pk_data pk) s)) /\
  intended_latency (ingested e pk s) = intended_latency s /\
  sink_latency (ingested e pk s) = sink_latency s /\
  thread_info_sample_spec (sink_input (ingested e pk s))
  = thread_info_sample_spec (sink_input s) /\
  sink (sink_input (ingested e pk s)) = sink (sink_input s) /\
  (rate_update_due (env_now e) s = false ->
   sink_input (ingested e pk s) = sink_input s /\
   last_rate_update (ingested e pk s) = last_rate_update s).
Proof.
  unfold RtpRecv.ingested.
  destruct (enqueue_stamp (env_now e) (pk_data pk) s) as (_ & _ & E3 & E4 & E5 & E6).
  assert (Hdue : rate_update_due (env_now e) (fst (enqueue (env_now e) (pk_data pk) s))
                 = rate_update_due (env_now e) s).
  { unfold RtpRecv.rate_update_due. rewrite E4. reflexivity. }
  rewrite Hdue. destruct (rate_update_due (env_now e) s).
  - cbn [fst RtpRecv.update_rate timestamp smoother intended_latency sink_latency
           set_last_rate_update set_sink_input sink_input set_input_rate
           thread_info_sample_spec sink].
    rewrite E3, E5, E6. repeat split; auto; discriminate.
  - rewrite E3, E4, E5, E6. repeat split; auto.
Qed.

(** X7: every accepted packet stores the seconds of the current time as
    [last_seen] and feeds the smoother one sample: the current time against
    the write cursor as it stands after the timestamp seek and before the
    push, converted at the rate the session had on entry. *)
Theorem accepted_packet_stamps_session (e : io_env) (p : pollfd) (s : session)
    (pk : packet) :
  readable p ->
  env_recv e = Some pk ->
  pk_payload pk = sdp.payload (sdp_info s) ->
  first_packet s = false \/ pk_ssrc pk = ssrc s ->
  let o := rtpoll_work_cb e p s in
  let expected := if first_packet s then offset s else pk_timestamp pk in
  let q1 := pa_memblockq_seek (memblockq s)
              (sint64 (timestamp_delta expected (pk_timestamp pk)
                       * sint64 (rtp.frame_size (rtp_context s)))) in
  timestamp (sess o) = sint32 (tv_sec (env_now e)) /\
  smoother (sess o) =
  pa_smoother_put (smoother s) (pa_timeval_load (env_now e))
    (pa_bytes_to_usec (uint64 (write_index q1)) (sample_spec (sink_input s))).
Proof.
  intros Hr Hrecv Hpay Hacc o expected q1. subst o.
  destruct (rtpoll_work_cb_accepted pa_timeval_load pa_bytes_to_usec
              pa_smoother_get pa_memblockq_is_readable e p s pk Hr Hrecv Hpay Hacc)
    as (s1 & l1 & Hbs & _ & Hsess).
  rewrite Hsess.
  destruct (ingested_stamp e pk s1) as (E1 & E2 & _).
  destruct (enqueue_stamp (env_now e) (pk_data pk) s1) as (F1 & F2 & _).
  rewrite E1, E2, F1, F2.
  destruct (bind_stream_frame _ _ _ _ Hbs) as (G1 & _ & G3 & _ & _ & _ & G7 & _).
  destruct (bind_stream_memblockq _ _ _ _ Hbs) as [G8 _].
  destruct (bind_stream_Some _ _ _ _ Hbs) as (_ & _ & _ & _ & G9).
  rewrite G1, G3, G7, G8, G9.
  split; reflexivity.
Qed.

Lemma only_bind_stream_warns now reply chunk s :
  let w := Log pa_log_warn "Detected RTP packet loop!" [] in
  ~ In w (snd (enqueue now chunk s)) /\
  ~ In w (snd (update_rate now reply s)) /\
  ~ In w (end_of_underrun pa_memblockq_is_readable s).
Proof.
  intros w. split; [|split].
  - unfold RtpRecv.enqueue. destruct (pa_memblockq_push _ _); cbn.
    + tauto.
    + intros [H|[]]. discriminate H.
  - unfold RtpRecv.update_rate. cbn [snd].
    rewrite !in_app_iff. cbn [In].
    destruct (fix_too_large _ _); cbn [In];
      intros H; decompose [or] H; try discriminate; contradiction.
  - unfold end_of_underrun. destruct (_ && _); cbn.
    + intros H; decompose [or] H; try discriminate; contradiction.
    + tauto.
Qed.

(** X8: the loop warning is logged exactly for the packet that binds the
    session when its stream identifier equals the local cookie, and that
    packet is ingested like any other. *)
Theorem loop_warning_only_at_binding (e : io_env) (p : pollfd) (s : session) :
  let o := rtpoll_work_cb e p s in
  In (Log pa_log_warn "Detected RTP packet loop!" []) (trace o) <->
  (ret o = 1 /\ first_packet s = false /\
   exists pk, env_recv e = Some pk /\ pk_ssrc pk = env_cookie e).
Proof.
  intros o. subst o.
  destruct (accepted_dec e p s) as [Hacc|(Hn1 & Hm1 & _ & Htr & _)].
  - destruct Hacc as [Hr (pk & Hrecv & Hpay & Hb)].
    rewrite rtpoll_work_cb_readable by assumption. rewrite Hrecv. cbn zeta.
    destruct (Z.eqb_spec (sdp.payload (sdp_info s)) (pk_payload pk)); [|congruence].
    cbn [negb].
    set (s0 := set_rtp_context (received pk (rtp_context s)) s).
    destruct (bind_stream (env_cookie e) s0) as [[s1 l1]|] eqn:Hbs.
    2:{ exfalso. destruct (first_packet s) eqn:Hf.
        - rewrite (bind_stream_bound (env_cookie e) s0 Hf) in Hbs.
          destruct Hb as [?|Hs]; [discriminate|].
          change (ssrc s0) with (ssrc s) in Hbs.
          change (rtp.ssrc (rtp_context s0)) with (pk_ssrc pk) in Hbs.
          rewrite Hs, Z.eqb_refl in Hbs. discriminate.
        - destruct (bind_stream_unbound (env_cookie e) s0 Hf) as [l Hl].
          congruence. }
    destruct (bind_stream_frame _ _ _ _ Hbs) as (_ & _ & _ & _ & _ & _ & _ & Hl1).
    change (first_packet s0) with (first_packet s) in Hl1.
    change (rtp.ssrc (rtp_context s0)) with (pk_ssrc pk) in Hl1.
    cbn [ret trace].
    destruct (only_bind_stream_warns (env_now e) (env_sink_latency e) (pk_data pk) s1)
      as (N2 & _ & _).
    destruct (only_bind_stream_warns (env_now e) (env_sink_latency e) (pk_data pk)
                (fst (enqueue (env_now e) (pk_data pk) s1))) as (_ & N3 & _).
    destruct (only_bind_stream_warns (env_now e) (env_sink_latency e) (pk_data pk)
                (ingested e pk s1)) as (_ & _ & N4).
    rewrite !in_app_iff.
    assert (Hl3 : ~ In (Log pa_log_warn "Detected RTP packet loop!" [])
                    (if rate_update_due (env_now e)
                          (fst (enqueue (env_now e) (pk_data pk) s1))
                     then snd (update_rate (env_now e) (env_sink_latency e)
                                 (fst (enqueue (env_now e) (pk_data pk) s1)))
                     else [])).
    { destruct (rate_update_due _ _); [exact N3|intros []]. }
    split.
    + intros [[[H|H]|H]|H]; try contradiction.
      split; [reflexivity|].
      rewrite Hl1 in H. destruct (first_packet s); [inversion H|].
      split; [reflexivity|].
      destruct (Z.eqb_spec (pk_ssrc pk) (env_cookie e)); [|inversion H].
      exists pk. auto.
    + intros (_ & Hf & pk' & Hrecv' & Hc).
      assert (pk' = pk) by congruence. subst pk'.
      left. left. left. rewrite Hl1, Hf.
      destruct (Z.eqb_spec (pk_ssrc pk) (env_cookie e)); [|contradiction].
      left. reflexivity.
  - split.
    + intros Hin. exfalso. destruct Htr as [Htr|Htr].
      * rewrite Htr in Hin. inversion Hin.
      * apply Hm1 in Htr.
        rewrite rtpoll_work_cb_bad_revents in Hin by assumption.
        cbn in Hin. destruct Hin as [?|[]]. discriminate.
    + intros [H _]. contradiction.
Qed.

(** X9: no run of the callback changes the session's announced
    description, its two latency targets, the nominal sample spec, the sink,
    the socket or frame size of the RTP context, the read cursor of the
    jitter buffer, or the descriptor and event mask being polled. *)
Theorem callback_leaves_configuration (e : io_env) (p : pollfd) (s : session) :
  let o := rtpoll_work_cb e p s in
  sdp_info (sess o) = sdp_info s /\
  intended_latency (sess o) = intended_latency s /\
  sink_latency (sess o) = sink_latency s /\
  thread_info_sample_spec (sink_input (sess o))
  = thread_info_sample_spec (sink_input s) /\
  sink (sink_input (sess o)) = sink (sink_input s) /\
  rtp.fd (rtp_context (sess o)) = rtp.fd (rtp_context s) /\
  rtp.frame_size (rtp_context (sess o)) = rtp.frame_size (rtp_context s) /\
  read_index (memblockq (sess o)) = read_index (memblockq s) /\
  pfd_fd (pfd o) = pfd_fd p /\ events (pfd o) = events p.
Proof.
  intros o. subst o.
  destruct (revents_cases p) as [Hbad|[[H1 H2]|Hr]].
  - rewrite rtpoll_work_cb_bad_revents by assumption. cbn. auto 12.
  - rewrite rtpoll_work_cb_not_readable by assumption. cbn. auto 12.
  - rewrite rtpoll_work_cb_readable by assumption.
    destruct (env_recv e) as [pk|]; [|cbn; auto 12]. cbn zeta.
    destruct (negb _); [cbn; auto 12|].
    destruct (bind_stream _ _) as [[s1 l1]|] eqn:Hbs; [|cbn; auto 12].
    cbn [sess pfd set_revents pfd_fd events].
    destruct (bind_stream_frame _ _ _ _ Hbs) as (G1 & _ & _ & _ & G5 & G6 & _).
    destruct (bind_stream_memblockq _ _ _ _ Hbs) as [G7 G8].
    destruct (bind_stream_Some _ _ _ _ Hbs) as (_ & _ & _ & _ & G9).
    destruct (ingested_stamp e pk s1) as (_ & _ & E3 & E4 & E5 & E6 & _).
    destruct (ingested_frame pa_timeval_load pa_bytes_to_usec pa_smoother_get
                e pk s1) as [E7 E8].
    rewrite E3, E4, E5, E6, E7, E8.
    rewrite (ingested_memblockq pa_timeval_load pa_bytes_to_usec pa_smoother_get).
    destruct (jitter_write_frame (memblockq s1) (offset s1)
                (rtp.timestamp (rtp_context s1)) (rtp.frame_size (rtp_context s1))
                (pk_data pk)) as [J1 _].
    rewrite J1, G1, G5, G6, G7, G8, G9. cbn. auto 12.
Qed.

End CallbackFrame.

(** X10: the callback changes the rate, the resampler and
    [last_rate_update] only when an update is due on entry. *)
Theorem rate_untouched_unless_due
    (pa_timeval_load : timeval -> Z)
    (pa_bytes_to_usec : Z -> pa_sample_spec -> Z)
    (pa_smoother_get : pa_smoother -> Z -> Z)
    (pa_memblockq_is_readable : pa_memblockq -> bool)
    (e : io_env) (p : pollfd) (s : session) :
  rate_update_due pa_timeval_load (env_now e) s = false ->
  let o := rtpoll_work_cb pa_timeval_load pa_bytes_to_usec pa_smoother_get
             pa_memblockq_is_readable e p s in
  sink_input (sess o) = sink_input s /\
  last_rate_update (sess o) = last_rate_update s /\
  ~ In (Log pa_log "Updating sample rate" []) (trace o).
Proof.
  intros Hdue o. subst o.
  destruct (accepted_dec pa_timeval_load pa_bytes_to_usec pa_smoother_get
              pa_memblockq_is_readable e p s)
    as [Hacc|(_ & Hm1 & Hsess & Htr & _)].
  - destruct Hacc as [Hr (pk & Hrecv & Hpay & Hb)].
    rewrite rtpoll_work_cb_readable by assumption. rewrite Hrecv. cbn zeta.
    destruct (Z.eqb_spec (sdp.payload (sdp_info s)) (pk_payload pk)); [|congruence].
    cbn [negb].
    destruct (rtpoll_work_cb_accepted pa_timeval_load pa_bytes_to_usec
                pa_smoother_get pa_memblockq_is_readable e p s pk Hr Hrecv Hpay Hb)
      as (s1 & l1 & Hbs & _ & _).
    rewrite Hbs. cbn [sess trace].
    destruct (bind_stream_frame _ _ _ _ Hbs) as (G1 & G2 & _ & _ & _ & _ & _ & Hl1).
    assert (Hdue1 : rate_update_due pa_timeval_load (env_now e) s1 = false).
    { unfold rate_update_due in *. rewrite G2. exact Hdue. }
    destruct (ingested_stamp pa_timeval_load pa_bytes_to_usec pa_smoother_get
                e pk s1) as (_ & _ & _ & _ & _ & _ & Hkeep).
    destruct (Hkeep Hdue1) as [K1 K2].
    rewrite K1, K2, G1, G2. split; [reflexivity|]. split; [reflexivity|].
    destruct (enqueue_stamp pa_timeval_load pa_bytes_to_usec (env_now e)
                (pk_data pk) s1) as (_ & _ & _ & E4 & _).
    assert (Hdue2 : rate_update_due pa_timeval_load (env_now e)
                      (fst (enqueue pa_timeval_load pa_bytes_to_usec (env_now e)
                              (pk_data pk) s1)) = false).
    { unfold rate_update_due in *. rewrite E4. exact Hdue1. }
    rewrite Hdue2. rewrite !in_app_iff.
    intros [[[H|H]|H]|H].
    + rewrite Hl1 in H.
      cbn [first_packet set_rtp_context rtp_context received rtp.ssrc] in H.
      destruct (first_packet s); [exact H|].
      destruct (pk_ssrc pk =? env_cookie e); [|exact H].
      destruct H as [H|[]]. discriminate H.
    + unfold enqueue in H. destruct (pa_memblockq_push _ _); cbn in H.
      * contradiction.
      * destruct H as [H|[]]. discriminate H.
    + inversion H.
    + unfold end_of_underrun in H. destruct (_ && _); cbn in H.
      * decompose [or] H; try discriminate; contradiction.
      * contradiction.
  - split; [|split].
    + destruct Hsess as [->|(pk & _ & ->)]; reflexivity.
    + destruct Hsess as [->|(pk & _ & ->)]; reflexivity.
    + intros Hin. destruct Htr as [Htr|Htr].
      * rewrite Htr in Hin. inversion Hin.
      * apply Hm1 in Htr.
        rewrite rtpoll_work_cb_bad_revents in Hin by assumption.
        cbn in Hin. destruct Hin as [?|[]]. discriminate.
Qed.

Lemma accepted_packet_stamps_session_witness :
  timestamp (sess (Scenario.rtpoll_work_cb (Scenario.arrival 101 Scenario.p1000)
                     Scenario.pollin (Scenario.unbound 1000))) = 101.
Proof.
  assert (Hr : readable Scenario.pollin) by (split; [reflexivity|discriminate]).
  apply (accepted_packet_stamps_session Scenario.timeval_load
           Scenario.bytes_to_usec Scenario.newest_sample Scenario.holds_data
           (Scenario.arrival 101 Scenario.p1000) Scenario.pollin
           (Scenario.unbound 1000) Scenario.p1000 Hr eq_refl eq_refl
           (or_introl eq_refl)).
Defined.

Lemma rate_untouched_unless_due_witness :
  sink_input (sess (Scenario.rtpoll_work_cb (Scenario.arrival 101 Scenario.p1000)
                      Scenario.pollin (Scenario.unbound 1000)))
  = Scenario.input.
Proof.
  apply (rate_untouched_unless_due Scenario.timeval_load Scenario.bytes_to_usec
           Scenario.newest_sample Scenario.holds_data
           (Scenario.arrival 101 Scenario.p1000) Scenario.pollin
           (Scenario.unbound 1000)).
  vm_compute. reflexivity.
Defined.

(** ** Sockets *)

(** X11: [mcast_socket] returns the descriptor exactly when all four system
    calls succeed; when a later call fails it closes the socket it created,
    once, and when [socket] itself fails it closes nothing. *)
Theorem mcast_socket_closes_on_failure (e : sys_env) :
  let fd := fst (mcast_socket e) in
  let l := snd (mcast_socket e) in
  (0 <= fd <->
   0 <= sys_socket e /\ 0 <= sys_reuseaddr e /\ 0 <= sys_join e /\ 0 <= sys_bind e) /\
  (0 <= fd -> fd = sys_socket e /\ l = []) /\
  (fd < 0 ->
   fd = -1 /\
   Lifecycle.closed l = (if 0 <=? sys_socket e then [sys_socket e] else []) /\
   length (Lifecycle.logged l) = 1%nat).
Proof.
  intros fd l. subst fd l. unfold mcast_socket.
  destruct (Z.ltb_spec (sys_socket e) 0) as [H1|H1].
  { cbn. destruct (Z.leb_spec 0 (sys_socket e)); [lia|].
    repeat split; try lia; auto. }
  destruct (Z.leb_spec 0 (sys_socket e)) as [_|?]; [|lia].
  destruct (Z.ltb_spec (sys_reuseaddr e) 0) as [H2|H2];
    [cbn; repeat split; try lia; auto|].
  destruct (Z.ltb_spec (sys_join e) 0) as [H3|H3];
    [cbn; repeat split; try lia; auto|].
  destruct (Z.ltb_spec (sys_bind e) 0) as [H4|H4];
    [cbn; repeat split; try lia; auto|].
  cbn. repeat split; try lia; auto.
Qed.

(** ** Creating, refreshing and freeing sessions *)

Lemma llist_remove_head (a : ptr) (l : list ptr) : llist_remove a (a :: l) = l.
Proof. cbn. destruct (decide (a = a)); [reflexivity|contradiction]. Qed.

Lemma userdata_ext (u v : userdata) :
  sink_name u = sink_name v -> sessions u = sessions v ->
  by_origin u = by_origin v -> n_sessions u = n_sessions v ->
  check_death_event u = check_death_event v -> heap u = heap v -> u = v.
Proof. destruct u, v; cbn; intros; subst; reflexivity. Qed.

Lemma registry_count_range (u : userdata) :
  registry_ok u -> 0 <= n_sessions u <= 16.
Proof.
  intros Hok. pose proof (ok_count u Hok). pose proof (ok_max u Hok) as Hm.
  rewrite MAX_SESSIONS_eq in Hm. lia.
Qed.

Lemma mcast_socket_cases (e : sys_env) :
  (0 <= fst (mcast_socket e) ->
   fst (mcast_socket e) = sys_socket e /\ snd (mcast_socket e) = []) /\
  (fst (mcast_socket e) < 0 ->
   Lifecycle.closed (snd (mcast_socket e))
   = (if 0 <=? sys_socket e then [sys_socket e] else [])).
Proof.
  unfold mcast_socket.
  destruct (Z.ltb_spec (sys_socket e) 0) as [H1|H1].
  { cbn. destruct (Z.leb_spec 0 (sys_socket e)); [lia|]. split; [lia|auto]. }
  destruct (Z.leb_spec 0 (sys_socket e)) as [_|?]; [|lia].
  destruct (sys_reuseaddr e <? 0); [cbn; split; [lia|auto]|].
  destruct (sys_join e <? 0); [cbn; split; [lia|auto]|].
  destruct (sys_bind e <? 0); [cbn; split; [lia|auto]|].
  cbn. split; [auto|lia].
Qed.

Section SessionLifecycle.

Variable pa_timeval_load : timeval -> Z.
Variable pa_timeval_add : timeval -> Z -> timeval.
Variable pa_frame_size : pa_sample_spec -> Z.
Variable pa_usec_to_bytes : Z -> pa_sample_spec -> Z.

Local Abbreviation session_new :=
  (session_new pa_timeval_load pa_frame_size pa_usec_to_bytes).
Local Abbreviation sap_event_cb :=
  (sap_event_cb pa_timeval_load pa_frame_size pa_usec_to_bytes).
Local Abbreviation check_death_event_cb := (check_death_event_cb pa_timeval_add).

(** X12: when the limit is not reached, the sink exists, the socket opens
    and the engine creates the sink input, [session_new] registers a fresh
    session: unbound, with the announced description, an empty jitter buffer
    of [MEMBLOCKQ_MAXLENGTH], [last_seen] and [last_rate_update] at the
    current time, and an intended latency of 500 ms or twice the granted
    sink latency, whichever is larger; list, hashmap and counter grow by
    that session and nothing is closed. *)
Theorem session_new_registers (e : new_env) (info : sdp.pa_sdp_info)
    (u : userdata) (snk : pa_sink) (i : pa_sink_input) :
  registry_ok u ->
  by_origin u !! sdp.origin info = None ->
  n_sessions u < MAX_SESSIONS ->
  ne_sink e = Some snk ->
  0 <= fst (mcast_socket (ne_sys e)) ->
  ne_sink_input e = Some i ->
  0 <= ne_sink_latency e < 2 ^ 63 ->
  exists a s u' l,
    session_new e info u = (Some a, u', l) /\
    heap u !! a = None /\
    heap u' = <[a := s]> (heap u) /\
    sessions u' = a :: sessions u /\
    by_origin u' = <[sdp.origin info := a]> (by_origin u) /\
    n_sessions u' = n_sessions u + 1 /\
    registry_ok u' /\
    Lifecycle.closed l = [] /\
    (first_packet s = false /\ sdp_info s = info /\ sink_input s = i /\
     rtp.fd (rtp_context s) = sys_socket (ne_sys e) /\
     rtp.frame_size (rtp_context s) = pa_frame_size (sdp.sample_spec info)) /\
    (sink_latency s = ne_sink_latency e /\
     intended_latency s = Z.max LATENCY_USEC (2 * ne_sink_latency e)) /\
    (blocks (memblockq s) = ∅ /\ read_index (memblockq s) = 0 /\
     write_index (memblockq s) = 0 /\
     maxlength (memblockq s) = MEMBLOCKQ_MAXLENGTH) /\
    (timestamp s = sint32 (tv_sec (ne_now e)) /\
     last_rate_update s = pa_timeval_load (ne_now e) /\
     samples (smoother s) = []).
Proof.
  clear pa_timeval_add.
  intros Hok Hnew Hroom Hsink Hfd Hin Hlat.
  destruct (session_new_ok pa_timeval_load pa_frame_size pa_usec_to_bytes
              e info u Hok Hnew) as [[Hnone _]|(a & Hsome & Ha & _ & Hok')].
  - exfalso. revert Hnone. unfold Registry.session_new.
    destruct (Z.leb_spec MAX_SESSIONS (n_sessions u)); [lia|].
    rewrite Hsink. destruct (mcast_socket (ne_sys e)) as [fd l]. cbn [fst] in Hfd.
    destruct (Z.ltb_spec fd 0); [lia|]. rewrite Hin. cbn. discriminate.
  - pose proof (registry_count_range u Hok) as Hn.
    pose proof (mcast_socket_cases (ne_sys e)) as (Hm & _).
    specialize (Hm Hfd). destruct Hm as [Hfdv Hl].
    revert Hsome Hok'. unfold Registry.session_new.
    destruct (Z.leb_spec MAX_SESSIONS (n_sessions u)); [lia|].
    rewrite Hsink. destruct (mcast_socket (ne_sys e)) as [fd l].
    cbn [fst snd] in Hfd, Hfdv, Hl. subst l fd.
    destruct (Z.ltb_spec (sys_socket (ne_sys e)) 0); [lia|]. rewrite Hin.
    cbn [fst snd]. unfold pa_hashmap_put. rewrite Hnew.
    rewrite (uint64_small (ne_sink_latency e)) by lia.
    rewrite (uint64_small (ne_sink_latency e * 2)) by lia.
    rewrite sint32_small by lia.
    intros [= <-] Hok'.
    eexists _, _, _, _. split; [reflexivity|].
    split; [exact Ha|]. split; [reflexivity|]. split; [reflexivity|].
    split; [reflexivity|]. split; [reflexivity|]. split; [exact Hok'|].
    split; [reflexivity|]. split; [cbn; auto|].
    split; [|split; cbn; auto].
    cbn [sink_latency intended_latency]. split; [reflexivity|].
    unfold LATENCY_USEC, PA_USEC_PER_MSEC.
    destruct (Z.ltb_spec (500 * 1000) (ne_sink_latency e * 2)); lia.
Qed.

(** X13: [session_new] fails exactly when the limit is reached, the sink is
    missing, the socket cannot be set up or the sink input is refused; it
    then leaves the registry as it was and has closed the socket once if
    the socket had been created. *)
Theorem session_new_failure_releases (e : new_env) (info : sdp.pa_sdp_info)
    (u : userdata) :
  let r := fst (fst (session_new e info u)) in
  let u' := snd (fst (session_new e info u)) in
  let l := snd (session_new e info u) in
  let attempted :=
    (n_sessions u <? MAX_SESSIONS) && bool_decide (is_Some (ne_sink e)) in
  (r = None <->
   MAX_SESSIONS <= n_sessions u \/ ne_sink e = None \/
   fst (mcast_socket (ne_sys e)) < 0 \/ ne_sink_input e = None) /\
  (r = None ->
   u' = u /\
   Lifecycle.closed l =
   (if attempted && (0 <=? sys_socket (ne_sys e))
    then [sys_socket (ne_sys e)] else [])) /\
  (r <> None -> Lifecycle.closed l = []).
Proof.
  clear pa_timeval_add.
  intros r u' l attempted. subst r u' l attempted.
  unfold Registry.session_new.
  destruct (Z.leb_spec MAX_SESSIONS (n_sessions u)) as [Hfull|Hroom].
  { destruct (Z.ltb_spec (n_sessions u) MAX_SESSIONS); [lia|].
    cbn. repeat split; auto; congruence. }
  destruct (Z.ltb_spec (n_sessions u) MAX_SESSIONS) as [_|?]; [|lia].
  destruct (ne_sink e) as [snk|].
  2:{ cbn. repeat split; auto; congruence. }
  rewrite bool_decide_eq_true_2 by eauto. cbn [andb].
  pose proof (mcast_socket_cases (ne_sys e)) as (Hok & Hfail).
  destruct (mcast_socket (ne_sys e)) as [fd lg]. cbn [fst snd] in *.
  destruct (Z.ltb_spec fd 0) as [Hneg|Hpos].
  { pose proof (Hfail Hneg) as Hc. cbn [fst snd].
    repeat split; auto; try congruence. }
  destruct (Hok Hpos) as [-> ->].
  destruct (Z.leb_spec 0 (sys_socket (ne_sys e))) as [_|?]; [|lia].
  destruct (ne_sink_input e) as [i|]; cbn [fst snd].
  - repeat split; try congruence; try discriminate.
    + intros [?|[?|[?|?]]]; try lia; discriminate.
  - repeat split; auto; congruence.
Qed.

(** X14: an announcement of an origin that is not registered, followed by
    the goodbye for that origin, leaves the registry exactly as it was,
    whether or not the session could be created in between. *)
Theorem announce_then_goodbye_restores (e e' : new_env) (info : sdp.pa_sdp_info)
    (u : userdata) :
  registry_ok u ->
  by_origin u !! sdp.origin info = None ->
  exists u1 l1 l2,
    sap_event_cb (Announcement false info) e u = Some (u1, l1) /\
    sap_event_cb (Announcement true info) e' u1 = Some (u, l2).
Proof.
  clear pa_timeval_add.
  intros Hok Hnew.
  pose proof (registry_count_range u Hok) as Hn.
  cbn [Registry.sap_event_cb]. rewrite Hnew.
  pose proof (session_new_ok pa_timeval_load pa_frame_size pa_usec_to_bytes
                e info u Hok Hnew) as Hcases.
  destruct (session_new e info u) as [[r u1] l1] eqn:Hsn. cbn [fst snd] in *.
  destruct r as [a|].
  2:{ destruct Hcases as [[_ ->]|(a & Hsome & _)]; [|discriminate].
      exists u, l1, []. split; [reflexivity|]. rewrite Hnew. reflexivity. }
  clear Hcases.
  assert (Ha : heap u !! fresh (dom (heap u)) = None).
  { apply (not_elem_of_dom (D := gset ptr)). apply is_fresh. }
  revert Hsn. unfold Registry.session_new.
  destruct (Z.leb_spec MAX_SESSIONS (n_sessions u)) as [?|Hroom]; [discriminate|].
  rewrite MAX_SESSIONS_eq in Hroom.
  destruct (ne_sink e); [|discriminate].
  destruct (mcast_socket (ne_sys e)) as [fd lg].
  destruct (fd <? 0); [discriminate|].
  destruct (ne_sink_input e) as [i|]; [|discriminate].
  unfold pa_hashmap_put. rewrite Hnew.
  intros [= <- <- <-].
  eexists _, _, _. split; [reflexivity|].
  cbn [by_origin]. rewrite lookup_insert_eq.
  unfold session_free. cbn [heap n_sessions sessions by_origin check_death_event
                              sink_name].
  rewrite lookup_insert_eq. cbn [sdp_info].
  rewrite (sint32_small (n_sessions u + 1)) by lia.
  destruct (Z.ltb_spec (n_sessions u + 1) 1); [lia|].
  f_equal. f_equal.
  apply userdata_ext; cbn [sink_name sessions by_origin n_sessions
                             check_death_event heap].
  - reflexivity.
  - apply llist_remove_head.
  - apply delete_insert_id. exact Hnew.
  - rewrite sint32_small by lia. lia.
  - reflexivity.
  - apply delete_insert_id. exact Ha.
Qed.

(** X15: an announcement of an origin that is registered creates nothing:
    it stores the seconds of the current time as that session's [last_seen]
    and leaves list, hashmap, counter, every other session and everything
    else in that session untouched, with no effect outside. *)
Theorem keep_alive_stamps_only (e : new_env) (info : sdp.pa_sdp_info)
    (u : userdata) (a : ptr) :
  registry_ok u ->
  by_origin u !! sdp.origin info = Some a ->
  exists s u',
    heap u !! a = Some s /\
    sap_event_cb (Announcement false info) e u = Some (u', []) /\
    registry_ok u' /\
    sessions u' = sessions u /\ by_origin u' = by_origin u /\
    n_sessions u' = n_sessions u /\
    heap u' !! a = Some (set_timestamp (sint32 (tv_sec (ne_now e))) s) /\
    (forall b, b <> a -> heap u' !! b = heap u !! b).
Proof.
  clear pa_timeval_add.
  intros Hok Hl.
  pose proof Hl as Hl'. apply (ok_origin u Hok) in Hl'.
  destruct Hl' as (s & Hs & _).
  exists s. eexists. split; [exact Hs|].
  cbn [Registry.sap_event_cb]. rewrite Hl, Hs.
  split; [reflexivity|]. split; [apply keep_alive_ok; assumption|].
  cbn [set_heap sessions by_origin n_sessions heap].
  repeat split; try reflexivity.
  - apply lookup_insert_eq.
  - intros b Hb. apply lookup_insert_ne. congruence.
Qed.

(** X16: freeing a registered session closes its socket and removes that
    session alone: it is gone from list, heap and hashmap, the counter
    drops by one, and every other session and origin resolves as before. *)
Theorem session_free_removes_only_that_session (a : ptr) (s : session)
    (u : userdata) :
  registry_ok u ->
  heap u !! a = Some s ->
  exists u',
    session_free a u
    = Some (u', [Log pa_log_info "Freeing session '%s'" [];
                 Close (rtp.fd (rtp_context s))]) /\
    registry_ok u' /\
    n_sessions u' = n_sessions u - 1 /\
    (a ∉ sessions u') /\ heap u' !! a = None /\
    by_origin u' !! sdp.origin (sdp_info s) = None /\
    (forall b, b <> a ->
       heap u' !! b = heap u !! b /\ (b ∈ sessions u' <-> b ∈ sessions u)) /\
    (forall o, o <> sdp.origin (sdp_info s) ->
       by_origin u' !! o = by_origin u !! o).
Proof.
  clear pa_timeval_load pa_timeval_add pa_frame_size pa_usec_to_bytes.
  intros Hok Hs.
  pose proof (registry_count_range u Hok) as Hn.
  destruct (session_free_ok a s u Hok Hs) as (u' & l & Hf & Hok' & Hh & _).
  assert (Hin : a ∈ sessions u) by (apply (ok_heap u Hok); eauto).
  assert (Hpos : 1 <= n_sessions u).
  { rewrite (ok_count u Hok). destruct (sessions u); [inversion Hin|cbn; lia]. }
  revert Hf. unfold session_free. rewrite Hs.
  destruct (Z.ltb_spec (n_sessions u) 1); [lia|].
  intros [= <- <-]. eexists. split; [reflexivity|].
  split; [exact Hok'|].
  cbn [n_sessions sessions heap by_origin].
  split; [apply sint32_small; lia|].
  split.
  { rewrite (llist_remove_elem a a (sessions u) (ok_nodup u Hok)). tauto. }
  split; [apply lookup_delete_eq|].
  split; [apply lookup_delete_eq|].
  split.
  - intros b Hb. split.
    + apply lookup_delete_ne. congruence.
    + rewrite (llist_remove_elem a b (sessions u) (ok_nodup u Hok)). tauto.
  - intros o Ho. apply lookup_delete_ne. congruence.
Qed.

(** X17: a session refreshed by an announcement at second [t] survives
    every sweep that runs no later than second [t + DEATH_TIMEOUT], whatever
    its [last_seen] was before. *)
Theorem keep_alive_survives_sweep (e : new_env) (info : sdp.pa_sdp_info)
    (u : userdata) (a : ptr) (now tv : timeval) :
  registry_ok u ->
  by_origin u !! sdp.origin info = Some a ->
  - 2 ^ 31 <= tv_sec (ne_now e) ->
  tv_sec (ne_now e) + DEATH_TIMEOUT < 2 ^ 31 ->
  tv_sec now <= tv_sec (ne_now e) + DEATH_TIMEOUT ->
  exists u1 u2 l2,
    sap_event_cb (Announcement false info) e u = Some (u1, []) /\
    check_death_event_cb now tv u1 = Some (u2, l2) /\
    a ∈ sessions u2 /\
    by_origin u2 !! sdp.origin info = Some a.
Proof.
  intros Hok Hl Hlo Hhi Hnow.
  pose proof Hl as Hl'. apply (ok_origin u Hok) in Hl'.
  destruct Hl' as (s & Hs & Ho).
  set (u1 := set_heap (<[a := set_timestamp (sint32 (tv_sec (ne_now e))) s]>
                         (heap u)) u).
  assert (Hcb : sap_event_cb (Announcement false info) e u = Some (u1, [])).
  { cbn [Registry.sap_event_cb]. rewrite Hl, Hs. reflexivity. }
  assert (Hok1 : registry_ok u1) by (apply keep_alive_ok; assumption).
  assert (Ha1 : heap u1 !! a
                = Some (set_timestamp (sint32 (tv_sec (ne_now e))) s))
    by apply lookup_insert_eq.
  destruct (check_death_event_cb_ok pa_timeval_add now tv u1 Hok1)
    as (u2 & l2 & Hsw & Hok2 & _ & Hh2).
  exists u1, u2, l2. split; [exact Hcb|]. split; [exact Hsw|].
  assert (Hlive : heap u2 !! a
                  = Some (set_timestamp (sint32 (tv_sec (ne_now e))) s)).
  { rewrite Hh2, Ha1. unfold expired. cbn [timestamp set_timestamp].
    unfold DEATH_TIMEOUT in *.
    rewrite (sint32_small (tv_sec (ne_now e))) by lia.
    rewrite sint32_small by lia.
    destruct (Z.ltb_spec (tv_sec (ne_now e) + 20) (tv_sec now)); [lia|reflexivity]. }
  split.
  - apply (ok_heap u2 Hok2). eauto.
  - apply (ok_origin u2 Hok2). eexists. split; [exact Hlive|exact Ho].
Qed.

Lemma sweep_none_expired now (l : list ptr) (u : userdata) :
  (forall a, a ∈ l -> exists s, heap u !! a = Some s /\ expired now s = false) ->
  sweep now l u = Some (u, []).
Proof.
  induction l as [|a n IH]; intros H; cbn [sweep]; [reflexivity|].
  destruct (H a) as (s & Hs & He); [left|]. rewrite Hs.
  fold (expired now s). rewrite He. apply IH.
  intros b Hb. apply H. now right.
Qed.

(** X18: a sweep repeated at the same time reaps nothing more: it returns
    the registry the first sweep left and only logs that it checked. *)
Theorem second_sweep_reaps_nothing (now tv : timeval) (u : userdata) :
  registry_ok u ->
  exists u1 l1,
    check_death_event_cb now tv u = Some (u1, l1) /\
    check_death_event_cb now tv u1
    = Some (u1, [Log pa_log_debug "Checking for dead streams ..." []]).
Proof.
  clear pa_timeval_load pa_frame_size pa_usec_to_bytes.
  intros Hok.
  destruct (check_death_event_cb_ok pa_timeval_add now tv u Hok)
    as (u1 & l1 & Hsw & Hok1 & Ht & Hh).
  exists u1, l1. split; [exact Hsw|].
  unfold Registry.check_death_event_cb.
  rewrite (sweep_none_expired now (sessions u1) u1).
  - f_equal. f_equal. apply userdata_ext; try reflexivity.
    cbn. symmetry. exact Ht.
  - intros a Ha. apply (ok_heap u1 Hok1) in Ha. destruct Ha as [s Hs].
    exists s. split; [exact Hs|].
    rewrite Hh in Hs. destruct (heap u !! a) as [s0|]; [|discriminate].
    destruct (expired now s0) eqn:He; [discriminate|]. congruence.
Qed.

End SessionLifecycle.

Lemma session_new_registers_witness :
  exists a s u' l,
    session_new Scenario.timeval_load Scenario.s16_frame_size
      Scenario.usec_to_bytes Cases.slow_sink (Scenario.announced "carol")
      Scenario.loaded = (Some a, u', l) /\
    heap u' !! a = Some s /\
    n_sessions u' = 1 /\
    intended_latency s = 800000.
Proof.
  destruct (session_new_registers Scenario.timeval_load Scenario.s16_frame_size
              Scenario.usec_to_bytes Cases.slow_sink (Scenario.announced "carol")
              Scenario.loaded {| sink_sample_spec := Scenario.stereo |}
              Scenario.input)
    as (a & s & u' & l & Hnew & _ & Hh & _ & _ & Hn & _ & _ & _ & (_ & Hlat) & _).
  - apply (pa__init_ok Scenario.timeval_add).
  - reflexivity.
  - reflexivity.
  - reflexivity.
  - vm_compute. discriminate.
  - reflexivity.
  - split; [vm_compute; discriminate|reflexivity].
  - exists a, s, u', l. split; [exact Hnew|].
    split; [rewrite Hh; apply lookup_insert_eq|].
    split; [rewrite Hn; reflexivity|].
    rewrite Hlat. reflexivity.
Defined.

Lemma announce_then_goodbye_restores_witness :
  exists u1 l1 l2,
    sap_event_cb Scenario.timeval_load Scenario.s16_frame_size
      Scenario.usec_to_bytes (Announcement false (Scenario.announced "alice"))
      (Scenario.world_at 100) Scenario.loaded = Some (u1, l1) /\
    sap_event_cb Scenario.timeval_load Scenario.s16_frame_size
      Scenario.usec_to_bytes (Announcement true (Scenario.announced "alice"))
      (Scenario.world_at 110) u1 = Some (Scenario.loaded, l2).
Proof.
  apply (announce_then_goodbye_restores Scenario.timeval_load
           Scenario.s16_frame_size Scenario.usec_to_bytes
           (Scenario.world_at 100) (Scenario.world_at 110)
           (Scenario.announced "alice") Scenario.loaded).
  - apply (pa__init_ok Scenario.timeval_add).
  - reflexivity.
Defined.

Lemma keep_alive_stamps_only_witness :
  let u := Scenario.after Scenario.duo in
  exists s u',
    heap u !! 1%nat = Some s /\
    sap_event_cb Scenario.timeval_load Scenario.s16_frame_size
      Scenario.usec_to_bytes (Announcement false (Scenario.announced "bob"))
      (Scenario.world_at 130) u = Some (u', []) /\
    heap u' !! 1%nat = Some (set_timestamp 130 s) /\
    heap u' !! 0%nat = heap u !! 0%nat.
Proof.
  intros u.
  destruct (keep_alive_stamps_only Scenario.timeval_load Scenario.s16_frame_size
              Scenario.usec_to_bytes (Scenario.world_at 130)
              (Scenario.announced "bob") u 1%nat)
    as (s & u' & Hs & Hcb & _ & _ & _ & _ & Hstamp & Hrest).
  - apply after_ok.
  - vm_compute. reflexivity.
  - exists s, u'. split; [exact Hs|]. split; [exact Hcb|].
    split; [exact Hstamp|]. apply Hrest. discriminate.
Defined.

Lemma session_free_removes_only_that_session_witness :
  let u := Scenario.after Scenario.duo in
  exists s u',
    heap u !! 0%nat = Some s /\
    session_free 0%nat u
    = Some (u', [Log pa_log_info "Freeing session '%s'" [];
                 Close (rtp.fd (rtp_context s))]) /\
    n_sessions u' = 1 /\
    heap u' !! 1%nat = heap u !! 1%nat.
Proof.
  intros u.
  destruct (heap u !! 0%nat) as [s|] eqn:Hs.
  - destruct (session_free_removes_only_that_session 0%nat s u
                (after_ok Scenario.duo) Hs)
      as (u' & Hf & _ & Hn & _ & _ & _ & Hrest & _).
    exists s, u'. split; [reflexivity|]. split; [exact Hf|].
    split; [rewrite Hn; vm_compute; reflexivity|].
    apply (Hrest 1%nat). discriminate.
  - vm_compute in Hs. discriminate.
Defined.

Lemma keep_alive_survives_sweep_witness :
  exists u1 u2 l2,
    sap_event_cb Scenario.timeval_load Scenario.s16_frame_size
      Scenario.usec_to_bytes (Announcement false (Scenario.announced "alice"))
      (Scenario.world_at 130) (Scenario.after Scenario.duo) = Some (u1, []) /\
    check_death_event_cb Scenario.timeval_add (Scenario.at_second 150)
      (Scenario.at_second 1000) u1 = Some (u2, l2) /\
    0%nat ∈ sessions u2.
Proof.
  destruct (keep_alive_survives_sweep Scenario.timeval_load Scenario.timeval_add
              Scenario.s16_frame_size Scenario.usec_to_bytes
              (Scenario.world_at 130) (Scenario.announced "alice")
              (Scenario.after Scenario.duo) 0%nat
              (Scenario.at_second 150) (Scenario.at_second 1000))
    as (u1 & u2 & l2 & Hcb & Hsw & Hin & _).
  - apply after_ok.
  - vm_compute. reflexivity.
  - vm_compute. discriminate.
  - vm_compute. reflexivity.
  - vm_compute. discriminate.
  - exists u1, u2, l2. split; [exact Hcb|]. split; [exact Hsw|exact Hin].
Defined.

Lemma second_sweep_reaps_nothing_witness :
  exists u1 l1,
    check_death_event_cb Scenario.timeval_add (Scenario.at_second 125)
      (Scenario.at_second 1000) (Scenario.after Scenario.duo) = Some (u1, l1) /\
    check_death_event_cb Scenario.timeval_add (Scenario.at_second 125)
      (Scenario.at_second 1000) u1
    = Some (u1, [Log pa_log_debug "Checking for dead streams ..." []]).
Proof.
  apply (second_sweep_reaps_nothing Scenario.timeval_add
           (Scenario.at_second 125) (Scenario.at_second 1000)
           (Scenario.after Scenario.duo)).
  apply after_ok.
Defined.

(** ** Unloading and loading the module *)

Lemma mcast_socket_logs (e : sys_env) :
  fst (mcast_socket e) < 0 ->
  length (Lifecycle.logged (snd (mcast_socket e))) = 1%nat.
Proof.
  unfold mcast_socket.
  destruct (Z.ltb_spec (sys_socket e) 0); [reflexivity|].
  destruct (sys_reuseaddr e <? 0); [reflexivity|].
  destruct (sys_join e <? 0); [reflexivity|].
  destruct (sys_bind e <? 0); [reflexivity|].
  cbn. lia.
Qed.

Lemma closed_app (l1 l2 : list effect) :
  Lifecycle.closed (l1 ++ l2) = Lifecycle.closed l1 ++ Lifecycle.closed l2.
Proof. unfold Lifecycle.closed. apply omap_app. Qed.

Lemma session_free_live (a : ptr) (s : session) (u : userdata) :
  registry_ok u ->
  heap u !! a = Some s ->
  exists u',
    session_free a u
    = Some (u', [Log pa_log_info "Freeing session '%s'" [];
                 Close (rtp.fd (rtp_context s))]) /\
    registry_ok u' /\
    heap u' = delete a (heap u) /\
    S (length (sessions u')) = length (sessions u).
Proof.
  intros Hok Hs.
  destruct (session_free_ok a s u Hok Hs) as (u' & l & Hf & Hok' & Hh & _).
  assert (Hin : a ∈ sessions u) by (apply (ok_heap u Hok); eauto).
  exists u'. revert Hf. unfold session_free. rewrite Hs.
  destruct (n_sessions u <? 1); [discriminate|].
  intros [= <- <-]. split; [reflexivity|]. split; [exact Hok'|].
  split; [reflexivity|]. cbn [sessions].
  apply llist_remove_length. exact Hin.
Qed.

Section Unload.

Variable pa_hashmap_first : gmap string ptr -> option ptr.

Hypothesis first_Some :
  forall h a, pa_hashmap_first h = Some a -> exists k, h !! k = Some a.
Hypothesis first_None : forall h, pa_hashmap_first h = None -> h = ∅.

Local Abbreviation free_sessions := (Lifecycle.free_sessions pa_hashmap_first).
Local Abbreviation pa__done := (Lifecycle.pa__done pa_hashmap_first).

Lemma empty_map_empty_registry (u : userdata) :
  registry_ok u -> by_origin u = ∅ ->
  sessions u = [] /\ heap u = ∅ /\ n_sessions u = 0.
Proof.
  intros Hok He.
  assert (Hl : sessions u = []).
  { pose proof (ok_size u Hok) as Hs. rewrite He, map_size_empty in Hs.
    destruct (sessions u); [reflexivity|discriminate]. }
  split; [exact Hl|]. split.
  - apply map_eq. intros a. rewrite lookup_empty.
    destruct (heap u !! a) eqn:Ha; [|reflexivity].
    assert (a ∈ sessions u) as Hin by (apply (ok_heap u Hok); eauto).
    rewrite Hl in Hin. inversion Hin.
  - rewrite (ok_count u Hok), Hl. reflexivity.
Qed.

Lemma free_sessions_ok (fuel : nat) (u : userdata) :
  registry_ok u ->
  (length (sessions u) <= fuel)%nat ->
  exists u' l,
    free_sessions fuel u = Some (u', l) /\
    registry_ok u' /\ by_origin u' = ∅ /\
    length (Lifecycle.closed l) = length (sessions u) /\
    (forall fd, fd ∈ Lifecycle.closed l <->
                exists a s, heap u !! a = Some s /\ rtp.fd (rtp_context s) = fd).
Proof.
  revert u. induction fuel as [|fuel IH]; intros u Hok Hlen.
  - assert (Hl : sessions u = []) by (destruct (sessions u); [reflexivity|cbn in Hlen; lia]).
    cbn [Lifecycle.free_sessions].
    destruct (pa_hashmap_first (by_origin u)) as [a|] eqn:Hf.
    + exfalso. destruct (first_Some _ _ Hf) as [k Hk].
      apply (ok_origin u Hok) in Hk. destruct Hk as (s & Hs & _).
      assert (a ∈ sessions u) as Hin by (apply (ok_heap u Hok); eauto).
      rewrite Hl in Hin. inversion Hin.
    + exists u, []. split; [reflexivity|]. split; [exact Hok|].
      split; [apply first_None; exact Hf|]. split; [rewrite Hl; reflexivity|].
      intros fd. split; [intros H; inversion H|].
      intros (a & s & Hs & _).
      assert (a ∈ sessions u) as Hin by (apply (ok_heap u Hok); eauto).
      rewrite Hl in Hin. inversion Hin.
  - cbn [Lifecycle.free_sessions].
    destruct (pa_hashmap_first (by_origin u)) as [a|] eqn:Hf.
    + destruct (first_Some _ _ Hf) as [k Hk].
      apply (ok_origin u Hok) in Hk. destruct Hk as (s & Hs & _).
      destruct (session_free_live a s u Hok Hs) as (u1 & Hfree & Hok1 & Hh1 & Hl1).
      rewrite Hfree.
      destruct (IH u1 Hok1) as (u2 & l2 & Hrec & Hok2 & He2 & Hc2 & Hm2); [lia|].
      rewrite Hrec. eexists _, _. split; [reflexivity|]. split; [exact Hok2|].
      split; [exact He2|]. rewrite closed_app.
      change (Lifecycle.closed [Log pa_log_info "Freeing session '%s'" [];
                                Close (rtp.fd (rtp_context s))])
        with [rtp.fd (rtp_context s)].
      cbn [app length].
      split; [lia|].
      intros fd. rewrite elem_of_cons, Hm2, Hh1. split.
      * intros [->|(b & sb & Hb & Hfd)]; [eauto|].
        apply lookup_delete_Some in Hb. destruct Hb as [_ Hb]. eauto.
      * intros (b & sb & Hb & Hfd). destruct (decide (b = a)) as [->|Hne].
        -- left. congruence.
        -- right. exists b, sb. split; [|exact Hfd].
           rewrite lookup_delete_ne by congruence. exact Hb.
    + pose proof (first_None _ Hf) as He.
      destruct (empty_map_empty_registry u Hok He) as (Hl & Hh & _).
      exists u, []. split; [reflexivity|]. split; [exact Hok|]. split; [exact He|].
      split; [rewrite Hl; reflexivity|].
      intros fd. split; [intros H; inversion H|].
      intros (a & s & Hs & _). rewrite Hh, lookup_empty in Hs. discriminate.
Qed.


End Unload.

Lemma first_entry_Some (h : gmap string ptr) (a : ptr) :
  Cases.first_entry h = Some a -> exists k, h !! k = Some a.
Proof.
  unfold Cases.first_entry. destruct (map_to_list h) as [|[k b] rest] eqn:E;
    [discriminate|].
  intros [= <-]. exists k. apply elem_of_map_to_list. rewrite E. left.
Qed.

Lemma first_entry_None (h : gmap string ptr) :
  Cases.first_entry h = None -> h = ∅.
Proof.
  unfold Cases.first_entry. destruct (map_to_list h) as [|[k b] rest] eqn:E;
    [|discriminate].
  intros _. apply map_to_list_empty_iff. exact E.
Qed.


(** X20: [pa__init] returns 0 exactly when the arguments parse, the SAP
    address (the default one when none is given) is accepted by [inet_pton]
    as IPv6 or IPv4, and the socket is set up; it then installs an empty,
    consistent registry for the named sink with the death timer armed
    [DEATH_TIMEOUT] seconds ahead.  Otherwise it returns -1, installs
    nothing and logs one line. *)
Theorem pa__init_succeeds_iff (pa_timeval_add : timeval -> Z -> timeval)
    (e : Lifecycle.init_env) :
  let rc := fst (fst (Lifecycle.pa__init pa_timeval_add e)) in
  let m := snd (fst (Lifecycle.pa__init pa_timeval_add e)) in
  let l := snd (Lifecycle.pa__init pa_timeval_add e) in
  (rc = 0 <->
   exists sink sap,
     Lifecycle.ie_modargs e = Some (sink, sap) /\
     (let a := match sap with Some a => a | None => "224.0.0.56"%string end in
      0 < Lifecycle.ie_inet_pton6 e a \/ 0 < Lifecycle.ie_inet_pton4 e a) /\
     0 <= fst (mcast_socket (Lifecycle.ie_sys e))) /\
  (rc = 0 \/ rc = -1) /\
  (rc = 0 ->
   exists sink sap u,
     Lifecycle.ie_modargs e = Some (sink, sap) /\ m = Some u /\
     registry_ok u /\ sink_name u = sink /\ sessions u = [] /\
     by_origin u = ∅ /\ n_sessions u = 0 /\
     check_death_event u
     = pa_timeval_add (Lifecycle.ie_tv e) (DEATH_TIMEOUT * PA_USEC_PER_SEC) /\
     l = []) /\
  (rc = -1 -> m = None /\ length (Lifecycle.logged l) = 1%nat).
Proof.
  intros rc m l. subst rc m l. unfold Lifecycle.pa__init.
  destruct (Lifecycle.ie_modargs e) as [[sink sap]|].
  2:{ cbn. repeat split; auto; try discriminate.
      intros (? & ? & ? & _). discriminate. }
  set (a := match sap with Some a => a | None => Lifecycle.DEFAULT_SAP_ADDRESS end).
  assert (Hload :
    let r := Lifecycle.load pa_timeval_add e sink in
    (fst (fst r) = 0 <-> 0 <= fst (mcast_socket (Lifecycle.ie_sys e))) /\
    (fst (fst r) = 0 \/ fst (fst r) = -1) /\
    (fst (fst r) = 0 ->
     snd (fst r) = Some (pa__init pa_timeval_add sink (Lifecycle.ie_tv e)) /\
     snd r = []) /\
    (fst (fst r) = -1 ->
     snd (fst r) = None /\ length (Lifecycle.logged (snd r)) = 1%nat)).
  { unfold Lifecycle.load.
    pose proof (mcast_socket_cases (Lifecycle.ie_sys e)) as (Hok & _).
    pose proof (mcast_socket_logs (Lifecycle.ie_sys e)) as Hlog.
    destruct (mcast_socket (Lifecycle.ie_sys e)) as [fd lg]. cbn [fst snd] in *.
    destruct (Z.ltb_spec fd 0) as [Hneg|Hpos]; cbn [fst snd].
    - repeat split; auto; try lia; try discriminate.
    - destruct (Hok Hpos) as [_ ->].
      repeat split; auto; try lia; try discriminate. }
  cbn zeta in Hload. destruct Hload as (L1 & L2 & L3 & L4).
  assert (Hinit :
    forall u, u = pa__init pa_timeval_add sink (Lifecycle.ie_tv e) ->
    registry_ok u /\ sink_name u = sink /\ sessions u = [] /\
    by_origin u = ∅ /\ n_sessions u = 0 /\
    check_death_event u
    = pa_timeval_add (Lifecycle.ie_tv e) (DEATH_TIMEOUT * PA_USEC_PER_SEC)).
  { intros u ->. split; [apply pa__init_ok|]. cbn. auto. }
  destruct (Z.ltb_spec 0 (Lifecycle.ie_inet_pton6 e a)) as [H6|H6].
  - split; [|split; [exact L2|split; [|exact L4]]].
    + rewrite L1. split.
      * intros Hfd. exists sink, sap. split; [reflexivity|]. split; [left; exact H6|exact Hfd].
      * intros (? & ? & _ & _ & Hfd). exact Hfd.
    + intros Hrc. destruct (L3 Hrc) as [Hm Hl].
      exists sink, sap, (pa__init pa_timeval_add sink (Lifecycle.ie_tv e)).
      split; [reflexivity|]. split; [exact Hm|].
      destruct (Hinit _ eq_refl) as (I1 & I2 & I3 & I4 & I5 & I6).
      split; [exact I1|]. repeat split; assumption.
  - destruct (Z.ltb_spec 0 (Lifecycle.ie_inet_pton4 e a)) as [H4|H4].
    + split; [|split; [exact L2|split; [|exact L4]]].
      * rewrite L1. split.
        -- intros Hfd. exists sink, sap. split; [reflexivity|].
           split; [right; exact H4|exact Hfd].
        -- intros (? & ? & _ & _ & Hfd). exact Hfd.
      * intros Hrc. destruct (L3 Hrc) as [Hm Hl].
        exists sink, sap, (pa__init pa_timeval_add sink (Lifecycle.ie_tv e)).
        split; [reflexivity|]. split; [exact Hm|].
        destruct (Hinit _ eq_refl) as (I1 & I2 & I3 & I4 & I5 & I6).
        split; [exact I1|]. repeat split; assumption.
    + cbn. repeat split; auto; try discriminate.
      intros (s1 & s2 & Heq & Hor & _). injection Heq as <- <-.
      change (0 < Lifecycle.ie_inet_pton6 e a \/ 0 < Lifecycle.ie_inet_pton4 e a)
        in Hor.
      lia.
Qed.

(** ** Duplicated packets *)

Lemma write_bytes_twice (data : list Byte.byte) (pos : Z) (m : gmap Z Byte.byte) :
  write_bytes pos data (write_bytes pos data m) = write_bytes pos data m.
Proof.
  apply map_eq. intros k. rewrite !lookup_write_bytes.
  case_decide; reflexivity.
Qed.

(** The queue a write leaves, overrun or not. *)
Lemma jitter_write_cases bq expected ts fs chunk :
  let q1 := pa_memblockq_seek bq
              (sint64 (timestamp_delta expected ts * sint64 fs)) in
  let len := Z.of_nat (length chunk) in
  jitter_write bq expected ts fs chunk =
  {| read_index := read_index bq;
     write_index := sint64 (write_index q1 + len);
     maxlength := maxlength bq;
     prebuf := prebuf bq;
     blocks := if maxlength bq - occupancy bq <? len then blocks bq
               else write_bytes (write_index q1) chunk (blocks bq) |}.
Proof.
  intros q1 len. unfold jitter_write. fold q1.
  unfold pa_memblockq_push. fold len.
  change (maxlength q1) with (maxlength bq).
  change (occupancy q1) with (occupancy bq).
  destruct (maxlength bq - occupancy bq <? len).
  - unfold pa_memblockq_seek at 1.
    cbn [read_index maxlength prebuf blocks pa_memblockq_seek].
    f_equal. apply sint64_add_idemp_r.
  - reflexivity.
Qed.

(** Writing the same payload again at the timestamp it was written at. *)
Lemma jitter_write_again bq expected ts fs n chunk :
  let q := jitter_write bq expected ts fs chunk in
  0 <= ts -> ts + n < 2 ^ 32 -> 0 < n < 2 ^ 31 -> 0 < fs < 2 ^ 31 ->
  Z.of_nat (length chunk) = n * fs ->
  write_index (pa_memblockq_seek bq
                 (sint64 (timestamp_delta expected ts * sint64 fs)))
  + n * fs < 2 ^ 63 ->
  jitter_write q (ts + n) ts fs chunk = q.
Proof.
  intros q Hts Hhi Hn Hfs Hlen Hw. subst q.
  assert (Hd : timestamp_delta (ts + n) ts = - n).
  { rewrite timestamp_delta_cases by lia.
    destruct (Z.leb_spec (ts - (ts + n)) (- 2 ^ 31)); lia. }
  assert (Hlen63 : 0 < n * fs < 2 ^ 62) by nia.
  rewrite (jitter_write_cases (jitter_write bq expected ts fs chunk)).
  rewrite (jitter_write_cases bq expected ts fs chunk).
  set (q1 := pa_memblockq_seek bq
               (sint64 (timestamp_delta expected ts * sint64 fs))) in *.
  assert (Hq1 : - 2 ^ 63 <= write_index q1 < 2 ^ 63).
  { subst q1. cbn [pa_memblockq_seek write_index]. apply sint64_range. }
  cbn [read_index maxlength prebuf blocks write_index pa_memblockq_seek].
  unfold occupancy. cbn [blocks]. fold (occupancy bq).
  rewrite Hd, Hlen.
  rewrite (sint64_small fs) by lia.
  rewrite (sint64_small (- n * fs)) by lia.
  rewrite (sint64_small (write_index q1 + n * fs)) by lia.
  replace (write_index q1 + n * fs + - n * fs) with (write_index q1) by lia.
  rewrite (sint64_small (write_index q1)) by lia.
  rewrite (sint64_small (write_index q1 + n * fs)) by lia.
  f_equal.
  destruct (Z.ltb_spec (maxlength bq - occupancy bq) (n * fs)) as [Hfull|Hroom].
  - unfold occupancy in Hfull.
    destruct (Z.ltb_spec (maxlength bq - Z.of_nat (size (blocks bq))) (n * fs));
      [reflexivity|lia].
  - destruct (_ <? _); [reflexivity|apply write_bytes_twice].
Qed.

(** X21: a packet of the bound stream that arrives a second time right
    after the first changes neither the jitter buffer (content and cursors)
    nor the expected timestamp, whether the first copy was stored or
    skipped on overrun, provided the packet's frames do not carry the
    timestamp across 2^32. *)
Theorem duplicate_packet_changes_nothing
    (pa_timeval_load : timeval -> Z)
    (pa_bytes_to_usec : Z -> pa_sample_spec -> Z)
    (pa_smoother_get : pa_smoother -> Z -> Z)
    (pa_memblockq_is_readable : pa_memblockq -> bool)
    (e1 e2 : io_env) (p : pollfd) (s : session) (pk : packet) (n : Z) :
  let fs := rtp.frame_size (rtp_context s) in
  let once := deliver pa_timeval_load pa_bytes_to_usec pa_smoother_get
                pa_memblockq_is_readable e1 (p, s) in
  let twice := deliver pa_timeval_load pa_bytes_to_usec pa_smoother_get
                 pa_memblockq_is_readable e2 once in
  env_recv e1 = Some pk -> env_recv e2 = Some pk ->
  first_packet s = true -> pk_ssrc pk = ssrc s ->
  pk_payload pk = sdp.payload (sdp_info s) ->
  0 <= pk_timestamp pk -> pk_timestamp pk + n < 2 ^ 32 -> 0 < n < 2 ^ 31 ->
  0 < fs < 2 ^ 31 ->
  Z.of_nat (length (pk_data pk)) = n * fs ->
  write_index (pa_memblockq_seek (memblockq s)
                 (sint64 (timestamp_delta (offset s) (pk_timestamp pk) * sint64 fs)))
  + n * fs < 2 ^ 63 ->
  memblockq (snd twice) = memblockq (snd once) /\
  offset (snd twice) = offset (snd once).
Proof.
  intros fs once twice Hr1 Hr2 Hb Hs Hpay Hts Hhi Hn Hfs Hlen Hw.
  destruct (deliver_bound pa_timeval_load pa_bytes_to_usec pa_smoother_get
              pa_memblockq_is_readable e1 (p, s) pk Hr1 Hpay Hb Hs)
    as (A1 & A2 & A3 & A4 & A5 & A6).
  fold once in A1, A2, A3, A4, A5, A6. cbn [snd] in A2, A3, A4, A5, A6.
  fold fs in A4, A5, A6.
  destruct (deliver_bound pa_timeval_load pa_bytes_to_usec pa_smoother_get
              pa_memblockq_is_readable e2 once pk Hr2)
    as (B1 & B2 & B3 & B4 & B5 & B6); try congruence.
  fold twice in B1, B2, B3, B4, B5, B6.
  rewrite A4 in B5, B6.
  assert (Hoff : offset (snd once) = pk_timestamp pk + n).
  { rewrite A5, Hlen, Z.div_mul by lia. apply uint32_small. lia. }
  split.
  - rewrite B6, A6, Hoff.
    apply jitter_write_again; assumption.
  - rewrite B5, A5. reflexivity.
Qed.

Lemma duplicate_packet_changes_nothing_witness :
  memblockq (Scenario.feed [Scenario.p1000; Scenario.p1000] (Scenario.bound 1000 1000))
  = memblockq (Scenario.feed [Scenario.p1000] (Scenario.bound 1000 1000)).
Proof.
  apply (duplicate_packet_changes_nothing Scenario.timeval_load
           Scenario.bytes_to_usec Scenario.newest_sample Scenario.holds_data
           (Scenario.arrival 101 Scenario.p1000)
           (Scenario.arrival 101 Scenario.p1000) Scenario.pollin
           (Scenario.bound 1000 1000) Scenario.p1000 1);
    try reflexivity; vm_compute; try split; congruence.
Defined.

(** ** Attaching to and detaching from the poll loop *)

(** X22: attaching a detached session creates a poll item on the session's
    socket that waits for input and has no events pending; run on that item
    before any poll, [rtpoll_work_cb] returns 0, logs nothing and changes
    neither the item nor the session; detaching removes the item again.
    Attaching an attached session and detaching a detached one fail their
    assertion. *)
Theorem attached_item_idle_until_polled
    (pa_timeval_load : timeval -> Z)
    (pa_bytes_to_usec : Z -> pa_sample_spec -> Z)
    (pa_smoother_get : pa_smoother -> Z -> Z)
    (pa_memblockq_is_readable : pa_memblockq -> bool)
    (e : io_env) (s : session) :
  exists p,
    Lifecycle.sink_input_attach None s = Some (Some p) /\
    pfd_fd p = rtp.fd (rtp_context s) /\
    events p = POLLIN /\
    RtpRecv.rtpoll_work_cb pa_timeval_load pa_bytes_to_usec pa_smoother_get
      pa_memblockq_is_readable e p s
    = {| ret := 0; pfd := p; sess := s; trace := [] |} /\
    Lifecycle.sink_input_detach (Some p) = Some None /\
    Lifecycle.sink_input_attach (Some p) s = None /\
    Lifecycle.sink_input_detach None = None.
Proof.
  eexists. split; [reflexivity|].
  split; [reflexivity|]. split; [reflexivity|].
  split; [|repeat split].
  apply rtpoll_work_cb_not_readable; reflexivity.
Qed.
